(** * VDO user-space format engine: a shallow embedding

    The development follows [utils/vdo/user/vdoConfig.c] (format driver,
    partition clearing, super-block state changes), the declaration of
    [computeBlockMapPageCount] in [utils/vdo/base/blockMapInternals.h], and
    the user-space allocator [uds_allocate_memory].  Further parts follow
    the sized allocation of [utils/uds/memoryAlloc.h] and
    [uds_reallocate_memory], the number and size parsers of
    [parseUtils.c], the suspend callback of [vdoSuspend.c], the syslog
    client [utils/uds/minisyslog.c], and the option handling of
    [vdostats].

    C integers are [Z] with their wrap-around written out, byte buffers are
    [list byte], and the physical layer (a struct of function pointers in
    C) is a record holding the device contents, the answers the device and
    the buffer allocator will give to the coming calls, and the log of the
    [writer] calls issued so far. *)

From Stdlib Require Import ZArith Lia List Bool.
From Stdlib Require Import Strings.Byte.
From stdpp Require Import base tactics option list numbers gmap.

Local Open Scope Z_scope.

(** ** Machine integers and status codes *)

Definition u64 (z : Z) : Z := z mod 2 ^ 64.

(** Modelled from the spec: the status-code headers are not among the
    sources; success is "exit code 0", every failure is non-zero. *)
Definition UDS_SUCCESS : Z := 0.
Definition VDO_SUCCESS : Z := UDS_SUCCESS.

(** [result != VDO_SUCCESS] *)
Definition failed (result : Z) : bool := negb (result =? VDO_SUCCESS).

(** ** The physical layer *)

Module Layer.

(** Modelled from the spec: "One block is 4096 bytes." *)
Definition VDO_BLOCK_SIZE : Z := 4096.

Definition zeros (bytes : Z) : list byte := replicate (Z.to_nat bytes) x00.

Definition zero_block : list byte := zeros VDO_BLOCK_SIZE.

(** The block of [buffer] that lands [i] blocks after the start of an
    extent. *)
Definition block_of_buffer (buffer : list byte) (i : Z) : list byte :=
  take (Z.to_nat VDO_BLOCK_SIZE) (drop (Z.to_nat (VDO_BLOCK_SIZE * i)) buffer).

(** What the device (or the allocator behind [allocateIOBuffer]) answers
    to one call: a status code, and for a failing [writer] call the number
    of leading blocks of the extent that reached the device anyway. *)
Record io_outcome := IoOutcome {
  io_result : Z;
  io_torn : Z
}.

Definition io_ok : io_outcome := IoOutcome VDO_SUCCESS 0.

(** One call of the [extent_writer]. *)
Record extent := Extent {
  ext_start : Z;
  ext_count : Z;
  ext_buffer : list byte
}.

Record PhysicalLayer := mkLayer {
  blockCount : Z;
  blocks : Z -> list byte;
  outcomes : list io_outcome;
  writes : list extent
}.

Definition getBlockCount (layer : PhysicalLayer) : Z := blockCount layer.

(** The answer to the next call, and the layer with that answer consumed.
    A layer with no scripted answers left performs every call. *)
Definition next_outcome (layer : PhysicalLayer) : io_outcome * PhysicalLayer :=
  match outcomes layer with
  | [] => (io_ok, layer)
  | o :: rest =>
      (o, mkLayer (blockCount layer) (blocks layer) rest (writes layer))
  end.

(** Modelled from the spec: the [buffer_allocator] behind
    [layer->allocateIOBuffer] is a callback whose implementations are not
    among the sources; it "returns a buffer of exactly [bytes], zeroed",
    or fails. *)
Definition allocateIOBuffer (layer : PhysicalLayer) (bytes : Z)
  : Z * list byte * PhysicalLayer :=
  let (o, layer') := next_outcome layer in
  if failed (io_result o) then (io_result o, [], layer')
  else (VDO_SUCCESS, zeros bytes, layer').

(** The device contents after the first [n] blocks of [buffer] were stored
    from [start] on. *)
Definition store_blocks (bs : Z -> list byte) (start n : Z)
    (buffer : list byte) : Z -> list byte :=
  fun pbn =>
    if (start <=? pbn) && (pbn <? start + n)
    then block_of_buffer buffer (pbn - start)
    else bs pbn.

(** Modelled from the spec: the [extent_writer] behind [layer->writer];
    "writes are durable on return or fail".  A failing call may leave a
    leading part of the extent on the device. *)
Definition writer (layer : PhysicalLayer) (startBlock blockCnt : Z)
    (buffer : list byte) : Z * PhysicalLayer :=
  let (o, layer') := next_outcome layer in
  let stored :=
    if failed (io_result o) then Z.min (Z.max 0 (io_torn o)) blockCnt
    else blockCnt in
  (io_result o,
   mkLayer (blockCount layer')
           (store_blocks (blocks layer') startBlock stored buffer)
           (outcomes layer')
           (writes layer' ++ [Extent startBlock blockCnt buffer])).

(** Modelled from the spec: the [extent_reader] behind [layer->reader]. *)
Definition reader (layer : PhysicalLayer) (startBlock blockCnt : Z)
  : Z * list byte * PhysicalLayer :=
  let (o, layer') := next_outcome layer in
  if failed (io_result o) then (io_result o, [], layer')
  else (VDO_SUCCESS,
        concat (map (fun i => blocks layer' (startBlock + Z.of_nat i))
                    (seq 0 (Z.to_nat blockCnt))),
        layer').

(** A block is touched by an extent when it lies inside it. *)
Definition covers (pbn : Z) (e : extent) : bool :=
  (ext_start e <=? pbn) && (pbn <? ext_start e + ext_count e).

End Layer.
Export Layer.

(** ** Partitions and the VDO layout *)

Inductive PartitionID :=
| BLOCK_MAP_PARTITION
| BLOCK_ALLOCATOR_PARTITION
| RECOVERY_JOURNAL_PARTITION
| SLAB_SUMMARY_PARTITION.

Record partition := mkPartition {
  partition_offset : Z;
  partition_count : Z
}.

Record vdo_layout := mkLayout {
  layout_partitions : PartitionID -> partition
}.

Definition get_vdo_partition (layout : vdo_layout) (id : PartitionID)
  : partition := layout_partitions layout id.

(** Sizes and offsets of partitions are 64-bit block counts. *)
Definition get_fixed_layout_partition_size (p : partition) : Z :=
  u64 (partition_count p).

Definition get_fixed_layout_partition_offset (p : partition) : Z :=
  u64 (partition_offset p).

(** ** clearPartition *)

(** The first loop of [clearPartition]:
    [for (n = size; (bufferBlocks < 4096) && ((n & 0x1) == 0); n >>= 1)
       bufferBlocks <<= 1;] *)
Fixpoint bufferBlocks_loop (fuel : nat) (bufferBlocks n : Z) : Z :=
  match fuel with
  | O => bufferBlocks
  | S fuel' =>
      if (bufferBlocks <? 4096) && (Z.land n 1 =? 0)
      then bufferBlocks_loop fuel' (u64 (Z.shiftl bufferBlocks 1))
                             (Z.shiftr n 1)
      else bufferBlocks
  end.

(** [bufferBlocks] doubles from 1 and the loop stops at 4096 at the
    latest, so twelve rounds always reach the exit test. *)
Definition bufferBlocks_of (size : Z) : Z := bufferBlocks_loop 12 1 size.

(** The second loop of [clearPartition]:
    [for (pbn = start; (pbn < start + size) && (result == VDO_SUCCESS);
          pbn += bufferBlocks)
       result = layer->writer(layer, pbn, bufferBlocks, zeroBuffer, NULL);]
    [None] means the fuel ran out before the loop test failed. *)
Fixpoint clear_loop (fuel : nat) (layer : PhysicalLayer)
    (pbn limit bufferBlocks : Z) (zeroBuffer : list byte) (result : Z)
  : option (Z * PhysicalLayer) :=
  if (pbn <? limit) && (result =? VDO_SUCCESS) then
    match fuel with
    | O => None
    | S fuel' =>
        let (result', layer') := writer layer pbn bufferBlocks zeroBuffer in
        clear_loop fuel' layer' (u64 (pbn + bufferBlocks)) limit bufferBlocks
                   zeroBuffer result'
    end
  else Some (result, layer).

Definition clearPartition_fuel (fuel : nat) (layer : PhysicalLayer)
    (layout : vdo_layout) (id : PartitionID) : option (Z * PhysicalLayer) :=
  let partition := get_vdo_partition layout id in
  let size := get_fixed_layout_partition_size partition in
  let start := get_fixed_layout_partition_offset partition in
  let bufferBlocks := bufferBlocks_of size in
  let '(result, zeroBuffer, layer1) :=
    allocateIOBuffer layer (u64 (bufferBlocks * VDO_BLOCK_SIZE)) in
  if failed result then Some (result, layer1)
  else clear_loop fuel layer1 start (u64 (start + size)) bufferBlocks
                  zeroBuffer result.

(** Each round writes at least one block, so a partition of [size] blocks
    needs at most [size] rounds. *)
Definition clearPartition (layer : PhysicalLayer) (layout : vdo_layout)
    (id : PartitionID) : Z * PhysicalLayer :=
  let size :=
    get_fixed_layout_partition_size (get_vdo_partition layout id) in
  match clearPartition_fuel (Z.to_nat size) layer layout id with
  | Some r => r
  | None => (VDO_SUCCESS, layer)
  end.

(** ** Vocabulary for the write loop of [clearPartition] *)

(** The [i]-th sub-write of a clear that starts at [start] with chunks of
    [c] blocks. *)
Definition chunk_write (start c : Z) (i : nat) : extent :=
  Extent (start + Z.of_nat i * c) c (zeros (c * VDO_BLOCK_SIZE)).

(** The status code the layer's script holds for its [i]-th coming call. *)
Definition scripted_result (l : PhysicalLayer) (i : nat) : Z :=
  io_result (default io_ok (outcomes l !! i)).

(** How often a block is addressed by a list of [writer] calls. *)
Definition times_written (pbn : Z) (ws : list extent) : nat :=
  length (List.filter (covers pbn) ws).

(** The write loop with its [m] remaining rounds unrolled. *)
Fixpoint write_chunks (m : nat) (l : PhysicalLayer) (pbn c : Z)
  : Z * PhysicalLayer :=
  match m with
  | O => (VDO_SUCCESS, l)
  | S m' =>
      let (r, l') := writer l pbn c (zeros (c * VDO_BLOCK_SIZE)) in
      if failed r then (r, l') else write_chunks m' l' (pbn + c) c
  end.


(** ** Checksums *)

Module Checksum.

(** Modelled from the spec: the checksum component is not among the
    sources.  "CRC-32C (Castagnoli, polynomial 0x1EDC6F41, reflected, init
    0xFFFFFFFF, xorout 0xFFFFFFFF)"; [0x82F63B78] is that polynomial with
    its 32 bits reversed. *)
Definition crc32c_bit (crc : Z) : Z :=
  if Z.testbit crc 0
  then Z.lxor (Z.shiftr crc 1) 0x82F63B78
  else Z.shiftr crc 1.

Definition crc32c_byte (crc : Z) (b : byte) : Z :=
  Nat.iter 8 crc32c_bit (Z.lxor crc (Z.of_N (Byte.to_N b))).

Definition crc32c (data : list byte) : Z :=
  Z.lxor (fold_left crc32c_byte data 0xFFFFFFFF) 0xFFFFFFFF.

Definition byte_of_Z (z : Z) : byte :=
  default x00 (Byte.of_N (Z.to_N (z mod 256))).

(** Store a 32-bit value as four little-endian bytes at offset [o]. *)
Definition store_u32_le (o : nat) (z : Z) (block : list byte) : list byte :=
  <[o := byte_of_Z z]>
    (<[(o + 1)%nat := byte_of_Z (Z.shiftr z 8)]>
       (<[(o + 2)%nat := byte_of_Z (Z.shiftr z 16)]>
          (<[(o + 3)%nat := byte_of_Z (Z.shiftr z 24)]> block))).

End Checksum.
Export Checksum.

(** ** The VDO in memory *)

(** The persisted states of a VDO, as the suspend code of the sources
    switches over them. *)
Inductive VDOState :=
| VDO_DIRTY
| VDO_NEW
| VDO_CLEAN
| VDO_READ_ONLY_MODE
| VDO_FORCE_REBUILD
| VDO_RECOVERING
| VDO_REPLAYING
| VDO_REBUILD_FOR_UPGRADE.

#[global] Instance VDOState_eq_dec : EqDecision VDOState.
Proof. solve_decision. Defined.

#[global] Instance byte_eq_dec : EqDecision byte := Byte.byte_eq_dec.

(** The configuration handed to the format driver; the fields are those
    [vdoConfig.c] reads. *)
Record VDOConfig := mkVDOConfig {
  logicalBlocks : Z;
  physicalBlocks : Z;
  slabSize : Z;
  recoveryJournalSize : Z;
  slabJournalBlocks : Z
}.

(** Modelled from the spec: the declaration is not among the sources;
    "index-config: memory class, checkpoint frequency, sparse". *)
Record index_config := mkIndexConfig {
  mem : Z;
  checkpoint_frequency : Z;
  sparse : bool
}.

(** Modelled from the spec: the declaration is not among the sources; a
    geometry holds the nonce, the UUID, the start of the dedup-index
    region, the start of the data region and the index configuration. *)
Record volume_geometry := mkGeometry {
  geometry_nonce : Z;
  geometry_uuid : list byte;
  index_region_start : Z;
  data_region_start : Z;
  geometry_index_config : index_config
}.

(** Modelled from the spec: the declaration is not among the sources;
    "slab_blocks, journal_blocks, reference_count_blocks, data_blocks". *)
Record SlabConfig := mkSlabConfig {
  slabBlocks : Z;
  dataBlocks : Z;
  referenceCountBlocks : Z;
  journalBlocks : Z
}.

(** Modelled from the spec: the declaration is not among the sources; a
    depot is what [make_slab_depot] is given: its extent, the slab
    configuration and the nonce. *)
Record slab_depot := mkSlabDepot {
  depot_first_block : Z;
  depot_last_block : Z;
  depot_slab_config : SlabConfig;
  depot_nonce : Z
}.

(** Modelled from the spec: the declaration is not among the sources;
    "VDOComponent{state, nonce, config, complete_recoveries,
    read_only_recoveries}". *)
Record VDOComponent := mkComponent {
  component_state : VDOState;
  component_nonce : Z;
  component_config : VDOConfig;
  component_complete_recoveries : Z;
  component_read_only_recoveries : Z
}.

(** The fields of the in-memory VDO that [vdoConfig.c] reads or sets. *)
Record VDO := mkVDO {
  v_state : VDOState;
  v_config : VDOConfig;
  v_nonce : Z;
  v_firstBlockOffset : Z;
  v_layout : vdo_layout;
  v_depot : option slab_depot;
  v_completeRecoveries : Z;
  v_readOnlyRecoveries : Z;
  v_superBlock : list byte
}.

Definition set_state (s : VDOState) (v : VDO) : VDO :=
  mkVDO s (v_config v) (v_nonce v) (v_firstBlockOffset v) (v_layout v)
        (v_depot v) (v_completeRecoveries v) (v_readOnlyRecoveries v)
        (v_superBlock v).

Definition set_config (c : VDOConfig) (v : VDO) : VDO :=
  mkVDO (v_state v) c (v_nonce v) (v_firstBlockOffset v) (v_layout v)
        (v_depot v) (v_completeRecoveries v) (v_readOnlyRecoveries v)
        (v_superBlock v).

Definition set_nonce (n : Z) (v : VDO) : VDO :=
  mkVDO (v_state v) (v_config v) n (v_firstBlockOffset v) (v_layout v)
        (v_depot v) (v_completeRecoveries v) (v_readOnlyRecoveries v)
        (v_superBlock v).

Definition set_firstBlockOffset (o : Z) (v : VDO) : VDO :=
  mkVDO (v_state v) (v_config v) (v_nonce v) o (v_layout v)
        (v_depot v) (v_completeRecoveries v) (v_readOnlyRecoveries v)
        (v_superBlock v).

Definition set_layout (l : vdo_layout) (v : VDO) : VDO :=
  mkVDO (v_state v) (v_config v) (v_nonce v) (v_firstBlockOffset v) l
        (v_depot v) (v_completeRecoveries v) (v_readOnlyRecoveries v)
        (v_superBlock v).

Definition set_depot (d : slab_depot) (v : VDO) : VDO :=
  mkVDO (v_state v) (v_config v) (v_nonce v) (v_firstBlockOffset v)
        (v_layout v) (Some d) (v_completeRecoveries v)
        (v_readOnlyRecoveries v) (v_superBlock v).

Definition set_recoveries (complete readOnly : Z) (v : VDO) : VDO :=
  mkVDO (v_state v) (v_config v) (v_nonce v) (v_firstBlockOffset v)
        (v_layout v) (v_depot v) complete readOnly (v_superBlock v).

Definition set_superBlock (b : list byte) (v : VDO) : VDO :=
  mkVDO (v_state v) (v_config v) (v_nonce v) (v_firstBlockOffset v)
        (v_layout v) (v_depot v) (v_completeRecoveries v)
        (v_readOnlyRecoveries v) b.

Definition getFirstBlockOffset (vdo : VDO) : Z := u64 (v_firstBlockOffset vdo).

Definition get_data_region_offset (geometry : volume_geometry) : Z :=
  u64 (data_region_start geometry).

Definition setVDOState (vdo : VDO) (state : VDOState) : VDO :=
  set_state state vdo.

Definition inReadOnlyMode (vdo : VDO) : bool :=
  bool_decide (v_state vdo = VDO_READ_ONLY_MODE).

(** Logging leaves the device alone; the call hands back the code it was
    given. *)
Definition logErrorWithStringError (code : Z) (message : list byte) : Z :=
  code.

(** ** The parts of the base library that the sources only call

    The format driver and the state changer of [vdoConfig.c] call into the
    base library (status codes, volume geometry, layout, slab depot, block
    map, codec).  Those functions build structures in memory or encode and
    decode them; none of them is among the sources, so they are parameters
    of the development.  Only the layer performs I/O. *)
Class BaseCode := {
  VDO_BAD_MAGIC : Z;
  VDO_NOT_READ_ONLY : Z;
  VDO_CORRUPT : Z;
  DEFAULT_BLOCK_MAP_TREE_ROOT_COUNT : Z;
  RECOVERY_JOURNAL_TAIL_BUFFER_SIZE : Z;
  SUPER_BLOCK_STATE_OFFSET : nat;
  SUPER_BLOCK_CHECKSUM_OFFSET : nat;
  state_tag : VDOState -> byte;
  register_status_codes : Z;
  validateVDOConfig : VDOConfig -> Z -> bool -> Z;
  initialize_volume_geometry :
    Z -> list byte -> index_config -> Z * volume_geometry;
  encode_volume_geometry : volume_geometry -> Z * list byte;
  decode_volume_geometry : list byte -> Z * volume_geometry;
  makeVDO : PhysicalLayer -> Z * VDO;
  make_vdo_layout : Z -> Z -> Z -> Z -> Z -> Z * vdo_layout;
  get_slab_summary_size : Z -> Z;
  make_recovery_journal : Z -> partition -> Z -> Z -> Z -> Z;
  configure_slab : Z -> Z -> Z * SlabConfig;
  make_slab_depot : Z -> Z -> SlabConfig -> Z -> Z -> Z * slab_depot;
  calculate_slab_count : slab_depot -> Z;
  compute_forest_size : Z -> Z -> Z;
  make_block_map : Z -> Z -> Z -> Z -> Z;
  make_super_block : PhysicalLayer -> Z;
  encode_super_block : VDO -> Z * list byte;
  decode_super_block : list byte -> Z;
  validateVDOVersion : VDO -> Z;
  decode_vdo_component : list byte -> Z * VDOComponent
}.

(** ** Volume geometry and super block I/O *)

Section Format.

Context `{BC : BaseCode}.

Definition GEOMETRY_BLOCK_LOCATION : Z := 0.

(** The magic string "dmvdo001" that opens a geometry block. *)
Definition MAGIC_NUMBER : list byte := [x64; x6d; x76; x64; x6f; x30; x30; x31].

Definition null_geometry : volume_geometry :=
  mkGeometry 0 [] 0 0 (mkIndexConfig 0 0 false).

(** Modelled from the spec: [clear_volume_geometry] is not among the
    sources; it "writes one zero block at PBN 0". *)
Definition clear_volume_geometry (layer : PhysicalLayer)
  : Z * PhysicalLayer :=
  let '(result, block, layer1) := allocateIOBuffer layer VDO_BLOCK_SIZE in
  if failed result then (result, layer1)
  else writer layer1 GEOMETRY_BLOCK_LOCATION 1 block.

(** Modelled from the spec: [write_volume_geometry] is not among the
    sources; it "writes one block at PBN 0", the encoded geometry. *)
Definition write_volume_geometry (layer : PhysicalLayer)
    (geometry : volume_geometry) : Z * PhysicalLayer :=
  let '(result, _, layer1) := allocateIOBuffer layer VDO_BLOCK_SIZE in
  if failed result then (result, layer1)
  else
    let (result, block) := encode_volume_geometry geometry in
    if failed result then (result, layer1)
    else writer layer1 GEOMETRY_BLOCK_LOCATION 1 block.

(** Modelled from the spec: [load_volume_geometry] is not among the
    sources; it "reads PBN 0, validates magic, header, version, CRC, and
    data_region.offset > 0", in that order. *)
Definition load_volume_geometry (layer : PhysicalLayer)
  : Z * volume_geometry * PhysicalLayer :=
  let '(result, _, layer1) := allocateIOBuffer layer VDO_BLOCK_SIZE in
  if failed result then (result, null_geometry, layer1)
  else
    let '(result, block, layer2) :=
      reader layer1 GEOMETRY_BLOCK_LOCATION 1 in
    if failed result then (result, null_geometry, layer2)
    else if negb (bool_decide (take 8 block = MAGIC_NUMBER))
    then (VDO_BAD_MAGIC, null_geometry, layer2)
    else
      let (result, geometry) := decode_volume_geometry block in
      if failed result then (result, geometry, layer2)
      else if get_data_region_offset geometry =? 0
      then (VDO_CORRUPT, geometry, layer2)
      else (VDO_SUCCESS, geometry, layer2).

(** Modelled from the spec: [setLoadConfigFromGeometry] is not among the
    sources; the super block sits "at [data_region.offset]". *)
Definition setLoadConfigFromGeometry (geometry : volume_geometry)
    (vdo : VDO) : VDO :=
  set_firstBlockOffset (get_data_region_offset geometry) vdo.

(** Modelled from the spec: [load_super_block] is not among the sources;
    it reads the one block at [pbn] and validates it. *)
Definition load_super_block (layer : PhysicalLayer) (pbn : Z) (vdo : VDO)
  : Z * VDO * PhysicalLayer :=
  let '(result, _, layer1) := allocateIOBuffer layer VDO_BLOCK_SIZE in
  if failed result then (result, vdo, layer1)
  else
    let '(result, block, layer2) := reader layer1 pbn 1 in
    if failed result then (result, vdo, layer2)
    else
      let result := decode_super_block block in
      if failed result then (result, vdo, layer2)
      else (VDO_SUCCESS, set_superBlock block vdo, layer2).

(** Modelled from the spec: [decodeVDOComponent] is not among the sources;
    it decodes "[VDOComponent{state, nonce, config, complete_recoveries,
    read_only_recoveries}]" out of the loaded super block. *)
Definition decodeVDOComponent (vdo : VDO) : Z * VDO :=
  let (result, component) := decode_vdo_component (v_superBlock vdo) in
  if failed result then (result, vdo)
  else
    (VDO_SUCCESS,
     set_state (component_state component)
       (set_nonce (component_nonce component)
          (set_config (component_config component)
             (set_recoveries (component_complete_recoveries component)
                             (component_read_only_recoveries component)
                             vdo)))).

(** The four bytes of the checksum field, and the bytes it covers: the
    CRC operates "on the bytes that follow the checksum field in a
    block". *)
Definition checksummed (block : list byte) : list byte :=
  drop (SUPER_BLOCK_CHECKSUM_OFFSET + 4) block.

Definition store_checksum (block : list byte) : list byte :=
  store_u32_le SUPER_BLOCK_CHECKSUM_OFFSET (crc32c (checksummed block)) block.

(** Modelled from the spec: [saveReconfiguredVDO] is not among the
    sources; it "overwrites a single byte (state), recomputes the CRC, and
    writes it back": "one block at the super-block PBN". *)
Definition saveReconfiguredVDO (vdo : VDO) (layer : PhysicalLayer)
  : Z * PhysicalLayer :=
  let block :=
    store_checksum
      (<[SUPER_BLOCK_STATE_OFFSET := state_tag (v_state vdo)]>
         (v_superBlock vdo)) in
  writer layer (getFirstBlockOffset vdo) 1 block.

(** Modelled from the spec: [saveVDOComponents] is not among the sources;
    it does "encode & write super block at [geometry.data_region.offset]",
    a "one-block write". *)
Definition saveVDOComponents (vdo : VDO) (layer : PhysicalLayer)
  : Z * PhysicalLayer :=
  let (result, block) := encode_super_block vdo in
  if failed result then (result, layer)
  else writer layer (getFirstBlockOffset vdo) 1 block.

(** ** The format driver *)

Definition makeVDOLayoutFromConfig (config : VDOConfig) (startingOffset : Z)
  : Z * vdo_layout :=
  make_vdo_layout (physicalBlocks config) startingOffset
                  DEFAULT_BLOCK_MAP_TREE_ROOT_COUNT
                  (recoveryJournalSize config)
                  (get_slab_summary_size VDO_BLOCK_SIZE).

(** [configureVDO] builds the in-memory VDO; it only reads the layer. *)
Definition configureVDO (layer : PhysicalLayer) (vdo : VDO) : Z * VDO :=
  let (result, layout) :=
    makeVDOLayoutFromConfig (v_config vdo)
                            (u64 (getFirstBlockOffset vdo + 1)) in
  if failed result then (result, vdo)
  else
    let vdo := set_layout layout vdo in
    let result :=
      make_recovery_journal
        (v_nonce vdo)
        (get_vdo_partition (v_layout vdo) RECOVERY_JOURNAL_PARTITION)
        (v_completeRecoveries vdo)
        (recoveryJournalSize (v_config vdo))
        RECOVERY_JOURNAL_TAIL_BUFFER_SIZE in
    if failed result then (result, vdo)
    else
      let (result, slabConfig) :=
        configure_slab (slabSize (v_config vdo))
                       (slabJournalBlocks (v_config vdo)) in
      if failed result then (result, vdo)
      else
        let depotPartition :=
          get_vdo_partition (v_layout vdo) BLOCK_ALLOCATOR_PARTITION in
        let depotSize := get_fixed_layout_partition_size depotPartition in
        let origin := get_fixed_layout_partition_offset depotPartition in
        let (result, depot) :=
          make_slab_depot depotSize origin slabConfig (v_nonce vdo) 1 in
        if failed result then (result, vdo)
        else
          let vdo := set_depot depot vdo in
          let vdo :=
            if logicalBlocks (v_config vdo) =? 0 then
              let dataBlocks :=
                u64 (dataBlocks slabConfig * calculate_slab_count depot) in
              let config := v_config vdo in
              set_config
                (mkVDOConfig
                   (u64 (dataBlocks
                         - compute_forest_size
                             dataBlocks DEFAULT_BLOCK_MAP_TREE_ROOT_COUNT))
                   (physicalBlocks config) (slabSize config)
                   (recoveryJournalSize config) (slabJournalBlocks config))
                vdo
            else vdo in
          let blockMapPartition :=
            get_vdo_partition (v_layout vdo) BLOCK_MAP_PARTITION in
          let result :=
            make_block_map
              (logicalBlocks (v_config vdo)) 0
              (get_fixed_layout_partition_offset blockMapPartition)
              (get_fixed_layout_partition_size blockMapPartition) in
          if failed result then (result, vdo)
          else
            let result := make_super_block layer in
            if failed result then (result, vdo)
            else (VDO_SUCCESS, setVDOState vdo VDO_NEW).

Definition makeAndWriteVDO (config : VDOConfig) (layer : PhysicalLayer)
    (geometry : volume_geometry) : Z * PhysicalLayer :=
  let (result, vdo) := makeVDO layer in
  if failed result then (result, layer)
  else
    let vdo :=
      set_firstBlockOffset (get_data_region_offset geometry)
        (set_nonce (geometry_nonce geometry) (set_config config vdo)) in
    let (result, vdo) := configureVDO layer vdo in
    if failed result then (result, layer)
    else
      let (result, layer1) :=
        clearPartition layer (v_layout vdo) BLOCK_MAP_PARTITION in
      if failed result then (result, layer1)
      else
        let (result, layer2) :=
          clearPartition layer1 (v_layout vdo) RECOVERY_JOURNAL_PARTITION in
        if failed result then (result, layer2)
        else
          let (result, layer3) := saveVDOComponents vdo layer2 in
          if failed result then (result, layer3)
          else (VDO_SUCCESS, layer3).

Definition formatVDOWithNonce (config : VDOConfig)
    (indexConfig : index_config) (layer : PhysicalLayer) (nonce : Z)
    (uuid : list byte) : Z * PhysicalLayer :=
  let result := register_status_codes in
  if failed result then (result, layer)
  else
    let result := validateVDOConfig config (getBlockCount layer) false in
    if failed result then (result, layer)
    else
      let (result, geometry) :=
        initialize_volume_geometry nonce uuid indexConfig in
      if failed result then (result, layer)
      else
        let (result, layer1) := clear_volume_geometry layer in
        if failed result then (result, layer1)
        else
          let (result, layer2) := makeAndWriteVDO config layer1 geometry in
          if failed result then (result, layer2)
          else write_volume_geometry layer2 geometry.

(** ** Changing the state of an inactive VDO *)

Definition prepareSuperBlock (vdo : VDO) (layer : PhysicalLayer)
  : Z * VDO * PhysicalLayer :=
  let '(result, geometry, layer1) := load_volume_geometry layer in
  if failed result then (result, vdo, layer1)
  else
    let vdo := setLoadConfigFromGeometry geometry vdo in
    let '(result, vdo, layer2) :=
      load_super_block layer1 (getFirstBlockOffset vdo) vdo in
    if failed result then (result, vdo, layer2)
    else
      let result := validateVDOVersion vdo in
      if failed result then (result, vdo, layer2)
      else
        let (result, vdo) := decodeVDOComponent vdo in
        (result, vdo, layer2).

Definition updateVDOSuperBlockState (layer : PhysicalLayer)
    (requireReadOnly : bool) (newState : VDOState) : Z * PhysicalLayer :=
  let (result, vdo) := makeVDO layer in
  if failed result then (result, layer)
  else
    let '(result, vdo, layer1) := prepareSuperBlock vdo layer in
    if failed result then (result, layer1)
    else if requireReadOnly && negb (inReadOnlyMode vdo)
    then (logErrorWithStringError VDO_NOT_READ_ONLY [], layer1)
    else
      let vdo := setVDOState vdo newState in
      saveReconfiguredVDO vdo layer1.

Definition forceVDORebuild (layer : PhysicalLayer) : Z * PhysicalLayer :=
  updateVDOSuperBlockState layer true VDO_FORCE_REBUILD.

Definition setVDOReadOnlyMode (layer : PhysicalLayer) : Z * PhysicalLayer :=
  updateVDOSuperBlockState layer false VDO_READ_ONLY_MODE.

(** ** Vocabulary for the order of writes *)

(** The number of sub-writes of a complete clear of a partition. *)
Definition clear_count (layout : vdo_layout) (id : PartitionID) : nat :=
  let size := get_fixed_layout_partition_size (get_vdo_partition layout id) in
  let start :=
    get_fixed_layout_partition_offset (get_vdo_partition layout id) in
  if start + size <? 2 ^ 64
  then Z.to_nat (size / bufferBlocks_of size)
  else 0%nat.

(** The sub-writes of a complete clear of a partition, in order. *)
Definition clear_plan (layout : vdo_layout) (id : PartitionID)
  : list extent :=
  let size := get_fixed_layout_partition_size (get_vdo_partition layout id) in
  let start :=
    get_fixed_layout_partition_offset (get_vdo_partition layout id) in
  map (chunk_write start (bufferBlocks_of size))
      (seq 0 (clear_count layout id)).

(** The VDO that [makeAndWriteVDO] configures on [layer]. *)
Definition configured_vdo (config : VDOConfig) (layer : PhysicalLayer)
    (geometry : volume_geometry) : VDO :=
  (configureVDO layer
     (set_firstBlockOffset (get_data_region_offset geometry)
        (set_nonce (geometry_nonce geometry)
           (set_config config (makeVDO layer).2)))).2.

(** Every write of a format except the last: the zero block at PBN 0, the
    two partition clears, the super block. *)
Definition plan_before_geometry (config : VDOConfig) (layer : PhysicalLayer)
    (geometry : volume_geometry) : list extent :=
  let vdo := configured_vdo config layer geometry in
  [Extent GEOMETRY_BLOCK_LOCATION 1 zero_block]
  ++ clear_plan (v_layout vdo) BLOCK_MAP_PARTITION
  ++ clear_plan (v_layout vdo) RECOVERY_JOURNAL_PARTITION
  ++ [Extent (getFirstBlockOffset vdo) 1 (encode_super_block vdo).2].

(** The last write of a format: the encoded geometry at PBN 0. *)
Definition geometry_write (geometry : volume_geometry) : extent :=
  Extent GEOMETRY_BLOCK_LOCATION 1 (encode_volume_geometry geometry).2.

(** The super block [block] with its state byte set to [s] and its
    checksum recomputed. *)
Definition reconfigured_block (s : VDOState) (block : list byte)
  : list byte :=
  store_checksum (<[SUPER_BLOCK_STATE_OFFSET := state_tag s]> block).

(** The place of the super block on a device: the data-region origin of
    the geometry found at PBN 0. *)
Definition super_block_location (layer : PhysicalLayer) : Z :=
  get_data_region_offset (load_volume_geometry layer).1.2.

End Format.

(** ** 32-bit machine integers *)

Definition u32 (z : Z) : Z := z mod 2 ^ 32.

(** ** Vocabulary for the footprint of a format *)

(** Block [pbn] lies inside partition [id] of [layout]. *)
Definition in_partition (layout : vdo_layout) (id : PartitionID) (pbn : Z)
  : Prop :=
  let p := get_vdo_partition layout id in
  get_fixed_layout_partition_offset p <= pbn
  < get_fixed_layout_partition_offset p + get_fixed_layout_partition_size p.

(** The end of partition [id] is a 64-bit block number, so that the loop
    test [pbn < start + size] of [clearPartition] does not wrap. *)
Definition partition_fits (layout : vdo_layout) (id : PartitionID) : Prop :=
  let p := get_vdo_partition layout id in
  get_fixed_layout_partition_offset p + get_fixed_layout_partition_size p
  < 2 ^ 64.

(** ** Block-map sizing *)

Module BlockMap.

(** Modelled from the spec: "Entries per leaf page = 812 (fixed constant
    of the format)". *)
Definition BLOCK_MAP_ENTRIES_PER_PAGE : Z := 812.



(** The number of buckets of [capacity] needed to hold [population]. *)
Definition compute_bucket_count (population capacity : Z) : Z :=
  (population + capacity - 1) / capacity.

(** Modelled from the spec: the sizing function is declared in
    [blockMapInternals.h] and defined elsewhere.  "interior pages computed
    per root by folding leaves up the tree of fan-out 812 until <=1 page
    remains per root": each round adds the pages of the level above. *)
Fixpoint fold_levels (fuel : nat) (pages : Z) : Z :=
  match fuel with
  | O => 0
  | S fuel' =>
      if pages <=? 1 then 0
      else
        let above := compute_bucket_count pages BLOCK_MAP_ENTRIES_PER_PAGE in
        above + fold_levels fuel' above
  end.

(** Every round at least halves the pages left, so 64 rounds fold any
    64-bit page count down to one page. *)
Definition interior_pages (pages : Z) : Z := fold_levels 64 pages.

(** Modelled from the spec: "leaves = ceil(logical_blocks / 812)", plus
    the interior pages of each root, "summed across all [root_count]
    roots", over leaves "partitioned across [root_count] roots". *)
Definition block_map_page_count (root_count logical_blocks : Z) : Z :=
  let leaves :=
    compute_bucket_count logical_blocks BLOCK_MAP_ENTRIES_PER_PAGE in
  leaves
  + root_count * interior_pages (compute_bucket_count leaves root_count).

End BlockMap.
Export BlockMap.

Section BlockMapPageCount.

Context `{BC : BaseCode}.

(** Modelled from the spec: [computeBlockMapPageCount] is only declared in
    the sources ("the number of pages required" for [entries] block-map
    entries); the forest has [DEFAULT_BLOCK_MAP_TREE_ROOT_COUNT] roots. *)
Definition computeBlockMapPageCount (entries : Z) : Z :=
  block_map_page_count DEFAULT_BLOCK_MAP_TREE_ROOT_COUNT entries.

End BlockMapPageCount.

(** ** The user-space allocator *)

Module MemoryLinuxUser.

Definition NULL : Z := 0.

Definition ENOMEM : Z := 12.

(** [2 * sizeof(size_t)] on a 64-bit machine. *)
Definition DEFAULT_MALLOC_ALIGNMENT : Z := 16.

(** What the C library answers to one allocation request: a fresh
    non-null address whose bytes hold whatever was there, or an error
    number. *)
Inductive alloc_answer :=
| AllocOk (address : positive) (junk : list byte)
| AllocFail (error : positive).

Record process := mkProcess {
  heap : gmap Z (list byte);
  cells : gmap Z Z;
  errno : Z;
  answers : list alloc_answer;
  logged : list (Z * list byte * Z)
}.

Definition fresh_buffer (size : Z) (junk : list byte) : list byte :=
  resize (Z.to_nat size) xff junk.

(** [p = malloc(size)]: on failure the pointer is null and [errno] is
    set. *)
Definition malloc (size : Z) (p : process) : Z * process :=
  match answers p with
  | AllocOk address junk :: rest =>
      (Z.pos address,
       mkProcess (<[Z.pos address := fresh_buffer size junk]> (heap p))
                 (cells p) (errno p) rest (logged p))
  | AllocFail error :: rest =>
      (NULL, mkProcess (heap p) (cells p) (Z.pos error) rest (logged p))
  | [] =>
      (NULL, mkProcess (heap p) (cells p) ENOMEM [] (logged p))
  end.

(** [result = posix_memalign(&p, align, size)]: the error number is the
    return value. *)
Definition posix_memalign (align size : Z) (p : process)
  : Z * Z * process :=
  match answers p with
  | AllocOk address junk :: rest =>
      (0, Z.pos address,
       mkProcess (<[Z.pos address := fresh_buffer size junk]> (heap p))
                 (cells p) (errno p) rest (logged p))
  | AllocFail error :: rest =>
      (Z.pos error, NULL,
       mkProcess (heap p) (cells p) (errno p) rest (logged p))
  | [] => (ENOMEM, NULL, p)
  end.

(** [memset(ptr, c, size)] *)
Definition memset (ptr : Z) (c : byte) (size : Z) (p : process) : process :=
  mkProcess
    (alter (fun buffer =>
              replicate (Z.to_nat size) c ++ drop (Z.to_nat size) buffer)
           ptr (heap p))
    (cells p) (errno p) (answers p) (logged p).

(** [*((void ** ) ptr) = value] *)
Definition store_pointer (ptr value : Z) (p : process) : process :=
  mkProcess (heap p) (<[ptr := value]> (cells p)) (errno p) (answers p)
            (logged p).

Definition uds_log_error_strerror (result : Z) (what : list byte) (size : Z)
    (p : process) : process :=
  mkProcess (heap p) (cells p) (errno p) (answers p)
            (logged p ++ [(result, what, size)]).

Definition log_if_named (result : Z) (what : option (list byte)) (size : Z)
    (p : process) : process :=
  match what with
  | Some name => uds_log_error_strerror result name size p
  | None => p
  end.

Section Allocate.

Variable UDS_INVALID_ARGUMENT : Z.

Definition uds_allocate_memory (size align : Z) (what : option (list byte))
    (ptr : Z) (p : process) : Z * process :=
  if ptr =? NULL then (UDS_INVALID_ARGUMENT, p)
  else if size =? 0 then (UDS_SUCCESS, store_pointer ptr NULL p)
  else
    if align >? DEFAULT_MALLOC_ALIGNMENT then
      let '(result, q, p1) := posix_memalign align size p in
      if negb (result =? 0)
      then (- result, log_if_named result what size p1)
      else (UDS_SUCCESS, store_pointer ptr q (memset q x00 size p1))
    else
      let (q, p1) := malloc size p in
      if q =? NULL
      then
        let result := errno p1 in
        (- result, log_if_named result what size p1)
      else (UDS_SUCCESS, store_pointer ptr q (memset q x00 size p1)).

End Allocate.

End MemoryLinuxUser.

(** ** Parsing of numbers and sizes ([parseUtils.c]) *)

Module ParseUtils.

(** The two error numbers [parseUtils.c] tests for, with their Linux
    values. *)
Definition EINVAL : Z := 22.
Definition ERANGE : Z := 34.

(** What [strtoul] and [strtoull] of the C library hand back: the value,
    how many characters they consumed ([endPtr - arg]), and the [errno]
    found after the call, which the caller had set to 0 before it. *)
Record strto_answer := StrTo {
  st_value : Z;
  st_consumed : nat;
  st_errno : Z
}.

(** The character [arg[i]] of a C string held without its terminator. *)
Definition char_at (arg : list byte) (i : nat) : byte := nth i arg x00.

(** [toupper] in the C locale. *)
Definition toupper (c : byte) : byte :=
  let n := Z.of_N (Byte.to_N c) in
  if (97 <=? n) && (n <=? 122) then byte_of_Z (n - 32) else c.

(** [index(s, c)]: the offset of the first [c] in [s], whose terminating
    NUL counts as a character of the string. *)
Fixpoint index (s : list byte) (c : byte) : option Z :=
  match s with
  | [] => if bool_decide (c = x00) then Some 0 else None
  | x :: rest =>
      if bool_decide (x = c) then Some 0
      else option_map Z.succ (index rest c)
  end.

(** The string "BKMGTP". *)
Definition UNIT_CODES : list byte := [x42; x4b; x4d; x47; x54; x50].

Definition getBinaryExponent (unitCode : byte) : Z :=
  match index UNIT_CODES (toupper unitCode) with
  | None => -1
  | Some where_ => 10 * where_
  end.

Section Parse.

(** [VDO_OUT_OF_RANGE] of [statusCodes.h], and the two conversions of the
    C library. *)
Variable VDO_OUT_OF_RANGE : Z.
Variable strtoul : list byte -> Z -> strto_answer.
Variable strtoull : list byte -> Z -> strto_answer.

(** [numPtr] is [None] for a null pointer and holds the contents of
    [*numPtr] otherwise; the second component of the result is [numPtr]
    after the call. *)
Definition parseUInt (arg : list byte) (lowest highest : Z)
    (numPtr : option Z) : Z * option Z :=
  let a := strtoul arg 0 in
  let n := u64 (st_value a) in
  if (st_errno a =? ERANGE) || (st_errno a =? EINVAL)
     || (st_consumed a =? 0)%nat
     || negb (bool_decide (char_at arg (st_consumed a) = x00))
     || (n <? u32 lowest) || (n >? u32 highest)
  then (VDO_OUT_OF_RANGE, numPtr)
  else (VDO_SUCCESS, option_map (fun _ => u32 n) numPtr).

(** The end of [parseSize], from "Scale the size by the specified units,
    checking for overflow" on. *)
Definition scale_size (size exponent sizePtr : Z) : Z * Z :=
  let actualSize := u64 (Z.shiftl size exponent) in
  if negb (size =? Z.shiftr actualSize exponent)
  then (VDO_OUT_OF_RANGE, sizePtr)
  else (VDO_SUCCESS, actualSize).

(** [sizePtr] holds the contents of [*sizePtr]; the second component of
    the result is [*sizePtr] after the call. *)
Definition parseSize (arg : list byte) (lvmMode : bool) (sizePtr : Z)
  : Z * Z :=
  let a := strtoull arg 0 in
  let size := u64 (st_value a) in
  if (st_errno a =? ERANGE) || (st_errno a =? EINVAL)
     || (st_consumed a =? 0)%nat
  then (VDO_OUT_OF_RANGE, sizePtr)
  else
    let endPtr := st_consumed a in
    if bool_decide (char_at arg endPtr = x00)
    then scale_size size (if lvmMode then 20 else 0) sizePtr
    else
      let exponent := getBinaryExponent (char_at arg endPtr) in
      let endPtr := S endPtr in
      if exponent <? 0 then (VDO_OUT_OF_RANGE, sizePtr)
      else if negb (bool_decide (char_at arg endPtr = x00))
      then (VDO_OUT_OF_RANGE, sizePtr)
      else scale_size size exponent sizePtr.

(** The exponent that the text after the number selects, if that text is
    well formed: nothing, or one unit letter and nothing after it. *)
Definition selected_exponent (arg : list byte) (lvmMode : bool)
  : option Z :=
  let endPtr := st_consumed (strtoull arg 0) in
  if bool_decide (char_at arg endPtr = x00)
  then Some (if lvmMode then 20 else 0)
  else if getBinaryExponent (char_at arg endPtr) <? 0 then None
  else if bool_decide (char_at arg (S endPtr) = x00)
  then Some (getBinaryExponent (char_at arg endPtr))
  else None.

(** [strtoull] took at least one character and reported no error. *)
Definition number_parsed (arg : list byte) : Prop :=
  st_errno (strtoull arg 0) <> ERANGE
  /\ st_errno (strtoull arg 0) <> EINVAL
  /\ st_consumed (strtoull arg 0) <> 0%nat.

End Parse.

End ParseUtils.

(** ** Sized allocation and reallocation *)

Module MemoryAlloc.

Import MemoryLinuxUser.

(** [size_t] has 64 bits. *)
Definition SIZE_MAX : Z := 2 ^ 64 - 1.

Section DoAllocation.

(** [allocate_memory] is only declared in [memoryAlloc.h]; [state] is
    whatever it works on. *)
Context {state : Type}.

Variable allocate_memory :
  Z -> Z -> option (list byte) -> Z -> state -> Z * state.

Definition doAllocation (count size extra align : Z)
    (what : option (list byte)) (ptr : Z) (p : state) : Z * state :=
  let totalSize := u64 (count * size + extra) in
  let totalSize :=
    if (size >? 0) && (count >? (SIZE_MAX - extra) / size)
    then SIZE_MAX
    else totalSize in
  allocate_memory totalSize align what ptr p.

End DoAllocation.

(** [free(ptr)] *)
Definition free (ptr : Z) (p : process) : process :=
  mkProcess (delete ptr (heap p)) (cells p) (errno p) (answers p)
            (logged p).

Definition uds_free_memory (ptr : Z) (p : process) : process := free ptr p.

(** [realloc(ptr, size)] as glibc does it: a zero [size] frees a non-null
    [ptr] and gives null; otherwise the library either fails, leaving the
    old block alone and setting [errno], or moves the block to an address
    of its choice (which may be the old one), keeping the leading bytes;
    the bytes past the old length hold whatever was there. *)
Definition realloc (ptr size : Z) (p : process) : Z * process :=
  if (size =? 0) && negb (ptr =? NULL) then (NULL, free ptr p)
  else
    match answers p with
    | AllocOk address junk :: rest =>
        let old := default [] (heap p !! ptr) in
        (Z.pos address,
         mkProcess
           (<[Z.pos address :=
                take (Z.to_nat size) old
                ++ drop (length old) (fresh_buffer size junk)]>
              (delete ptr (heap p)))
           (cells p) (errno p) rest (logged p))
    | AllocFail error :: rest =>
        (NULL, mkProcess (heap p) (cells p) (Z.pos error) rest (logged p))
    | [] => (NULL, mkProcess (heap p) (cells p) ENOMEM [] (logged p))
    end.

(** [memset(ptr + offset, c, size)] *)
Definition memset_from (ptr offset : Z) (c : byte) (size : Z) (p : process)
  : process :=
  mkProcess
    (alter (fun buffer =>
              take (Z.to_nat offset) buffer
              ++ replicate (Z.to_nat size) c
              ++ drop (Z.to_nat (offset + size)) buffer)
           ptr (heap p))
    (cells p) (errno p) (answers p) (logged p).

(** The logger hands back the code it was given. *)
Definition uds_reallocate_memory (ptr old_size size : Z) (what : list byte)
    (new_ptr : Z) (p : process) : Z * process :=
  let (new, p1) := realloc ptr size p in
  if (new =? NULL) && negb (size =? 0)
  then (- errno p1, uds_log_error_strerror (- errno p1) what size p1)
  else
    let p2 :=
      if size >? old_size
      then memset_from new old_size x00 (size - old_size) p1
      else p1 in
    (UDS_SUCCESS, store_pointer new_ptr new p2).

End MemoryAlloc.

(** ** Suspending a VDO ([vdoSuspend.c]) *)

Module VdoSuspend.

(** [SuspendPhase] *)
Definition SUSPEND_PHASE_START : Z := 0.
Definition SUSPEND_PHASE_PACKER : Z := 1.
Definition SUSPEND_PHASE_LOGICAL_ZONES : Z := 2.
Definition SUSPEND_PHASE_BLOCK_MAP : Z := 3.
Definition SUSPEND_PHASE_JOURNAL : Z := 4.
Definition SUSPEND_PHASE_DEPOT : Z := 5.
Definition SUSPEND_PHASE_WRITE_SUPER_BLOCK : Z := 6.
Definition SUSPEND_PHASE_END : Z := 7.

Inductive AdminOperationType :=
| ADMIN_OPERATION_SUSPEND
| ADMIN_OPERATION_SAVE
| ADMIN_OPERATION_OTHER.

(** The two drain operations [suspendCallback] may start. *)
Inductive drain_operation :=
| ADMIN_STATE_SUSPENDING
| ADMIN_STATE_SAVING.

(** The fields of the sub-task completion that the suspend code reads or
    sets. *)
Record VDOCompletion := mkCompletion {
  result : Z;
  callbackThreadID : Z
}.

Section Suspend.

(** The admin state of [adminState.h] with the two calls made on it, the
    two calls of [completion.h], the status code, and the three threads
    that the thread configuration names; none of them is among the
    sources. *)
Variable admin_state : Type.
Variable startDraining : admin_state -> drain_operation -> bool * admin_state.
Variable isSuspending : admin_state -> bool.
Variable resetCompletion : VDOCompletion -> VDOCompletion.
Variable setCompletionResult : VDOCompletion -> Z -> VDOCompletion.
Variable UDS_BAD_STATE : Z.
Variable getPackerZoneThread : Z.
Variable getJournalZoneThread : Z.
Variable getAdminThread : Z.

(** The admin completion, its sub-task and the fields of the VDO that a
    suspend touches. *)
Record suspend_state := mkSuspend {
  ac_type : AdminOperationType;
  ac_phase : Z;
  ac_result : Z;
  ac_subTask : VDOCompletion;
  vdo_state : VDOState;
  vdo_closeRequired : bool;
  vdo_adminState : admin_state
}.

(** What one call of [suspendCallback] ends in: the asynchronous
    operation it has handed the sub-task to, or the call that finishes the
    sub-task or the drain, or a plain return. *)
Inductive suspend_action :=
| Returned
| WaitUntilNotEnteringReadOnlyMode (completion : VDOCompletion)
| DrainPacker (completion : VDOCompletion)
| DrainLogicalZones (operation : admin_state) (completion : VDOCompletion)
| DrainBlockMap (operation : admin_state) (completion : VDOCompletion)
| DrainRecoveryJournal (operation : admin_state) (completion : VDOCompletion)
| DrainSlabDepot (operation : admin_state) (completion : VDOCompletion)
| SaveVDOComponentsAsync (state : VDOState) (completion : VDOCompletion)
| FinishCompletion (completion : VDOCompletion) (code : Z)
| FinishDrainingWithResult (operation : admin_state) (code : Z).

Definition getThreadIDForPhase (phase : Z) : Z :=
  if phase =? SUSPEND_PHASE_PACKER then getPackerZoneThread
  else if phase =? SUSPEND_PHASE_JOURNAL then getJournalZoneThread
  else getAdminThread.

Definition resetSubTask (st : suspend_state) : suspend_state :=
  let completion := resetCompletion (ac_subTask st) in
  mkSuspend (ac_type st) (ac_phase st) (ac_result st)
            (mkCompletion (result completion)
                          (getThreadIDForPhase (ac_phase st)))
            (vdo_state st) (vdo_closeRequired st) (vdo_adminState st).

Definition set_vdo_state (s : VDOState) (st : suspend_state)
  : suspend_state :=
  mkSuspend (ac_type st) (ac_phase st) (ac_result st) (ac_subTask st) s
            (vdo_closeRequired st) (vdo_adminState st).

Definition writeSuperBlock (st : suspend_state)
  : suspend_state * suspend_action :=
  match vdo_state st with
  | VDO_DIRTY | VDO_NEW | VDO_CLEAN =>
      let st := set_vdo_state VDO_CLEAN st in
      (st, SaveVDOComponentsAsync (vdo_state st) (ac_subTask st))
  | VDO_READ_ONLY_MODE | VDO_FORCE_REBUILD | VDO_RECOVERING
  | VDO_REBUILD_FOR_UPGRADE =>
      (st, SaveVDOComponentsAsync (vdo_state st) (ac_subTask st))
  | VDO_REPLAYING => (st, FinishCompletion (ac_subTask st) UDS_BAD_STATE)
  end.

(** [finishDrainingWithResult(&vdo->adminState, completion->result)] *)
Definition finish (st : suspend_state) : suspend_state * suspend_action :=
  (st, FinishDrainingWithResult (vdo_adminState st) (result (ac_subTask st))).

(** One call of [suspendCallback]; the phase is stepped before the
    switch body runs ([switch (adminCompletion->phase++)]). *)
Definition suspendCallback (st : suspend_state)
  : suspend_state * suspend_action :=
  let phase := ac_phase st in
  let st :=
    mkSuspend (ac_type st) (u32 (phase + 1)) (ac_result st) (ac_subTask st)
              (vdo_state st) (vdo_closeRequired st) (vdo_adminState st) in
  if phase =? SUSPEND_PHASE_START then
    let (started, adminState) :=
      startDraining (vdo_adminState st)
                    (match ac_type st with
                     | ADMIN_OPERATION_SUSPEND => ADMIN_STATE_SUSPENDING
                     | _ => ADMIN_STATE_SAVING
                     end) in
    let st :=
      mkSuspend (ac_type st) (ac_phase st) (ac_result st) (ac_subTask st)
                (vdo_state st) (vdo_closeRequired st) adminState in
    if negb started then (st, Returned)
    else if negb (vdo_closeRequired st) then finish st
    else
      let st := resetSubTask st in
      (st, WaitUntilNotEnteringReadOnlyMode (ac_subTask st))
  else if phase =? SUSPEND_PHASE_PACKER then
    let st := resetSubTask st in (st, DrainPacker (ac_subTask st))
  else if phase =? SUSPEND_PHASE_LOGICAL_ZONES then
    let st := resetSubTask st in
    (st, DrainLogicalZones (vdo_adminState st) (ac_subTask st))
  else if phase =? SUSPEND_PHASE_BLOCK_MAP then
    let st := resetSubTask st in
    (st, DrainBlockMap (vdo_adminState st) (ac_subTask st))
  else if phase =? SUSPEND_PHASE_JOURNAL then
    let st := resetSubTask st in
    (st, DrainRecoveryJournal (vdo_adminState st) (ac_subTask st))
  else if phase =? SUSPEND_PHASE_DEPOT then
    let st := resetSubTask st in
    (st, DrainSlabDepot (vdo_adminState st) (ac_subTask st))
  else if phase =? SUSPEND_PHASE_WRITE_SUPER_BLOCK then
    if isSuspending (vdo_adminState st)
       || negb (ac_result st =? VDO_SUCCESS)
    then finish st
    else writeSuperBlock (resetSubTask st)
  else if phase =? SUSPEND_PHASE_END then finish st
  else
    let st :=
      mkSuspend (ac_type st) (ac_phase st) (ac_result st)
                (setCompletionResult (ac_subTask st) UDS_BAD_STATE)
                (vdo_state st) (vdo_closeRequired st) (vdo_adminState st) in
    finish st.

(** The sub-task as it was handed to an asynchronous operation, which
    will run [suspendCallback] again on the thread the sub-task names. *)
Definition handed_over (action : suspend_action) : option VDOCompletion :=
  match action with
  | WaitUntilNotEnteringReadOnlyMode c | DrainPacker c
  | DrainLogicalZones _ c | DrainBlockMap _ c | DrainRecoveryJournal _ c
  | DrainSlabDepot _ c | SaveVDOComponentsAsync _ c => Some c
  | Returned | FinishCompletion _ _ | FinishDrainingWithResult _ _ => None
  end.

End Suspend.

End VdoSuspend.

(** ** The small syslog client ([minisyslog.c]) *)

Module MiniSyslog.

(** Option bits and the default facility of [<syslog.h>], and the
    descriptor of the standard error stream. *)
Definition LOG_PID : Z := 1.
Definition LOG_CONS : Z := 2.
Definition LOG_NDELAY : Z := 8.
Definition LOG_PERROR : Z := 32.
Definition LOG_USER : Z := 8.
Definition STDERR_FILENO : Z := 2.

(** The calls made on the operating system. *)
Inductive syscall :=
| Socket
| Connect (fd : Z)
| Close (fd : Z)
| Write (fd : Z) (msg : list byte)
| Send (fd : Z) (msg : list byte)
| OpenConsole
| DuplicateString.

(** The operating system as the client sees it: the descriptors that are
    open, the answers it will give to the coming calls (a negative answer
    is a failure; with no answer left a call succeeds), and the calls made
    so far. *)
Record os := mkOS {
  fds : gset nat;
  script : list Z;
  trace : list syscall
}.

Definition next_answer (call : syscall) (o : os) : option Z * os :=
  match script o with
  | [] => (None, mkOS (fds o) [] (trace o ++ [call]))
  | a :: rest => (Some a, mkOS (fds o) rest (trace o ++ [call]))
  end.

Definition refused (answer : option Z) : bool :=
  match answer with
  | Some a => a <? 0
  | None => false
  end.

(** A call that opens a descriptor: -1, or a descriptor that was not
    open. *)
Definition open_descriptor (call : syscall) (o : os) : Z * os :=
  let (answer, o) := next_answer call o in
  if refused answer then (-1, o)
  else
    let fd := fresh (fds o) in
    (Z.of_nat fd, mkOS ({[fd]} ∪ fds o) (script o) (trace o)).

Definition socket (o : os) : Z * os := open_descriptor Socket o.

Definition open_console (o : os) : Z * os := open_descriptor OpenConsole o.

Definition connect (fd : Z) (o : os) : Z * os :=
  let (answer, o) := next_answer (Connect fd) o in
  (if refused answer then -1 else 0, o).

(** [close] releases the descriptor whatever it answers. *)
Definition close (fd : Z) (o : os) : Z * os :=
  let (answer, o) := next_answer (Close fd) o in
  (if refused answer then -1 else 0,
   mkOS (if fd <? 0 then fds o else fds o ∖ {[Z.to_nat fd]})
        (script o) (trace o)).

(** [write] and [send] answer the number of bytes they took, or -1. *)
Definition transfer (call : syscall) (bytes : Z) (o : os) : Z * os :=
  let (answer, o) := next_answer call o in
  (match answer with
   | Some a => if a <? 0 then -1 else Z.min a bytes
   | None => bytes
   end, o).

Definition write (fd : Z) (msg : list byte) (o : os) : Z * os :=
  transfer (Write fd msg) (Z.of_nat (length msg)) o.

Definition send (fd : Z) (msg : list byte) (o : os) : Z * os :=
  transfer (Send fd msg) (Z.of_nat (length msg)) o.

(** The static variables of [minisyslog.c]. *)
Record syslog := mkSyslog {
  log_socket : Z;
  log_ident : option (list byte);
  log_option : Z;
  default_facility : Z
}.

Definition initial : syslog := mkSyslog (-1) None 0 LOG_USER.

Definition set_log_socket (fd : Z) (st : syslog) : syslog :=
  mkSyslog fd (log_ident st) (log_option st) (default_facility st).

Definition close_locked (st : syslog) (o : os) : syslog * os :=
  if negb (log_socket st =? -1) then
    let (_, o) := close (log_socket st) o in
    (set_log_socket (-1) st, o)
  else (st, o).

Definition open_socket_locked (st : syslog) (o : os) : syslog * os :=
  if negb (log_socket st =? -1) then (st, o)
  else
    let (fd, o) := socket o in
    let st := set_log_socket fd st in
    if log_socket st <? 0 then (st, o)
    else
      let (connected, o) := connect (log_socket st) o in
      if negb (connected =? 0) then close_locked st o else (st, o).

(** The mutex is left out: the calls are taken one at a time. *)
Definition mini_openlog (ident : list byte) (option facility : Z)
    (st : syslog) (o : os) : syslog * os :=
  let (st, o) := close_locked st o in
  let (answer, o) := next_answer DuplicateString o in
  let st :=
    mkSyslog (log_socket st)
             (if refused answer then None else Some ident)
             option facility in
  if negb (Z.land (log_option st) LOG_NDELAY =? 0)
  then open_socket_locked st o
  else (st, o).

(** The result is [true] when the message did not go out whole. *)
Definition write_msg (fd : Z) (msg : list byte) (o : os) : bool * os :=
  let bytes_to_write := Z.of_nat (length msg) in
  let (bytes_written, o) := write fd msg o in
  if bytes_written =? bytes_to_write then
    let bytes_to_write := bytes_to_write + 1 in
    let (newline, o) := write fd [x0a] o in
    let bytes_written := bytes_written + newline in
    (negb (bytes_written =? bytes_to_write), o)
  else (negb (bytes_written =? bytes_to_write), o).

(** [log_it] once the text is laid out: [buffer] is the datagram and
    [stderr_msg] the part of it after the priority and the time stamp;
    [header_fits] is false when the test on the room left in the buffer
    makes the call return at once.  The last component of the result is
    the local [failure]. *)
Definition log_it (header_fits : bool) (stderr_msg buffer : list byte)
    (st : syslog) (o : os) : syslog * os * bool :=
  if negb header_fits then (st, o, false)
  else
    let failure := false in
    let (failure, o) :=
      if negb (Z.land (log_option st) LOG_PERROR =? 0) then
        let (failed, o) := write_msg STDERR_FILENO stderr_msg o in
        (failure || failed, o)
      else (failure, o) in
    let (st, o) := open_socket_locked st o in
    let failure := failure || (log_socket st =? -1) in
    let (failure, o) :=
      if negb (log_socket st =? -1) then
        let (bytes_written, o) := send (log_socket st) buffer o in
        (failure || negb (bytes_written =? Z.of_nat (length buffer)), o)
      else (failure, o) in
    if failure && negb (Z.land (log_option st) LOG_CONS =? 0) then
      let (console, o) := open_console o in
      let (failure, o) :=
        if console =? -1 then (true, o)
        else
          let (failed, o) := write_msg console stderr_msg o in
          (failure || failed, o) in
      if negb (console =? -1) then
        let (closed, o) := close console o in
        (st, o, failure || negb (closed =? 0))
      else (st, o, failure)
    else (st, o, failure).

Definition mini_closelog (st : syslog) (o : os) : syslog * os :=
  let (st, o) := close_locked st o in
  (mkSyslog (log_socket st) None 0 LOG_USER, o).

(** ** Vocabulary *)

(** The descriptors the client holds. *)
Definition owned (st : syslog) : gset nat :=
  if log_socket st <? 0 then ∅ else {[Z.to_nat (log_socket st)]}.

(** The socket variable is -1 or a descriptor, and a descriptor it names
    is open. *)
Definition well_kept (st : syslog) (o : os) : Prop :=
  (log_socket st = -1 \/ 0 <= log_socket st) /\ owned st ⊆ fds o.

(** The entry points of the client. *)
Inductive entry :=
| Openlog (ident : list byte) (option facility : Z)
| Log (header_fits : bool) (stderr_msg buffer : list byte)
| Closelog.

Definition enter (e : entry) (st : syslog) (o : os) : syslog * os :=
  match e with
  | Openlog ident option facility => mini_openlog ident option facility st o
  | Log header_fits stderr_msg buffer =>
      (log_it header_fits stderr_msg buffer st o).1
  | Closelog => mini_closelog st o
  end.

Fixpoint enter_all (es : list entry) (st : syslog) (o : os) : syslog * os :=
  match es with
  | [] => (st, o)
  | e :: rest => let (st, o) := enter e st o in enter_all rest st o
  end.

End MiniSyslog.

(** ** The options and the name column of [vdostats] *)

Module VdoStats.

(** The flags that [process_args] sets; all start out false. *)
Record flags := mkFlags {
  human_readable : bool;
  si : bool;
  verbose : bool
}.

Definition no_flags : flags := mkFlags false false false.

(** [process_args] over the values that [getopt_long] hands back before
    its closing -1.  The result is the flags, or the exit code of the
    process when an option makes it exit ([exit(0)] after the help or the
    version, [errx(1, ...)] from [usage]). *)
Fixpoint process_args (options : list Z) (f : flags) : flags + Z :=
  match options with
  | [] => inl f
  | c :: rest =>
      if c =? 104 (* 'h' *) then inr 0
      else if c =? 97 (* 'a' *) then
        process_args rest (mkFlags (human_readable f) (si f) true)
      else if c =? 114 (* 'r' *) then
        process_args rest (mkFlags true (si f) (verbose f))
      else if c =? 115 (* 's' *) then
        process_args rest (mkFlags true true (verbose f))
      else if c =? 118 (* 'v' *) then
        process_args rest (mkFlags (human_readable f) (si f) true)
      else if c =? 86 (* 'V' *) then inr 0
      else inr 1
  end.

(** The conversion of a [size_t] to [int]. *)
Definition int_of_size (z : Z) : Z := (z + 2 ^ 31) mod 2 ^ 32 - 2 ^ 31.

(** [calculateMaxDeviceName]: the second argument and the result are the
    static [maxDeviceNameLength] before and after the call. *)
Definition calculateMaxDeviceName (name : list byte)
    (maxDeviceNameLength : Z) : Z :=
  let name_length := int_of_size (Z.of_nat (length name)) in
  if name_length >? maxDeviceNameLength then name_length
  else maxDeviceNameLength.

(** The loops of [main] that size the name column, run over the names to
    be shown, from the initial width of 6. *)
Definition name_column (names : list (list byte)) : Z :=
  fold_left (fun width name => calculateMaxDeviceName name width) names 6.

End VdoStats.

(** ** A small device for running the model *)

Module Demo.

(** Sixteen blocks of [0xff] bytes, no scripted failures. *)
Definition layer : PhysicalLayer :=
  mkLayer 16 (fun _ => replicate 4096 xff) [] [].

(** The same device whose third call (the second sub-write of a clear)
    fails with code 5 after storing one block. *)
Definition faulty_layer : PhysicalLayer :=
  mkLayer 16 (fun _ => replicate 4096 xff)
          [io_ok; io_ok; IoOutcome 5 1] [].

Definition layout : vdo_layout :=
  mkLayout (fun id =>
    match id with
    | BLOCK_MAP_PARTITION => mkPartition 3 6
    | BLOCK_ALLOCATOR_PARTITION => mkPartition 9 2
    | RECOVERY_JOURNAL_PARTITION => mkPartition 11 4
    | SLAB_SUMMARY_PARTITION => mkPartition 15 1
    end).

Definition config : VDOConfig := mkVDOConfig 0 16 2 4 1.

Definition index : index_config := mkIndexConfig 1 0 false.

Definition tag_of_state (s : VDOState) : byte :=
  match s with
  | VDO_DIRTY => x00
  | VDO_NEW => x01
  | VDO_CLEAN => x02
  | VDO_READ_ONLY_MODE => x03
  | VDO_FORCE_REBUILD => x04
  | VDO_RECOVERING => x05
  | VDO_REPLAYING => x06
  | VDO_REBUILD_FOR_UPGRADE => x07
  end.

Definition state_of_tag (b : byte) : VDOState :=
  match b with
  | x01 => VDO_NEW
  | x02 => VDO_CLEAN
  | x03 => VDO_READ_ONLY_MODE
  | x04 => VDO_FORCE_REBUILD
  | x05 => VDO_RECOVERING
  | x06 => VDO_REPLAYING
  | x07 => VDO_REBUILD_FOR_UPGRADE
  | _ => VDO_DIRTY
  end.

(** Stand-ins for the base library: a one-block index region, so the
    super block sits at PBN 2 and the layout starts at PBN 3; the state
    byte of a super block is byte 20 and its checksum field bytes 4..7. *)
Definition base : BaseCode := {|
  VDO_BAD_MAGIC := 2049;
  VDO_NOT_READ_ONLY := 2050;
  VDO_CORRUPT := 2051;
  DEFAULT_BLOCK_MAP_TREE_ROOT_COUNT := 60;
  RECOVERY_JOURNAL_TAIL_BUFFER_SIZE := 64;
  SUPER_BLOCK_STATE_OFFSET := 20;
  SUPER_BLOCK_CHECKSUM_OFFSET := 4;
  state_tag := tag_of_state;
  register_status_codes := VDO_SUCCESS;
  validateVDOConfig := fun _ _ _ => VDO_SUCCESS;
  initialize_volume_geometry := fun nonce uuid indexConfig =>
    (VDO_SUCCESS, mkGeometry nonce uuid 1 2 indexConfig);
  encode_volume_geometry := fun _ =>
    (VDO_SUCCESS, MAGIC_NUMBER ++ replicate 4088 x00);
  decode_volume_geometry := fun _ =>
    (VDO_SUCCESS, mkGeometry 7 [] 1 2 index);
  makeVDO := fun _ =>
    (VDO_SUCCESS, mkVDO VDO_DIRTY config 0 0 layout None 0 0 []);
  make_vdo_layout := fun _ startingOffset _ _ _ =>
    (VDO_SUCCESS,
     mkLayout (fun id =>
       match id with
       | BLOCK_MAP_PARTITION => mkPartition startingOffset 6
       | BLOCK_ALLOCATOR_PARTITION => mkPartition (startingOffset + 6) 2
       | RECOVERY_JOURNAL_PARTITION => mkPartition (startingOffset + 8) 4
       | SLAB_SUMMARY_PARTITION => mkPartition (startingOffset + 12) 1
       end));
  get_slab_summary_size := fun _ => 1;
  make_recovery_journal := fun _ _ _ _ _ => VDO_SUCCESS;
  configure_slab := fun slabSize journal =>
    (VDO_SUCCESS, mkSlabConfig slabSize (slabSize - journal) 0 journal);
  make_slab_depot := fun size origin slabConfig nonce _ =>
    (VDO_SUCCESS, mkSlabDepot origin (origin + size) slabConfig nonce);
  calculate_slab_count := fun depot =>
    (depot_last_block depot - depot_first_block depot)
    / slabBlocks (depot_slab_config depot);
  compute_forest_size := fun _ _ => 0;
  make_block_map := fun _ _ _ _ => VDO_SUCCESS;
  make_super_block := fun _ => VDO_SUCCESS;
  encode_super_block := fun vdo =>
    (VDO_SUCCESS,
     replicate 20 x11 ++ [tag_of_state (v_state vdo)]
     ++ replicate 4075 x22);
  decode_super_block := fun _ => VDO_SUCCESS;
  validateVDOVersion := fun _ => VDO_SUCCESS;
  decode_vdo_component := fun block =>
    (VDO_SUCCESS,
     mkComponent (state_of_tag (nth 20 block x00)) 7 config 0 0)
|}.

(** The device after a format, and after it was then set read-only. *)
Definition formatted : PhysicalLayer :=
  (formatVDOWithNonce (BC := base) config index layer 7 []).2.

Definition read_only : PhysicalLayer :=
  (setVDOReadOnlyMode (BC := base) formatted).2.

(** A device whose ninth call, the super-block write of a format, fails. *)
Definition torn_layer : PhysicalLayer :=
  mkLayer 16 (fun _ => replicate 4096 xff)
          (replicate 8 io_ok ++ [IoOutcome 5 0]) [].

(** A process whose C library grants one allocation, at address 4096 with
    stale bytes in it, and refuses the next. *)
Definition process : MemoryLinuxUser.process :=
  MemoryLinuxUser.mkProcess
    ∅ ∅ 0
    [MemoryLinuxUser.AllocOk 4096 [x41; x42]; MemoryLinuxUser.AllocFail 12]
    [].

End Demo.

(** ** More data for running the model *)

Module DemoChecks.



(** A device that was never formatted: every block is zero. *)
Definition blank_layer : PhysicalLayer :=
  mkLayer 16 (fun _ => zero_block) [] [].

End DemoChecks.

Module DemoParse.

Import ParseUtils.

(** A stand-in for [strtoul] and [strtoull]: leading decimal digits, with
    the largest value and [ERANGE] when they pass 64 bits. *)
Fixpoint digits (s : list byte) (acc : Z) (n : nat) : Z * nat :=
  match s with
  | c :: rest =>
      let d := Z.of_N (Byte.to_N c) - 48 in
      if (0 <=? d) && (d <=? 9) then digits rest (10 * acc + d) (S n)
      else (acc, n)
  | [] => (acc, n)
  end.

Definition strtoull (arg : list byte) (base : Z) : strto_answer :=
  let (v, n) := digits arg 0 0 in
  if v <? 2 ^ 64 then StrTo v n 0 else StrTo (2 ^ 64 - 1) n ERANGE.

(** The strings "4k", "4", "40000000T" and "4kb". *)
Definition four_k : list byte := [x34; x6b].
Definition four : list byte := [x34].
Definition too_many_tera : list byte :=
  [x34; x30; x30; x30; x30; x30; x30; x30; x54].
Definition four_kb : list byte := [x34; x6b; x62].

End DemoParse.

Module DemoMemory.

Import MemoryLinuxUser.

(** A process that holds the two bytes "ab" at address 8192, and whose C
    library grants one more request, at address 12288 with stale bytes in
    it, and refuses the next. *)
Definition process : MemoryLinuxUser.process :=
  mkProcess (<[8192 := [x61; x62]]> ∅) ∅ 0
            [AllocOk 12288 [x7a; x7a; x7a; x7a; x7a; x7a];
             AllocFail 12]
            [].

End DemoMemory.

Module DemoSuspend.

Import VdoSuspend.

(** Stand-ins for the admin state and the completions: the admin state
    only remembers whether the drain under way is a plain suspend; the
    packer runs on thread 1, the journal on thread 2, the admin work on
    thread 0. *)
Definition startDraining (adminState : bool) (operation : drain_operation)
  : bool * bool :=
  (true,
   match operation with
   | ADMIN_STATE_SUSPENDING => true
   | ADMIN_STATE_SAVING => false
   end).

Definition isSuspending (adminState : bool) : bool := adminState.

Definition resetCompletion (completion : VDOCompletion) : VDOCompletion :=
  mkCompletion VDO_SUCCESS (callbackThreadID completion).

Definition setCompletionResult (completion : VDOCompletion) (code : Z)
  : VDOCompletion :=
  if result completion =? VDO_SUCCESS
  then mkCompletion code (callbackThreadID completion)
  else completion.

Definition callback (st : suspend_state bool)
  : suspend_state bool * suspend_action bool :=
  suspendCallback bool startDraining isSuspending resetCompletion
                  setCompletionResult 1027 1 2 0 st.

(** A VDO in state [state] on which the operation [type] starts. *)
Definition start (type : AdminOperationType) (state : VDOState)
  : suspend_state bool :=
  mkSuspend bool type SUSPEND_PHASE_START VDO_SUCCESS (mkCompletion 0 0)
            state true false.

(** The calls [suspendCallback] ends in when every asynchronous
    operation completes and calls it again. *)
Fixpoint drive (calls : nat) (st : suspend_state bool)
  : list (suspend_action bool) :=
  match calls with
  | O => []
  | S calls' =>
      let (st', action) := callback st in
      action :: match handed_over bool action with
                | Some _ => drive calls' st'
                | None => []
                end
  end.

End DemoSuspend.

(** * Proofs *)

(** ** Status codes *)

Lemma failed_false (r : Z) : failed r = false <-> r = VDO_SUCCESS.
Proof.
  unfold failed, VDO_SUCCESS, UDS_SUCCESS.
  destruct (Z.eqb_spec r 0); simpl; split; intros; congruence.
Qed.

Lemma failed_true (r : Z) : failed r = true <-> r <> VDO_SUCCESS.
Proof.
  unfold failed, VDO_SUCCESS, UDS_SUCCESS.
  destruct (Z.eqb_spec r 0); simpl; split; intros; congruence.
Qed.

(** ** Facts about the layer *)

Section LayerFacts.

Lemma Z_to_nat_block : Z.to_nat VDO_BLOCK_SIZE = 4096%nat.
Proof. reflexivity. Qed.

Lemma length_zeros (n : Z) : length (zeros n) = Z.to_nat n.
Proof. unfold zeros. apply length_replicate. Qed.

(** Every block cut out of a zeroed buffer is the zero block. *)
Lemma block_of_buffer_zeros (c i : Z) :
  0 <= i < c -> block_of_buffer (zeros (c * VDO_BLOCK_SIZE)) i = zero_block.
Proof.
  intros Hi. unfold block_of_buffer, zero_block, zeros.
  rewrite drop_replicate, take_replicate. f_equal.
  unfold VDO_BLOCK_SIZE in *. lia.
Qed.

Lemma next_outcome_blocks (l : PhysicalLayer) :
  blocks (next_outcome l).2 = blocks l
  /\ writes (next_outcome l).2 = writes l
  /\ blockCount (next_outcome l).2 = blockCount l.
Proof. unfold next_outcome. destruct (outcomes l); simpl; auto. Qed.

Lemma next_outcome_script (l : PhysicalLayer) :
  (next_outcome l).1 = default io_ok (outcomes l !! 0%nat)
  /\ outcomes (next_outcome l).2 = drop 1 (outcomes l).
Proof.
  unfold next_outcome. destruct (outcomes l) eqn:E; simpl; rewrite ?E;
    split; reflexivity.
Qed.

Lemma writer_writes (l : PhysicalLayer) (pbn n : Z) (buf : list byte) :
  writes (writer l pbn n buf).2 = writes l ++ [Extent pbn n buf].
Proof.
  unfold writer. destruct (next_outcome l) as [o l1] eqn:E. simpl.
  pose proof (next_outcome_blocks l) as H. rewrite E in H. simpl in H.
  destruct H as (_ & -> & _). reflexivity.
Qed.

Lemma writer_result (l : PhysicalLayer) (pbn n : Z) (buf : list byte) :
  (writer l pbn n buf).1 = io_result (default io_ok (outcomes l !! 0%nat))
  /\ outcomes (writer l pbn n buf).2 = drop 1 (outcomes l)
  /\ blockCount (writer l pbn n buf).2 = blockCount l.
Proof.
  unfold writer. destruct (next_outcome l) as [o l1] eqn:E. simpl.
  pose proof (next_outcome_script l) as H. rewrite E in H. simpl in H.
  pose proof (next_outcome_blocks l) as H'. rewrite E in H'. simpl in H'.
  destruct H as [-> ->]. destruct H' as (_ & _ & ->). auto.
Qed.

(** A [writer] call, failing or not, leaves every block outside the
    addressed extent as it was. *)
Lemma writer_frame (l : PhysicalLayer) (pbn n : Z) (buf : list byte) (b : Z) :
  ~ (pbn <= b < pbn + n) ->
  blocks (writer l pbn n buf).2 b = blocks l b.
Proof.
  intros Hb. unfold writer. destruct (next_outcome l) as [o l1] eqn:E. simpl.
  pose proof (next_outcome_blocks l) as H. rewrite E in H. simpl in H.
  destruct H as (-> & _). unfold store_blocks.
  destruct (Z.leb_spec pbn b); simpl; [|reflexivity].
  destruct (Z.ltb_spec b (pbn + (if failed (io_result o)
              then Z.min (Z.max 0 (io_torn o)) n else n))); [|reflexivity].
  destruct (failed (io_result o)); lia.
Qed.

(** A successful [writer] call stores the whole extent. *)
Lemma writer_stores (l : PhysicalLayer) (pbn n : Z) (buf : list byte) (b : Z) :
  (writer l pbn n buf).1 = VDO_SUCCESS ->
  pbn <= b < pbn + n ->
  blocks (writer l pbn n buf).2 b = block_of_buffer buf (b - pbn).
Proof.
  unfold writer. destruct (next_outcome l) as [o l1] eqn:E. simpl.
  intros Hr Hb. apply failed_false in Hr. rewrite Hr. unfold store_blocks.
  destruct (Z.leb_spec pbn b); [|lia].
  destruct (Z.ltb_spec b (pbn + n)); [|lia]. reflexivity.
Qed.

(** Whatever part of a zeroed extent reaches the device, the blocks of
    the extent that held zeros before still hold zeros. *)
Lemma writer_zeros_kept (l : PhysicalLayer) (pbn c : Z) (b : Z) :
  blocks l b = zero_block ->
  blocks (writer l pbn c (zeros (c * VDO_BLOCK_SIZE))).2 b = zero_block.
Proof.
  intros Hz. unfold writer. destruct (next_outcome l) as [o l1] eqn:E. simpl.
  pose proof (next_outcome_blocks l) as H. rewrite E in H. simpl in H.
  destruct H as (Hb & _). unfold store_blocks.
  match goal with |- (if ?g then _ else _) = _ => destruct g eqn:G end;
    [|congruence].
  apply andb_true_iff in G. destruct G as [G1 G2].
  apply Z.leb_le in G1. apply Z.ltb_lt in G2.
  apply block_of_buffer_zeros. destruct (failed (io_result o)); lia.
Qed.

End LayerFacts.

(** ** The chunk size chosen by [clearPartition] *)

Section ChunkSize.

Lemma land_1_mod (n : Z) : Z.land n 1 = n mod 2.
Proof.
  pose proof (Z.land_ones n 1 ltac:(lia)) as H.
  change (Z.ones 1) with 1 in H. change (2 ^ 1) with 2 in H. exact H.
Qed.

Lemma pow2_small (j : Z) : 0 <= j <= 12 -> 0 < 2 ^ j <= 4096.
Proof.
  intros Hj. split; [apply Z.pow_pos_nonneg; lia|].
  change 4096 with (2 ^ 12). apply Z.pow_le_mono_r; lia.
Qed.

Lemma bufferBlocks_loop_spec (fuel : nat) :
  forall j n : Z,
    0 <= j -> j + Z.of_nat fuel = 12 -> 0 <= n ->
    exists k : Z,
      j <= k <= 12
      /\ bufferBlocks_loop fuel (2 ^ j) n = 2 ^ k
      /\ n mod 2 ^ (k - j) = 0
      /\ (k = 12 \/ (n / 2 ^ (k - j)) mod 2 = 1).
Proof.
  induction fuel as [|fuel IH]; intros j n Hj Hf Hn.
  - exists j. simpl. rewrite Z.sub_diag. simpl.
    repeat split; try lia. apply Z.mod_1_r.
  - cbn [bufferBlocks_loop].
    pose proof (pow2_small j ltac:(lia)) as Hp.
    assert (2 ^ j < 4096) as Hlt.
    { change 4096 with (2 ^ 12). apply Z.pow_lt_mono_r; lia. }
    destruct (Z.ltb_spec (2 ^ j) 4096) as [_|]; [|lia].
    rewrite land_1_mod. simpl andb.
    destruct (Z.eqb_spec (n mod 2) 0) as [Hev|Hodd].
    + rewrite Z.shiftl_mul_pow2, Z.shiftr_div_pow2 by lia.
      rewrite <- Z.pow_add_r by lia.
      pose proof (pow2_small (j + 1) ltac:(lia)) as Hp'.
      unfold u64. rewrite Z.mod_small by lia.
      change (2 ^ 1) with 2.
      destruct (IH (j + 1) (n / 2)) as (k & Hk & Hr & Hd & Hmax);
        [lia|lia|apply Z.div_pos; lia|].
      exists k. split; [lia|]. split; [exact Hr|].
      assert (2 ^ (k - j) = 2 * 2 ^ (k - (j + 1))) as Hpow.
      { replace (k - j) with (1 + (k - (j + 1))) by lia.
        rewrite Z.pow_add_r by lia. reflexivity. }
      assert (0 < 2 ^ (k - (j + 1))) as Hpos
        by (apply Z.pow_pos_nonneg; lia).
      rewrite Hpow. split.
      * apply Z.mod_divide in Hd; [|lia]. destruct Hd as [q Hq].
        apply Z.mod_divide; [lia|]. exists q.
        pose proof (Z.div_mod n 2 ltac:(lia)). lia.
      * destruct Hmax as [->|Hmax]; [left; reflexivity|right].
        rewrite <- Z.div_div by lia. exact Hmax.
    + exists j. rewrite Z.sub_diag. change (2 ^ 0) with 1.
      rewrite Z.div_1_r, Z.mod_1_r. repeat split; try lia. right.
      pose proof (Z.mod_pos_bound n 2 ltac:(lia)). lia.
Qed.

(** Twelve rounds reach the exit test of the loop: more fuel gives the same
    chunk. *)
Lemma bufferBlocks_loop_fuel (fuel : nat) :
  forall (j n : Z) (extra : nat),
    0 <= j -> j + Z.of_nat fuel = 12 ->
    bufferBlocks_loop (fuel + extra) (2 ^ j) n
    = bufferBlocks_loop fuel (2 ^ j) n.
Proof.
  induction fuel as [|fuel IH]; intros j n extra Hj Hf.
  - assert (j = 12) as -> by lia.
    destruct extra as [|extra]; [reflexivity|]. reflexivity.
  - cbn [Nat.add bufferBlocks_loop].
    destruct ((2 ^ j <? 4096) && (Z.land n 1 =? 0)); [|reflexivity].
    pose proof (pow2_small (j + 1) ltac:(lia)) as Hp.
    rewrite Z.shiftl_mul_pow2 by lia.
    rewrite <- Z.pow_add_r by lia.
    unfold u64. rewrite Z.mod_small by lia.
    apply IH; lia.
Qed.

Lemma bufferBlocks_of_fuel (size : Z) (extra : nat) :
  bufferBlocks_loop (12 + extra) 1 size = bufferBlocks_of size.
Proof. apply (bufferBlocks_loop_fuel 12 0 size extra); lia. Qed.

(** The chunk is the largest power of two that divides the partition size,
    capped at 4096 blocks. *)
Lemma bufferBlocks_of_spec (size : Z) :
  0 <= size ->
  exists k : Z,
    0 <= k <= 12
    /\ bufferBlocks_of size = 2 ^ k
    /\ (2 ^ k | size)
    /\ forall m : Z, 0 <= m <= 12 -> (2 ^ m | size) -> 2 ^ m <= 2 ^ k.
Proof.
  intros Hs. unfold bufferBlocks_of.
  destruct (bufferBlocks_loop_spec 12 0 size) as (k & Hk & Hr & Hd & Hmax);
    [lia|reflexivity|lia|].
  rewrite Z.sub_0_r in *. change (2 ^ 0) with 1 in Hr.
  exists k. split; [lia|]. split; [exact Hr|].
  assert (0 < 2 ^ k) as Hpos by (apply Z.pow_pos_nonneg; lia).
  split; [apply Z.mod_divide; [lia|exact Hd]|].
  intros m Hm Hdiv. apply Z.pow_le_mono_r; [lia|].
  destruct Hmax as [->|Hodd]; [lia|].
  destruct (Z.le_gt_cases m k) as [|Hgt]; [assumption|exfalso].
  destruct Hdiv as [q Hq].
  assert (2 ^ m = 2 ^ k * (2 * 2 ^ (m - k - 1))) as Hsplit.
  { rewrite <- (Z.pow_succ_r 2 (m - k - 1)) by lia.
    rewrite <- Z.pow_add_r by lia. f_equal. lia. }
  assert (size / 2 ^ k = 2 * (2 ^ (m - k - 1) * q)) as Hquot.
  { rewrite Hq, Hsplit.
    replace (q * (2 ^ k * (2 * 2 ^ (m - k - 1))))
      with ((2 * (2 ^ (m - k - 1) * q)) * 2 ^ k) by lia.
    apply Z.div_mul. lia. }
  rewrite Hquot in Hodd.
  rewrite Z.mul_comm, Z.mod_mul in Hodd by lia. lia.
Qed.

Lemma bufferBlocks_of_range (size : Z) :
  0 <= size -> 0 < bufferBlocks_of size <= 4096.
Proof.
  intros Hs. destruct (bufferBlocks_of_spec size Hs) as (k & Hk & -> & _).
  apply pow2_small. exact Hk.
Qed.

End ChunkSize.

(** ** The write loop of [clearPartition] *)

Section WriteLoop.

Variable c : Z.
Hypothesis c_pos : 0 < c.

Lemma clear_loop_stops (fuel : nat) (l : PhysicalLayer) (pbn limit r : Z)
    (buf : list byte) :
  (pbn <? limit) && (r =? VDO_SUCCESS) = false ->
  clear_loop fuel l pbn limit c buf r = Some (r, l).
Proof. intros H. destruct fuel; simpl; rewrite H; reflexivity. Qed.

Lemma clear_loop_chunks (m : nat) :
  forall (fuel : nat) (l : PhysicalLayer) (pbn : Z),
    (m <= fuel)%nat -> 0 <= pbn -> pbn + Z.of_nat m * c < 2 ^ 64 ->
    clear_loop fuel l pbn (pbn + Z.of_nat m * c) c
               (zeros (c * VDO_BLOCK_SIZE)) VDO_SUCCESS
    = Some (write_chunks m l pbn c).
Proof.
  induction m as [|m IH]; intros fuel l pbn Hfuel Hpbn Hlim.
  - apply clear_loop_stops. simpl. rewrite Z.add_0_r, Z.ltb_irrefl.
    reflexivity.
  - destruct fuel as [|fuel]; [lia|].
    cbn [clear_loop write_chunks].
    assert (pbn < pbn + Z.of_nat (S m) * c) as Hlt by nia.
    apply Z.ltb_lt in Hlt. rewrite Hlt. simpl andb.
    change (VDO_SUCCESS =? VDO_SUCCESS) with true. cbv iota.
    destruct (writer l pbn c (zeros (c * VDO_BLOCK_SIZE))) as [r l'] eqn:W.
    destruct (failed r) eqn:F.
    + apply clear_loop_stops. unfold failed in F.
      apply negb_true_iff in F. rewrite F. apply andb_false_r.
    + apply failed_false in F. subst r.
      assert (u64 (pbn + c) = pbn + c) as ->.
      { unfold u64. apply Z.mod_small. nia. }
      replace (pbn + Z.of_nat (S m) * c) with (pbn + c + Z.of_nat m * c)
        by lia.
      apply IH; [lia|lia|lia].
Qed.

Lemma chunk_write_shift (pbn : Z) (n : nat) :
  map (chunk_write pbn c) (seq 1 n) = map (chunk_write (pbn + c) c) (seq 0 n).
Proof.
  rewrite <- seq_shift, map_map. apply map_ext. intros i.
  unfold chunk_write. f_equal. lia.
Qed.

(** What the unrolled loop does: it issues the chunk writes in order and
    stops after the first one that fails. *)
Lemma write_chunks_spec (m : nat) :
  forall (l : PhysicalLayer) (pbn r : Z) (l' : PhysicalLayer),
    write_chunks m l pbn c = (r, l') ->
    exists n : nat,
      (n <= m)%nat
      /\ writes l' = writes l ++ map (chunk_write pbn c) (seq 0 n)
      /\ blockCount l' = blockCount l
      /\ outcomes l' = drop n (outcomes l)
      /\ (forall b, ~ (pbn <= b < pbn + Z.of_nat n * c) ->
                    blocks l' b = blocks l b)
      /\ (forall b, blocks l b = zero_block -> blocks l' b = zero_block)
      /\ (r = VDO_SUCCESS ->
          n = m
          /\ (forall i, (i < m)%nat -> scripted_result l i = VDO_SUCCESS)
          /\ forall b, pbn <= b < pbn + Z.of_nat m * c ->
                       blocks l' b = zero_block)
      /\ (r <> VDO_SUCCESS ->
          exists n' : nat,
            n = S n'
            /\ scripted_result l n' = r
            /\ (forall i, (i < n')%nat -> scripted_result l i = VDO_SUCCESS)
            /\ forall b, pbn <= b < pbn + Z.of_nat n' * c ->
                         blocks l' b = zero_block).
Proof.
  induction m as [|m IH]; intros l pbn r l' Hrun.
  - simpl in Hrun. inversion Hrun; subst. exists 0%nat. simpl.
    rewrite app_nil_r, drop_0. repeat split; auto; try lia; congruence.
  - cbn [write_chunks] in Hrun.
    pose proof (writer_writes l pbn c (zeros (c * VDO_BLOCK_SIZE))) as Hw.
    pose proof (writer_result l pbn c (zeros (c * VDO_BLOCK_SIZE)))
      as (Hres & Hout & Hcnt).
    pose proof (writer_frame l pbn c (zeros (c * VDO_BLOCK_SIZE))) as Hfr.
    pose proof (writer_stores l pbn c (zeros (c * VDO_BLOCK_SIZE))) as Hst.
    pose proof (fun b => writer_zeros_kept l pbn c b) as Hkeep.
    destruct (writer l pbn c (zeros (c * VDO_BLOCK_SIZE))) as [r1 l1].
    simpl in Hw, Hres, Hout, Hcnt, Hfr, Hst, Hkeep.
    destruct (failed r1) eqn:F.
    + inversion Hrun; subst r1 l1. apply failed_true in F.
      exists 1%nat. simpl. unfold chunk_write at 1. simpl.
      rewrite Z.add_0_r. repeat split; auto; try lia.
      * intros b Hb. apply Hfr. lia.
      * intros _. exists 0%nat. repeat split; auto; try lia.
    + apply failed_false in F. subst r1.
      destruct (IH l1 (pbn + c) r l' Hrun)
        as (n & Hn & Hws & Hbc & Hos & Hframe & Hzk & Hok & Herr).
      assert (forall b, pbn <= b < pbn + c -> blocks l1 b = zero_block)
        as Hfirst.
      { intros b Hb. rewrite Hst by (auto; lia).
        apply block_of_buffer_zeros. lia. }
      exists (S n). split; [lia|]. split.
      { rewrite Hws, Hw, <- app_assoc. f_equal.
        cbn [seq map]. rewrite chunk_write_shift.
        unfold chunk_write at 2. cbn [Z.of_nat Z.mul app].
        rewrite Z.add_0_r. reflexivity. }
      split; [congruence|]. split.
      { rewrite Hos, Hout, drop_drop. reflexivity. }
      split.
      { intros b Hb. rewrite Hframe by nia. apply Hfr. nia. }
      assert (forall i, scripted_result l1 i = scripted_result l (S i))
        as Hshift.
      { intros i. unfold scripted_result. rewrite Hout, lookup_drop.
        reflexivity. }
      split; [auto|]. split.
      { intros Hr. destruct (Hok Hr) as (-> & Hall & Hz).
        split; [reflexivity|]. split.
        { intros [|i] Hi; [symmetry; exact Hres|]. rewrite <- Hshift.
          apply Hall. lia. }
        intros b Hb. destruct (Z.lt_ge_cases b (pbn + c)).
        - apply Hzk, Hfirst. lia.
        - apply Hz. lia. }
      intros Hr. destruct (Herr Hr) as (n' & -> & Hcode & Hprev & Hz).
      exists (S n'). split; [reflexivity|].
      split; [rewrite <- Hshift; exact Hcode|]. split.
      { intros [|i] Hi; [symmetry; exact Hres|]. rewrite <- Hshift. apply Hprev. lia. }
      intros b Hb. destruct (Z.lt_ge_cases b (pbn + c)).
      * apply Hzk, Hfirst. lia.
      * apply Hz. lia.
Qed.

Lemma covers_first_chunk (pbn b : Z) :
  covers b (chunk_write pbn c 0) = (pbn <=? b) && (b <? pbn + c).
Proof.
  unfold covers, chunk_write. cbn [ext_start ext_count Z.of_nat Z.mul].
  rewrite Z.add_0_r. reflexivity.
Qed.

(** While all chunks are written, every block of the range is addressed by
    exactly one of them. *)
Lemma chunk_writes_before (n : nat) :
  forall pbn b : Z, b < pbn ->
    times_written b (map (chunk_write pbn c) (seq 0 n)) = 0%nat.
Proof.
  induction n as [|n IH]; intros pbn b Hb; [reflexivity|].
  cbn [seq map]. rewrite chunk_write_shift. unfold times_written in *.
  cbn [List.filter]. rewrite covers_first_chunk.
  destruct (Z.leb_spec pbn b); [lia|]. cbn [andb]. apply IH. lia.
Qed.

Lemma chunk_writes_once (n : nat) :
  forall pbn b : Z, pbn <= b < pbn + Z.of_nat n * c ->
    times_written b (map (chunk_write pbn c) (seq 0 n)) = 1%nat.
Proof.
  induction n as [|n IH]; intros pbn b Hb; [simpl in Hb; lia|].
  cbn [seq map]. rewrite chunk_write_shift.
  unfold times_written. cbn [List.filter]. rewrite covers_first_chunk.
  destruct (Z.leb_spec pbn b); [|lia]. cbn [andb].
  destruct (Z.ltb_spec b (pbn + c)).
  - cbn [length]. f_equal. apply chunk_writes_before. lia.
  - apply IH. lia.
Qed.

End WriteLoop.

(** ** [clearPartition] as a whole *)

Section ClearPartition.

Lemma u64_range (z : Z) : 0 <= u64 z < 2 ^ 64.
Proof. unfold u64. apply Z.mod_pos_bound. lia. Qed.

Lemma allocateIOBuffer_spec (l : PhysicalLayer) (bytes : Z) :
  forall res buf l1,
    allocateIOBuffer l bytes = (res, buf, l1) ->
    res = scripted_result l 0
    /\ (res = VDO_SUCCESS -> buf = zeros bytes)
    /\ blocks l1 = blocks l
    /\ writes l1 = writes l
    /\ outcomes l1 = drop 1 (outcomes l)
    /\ blockCount l1 = blockCount l.
Proof.
  intros res buf l1. unfold allocateIOBuffer, scripted_result.
  pose proof (next_outcome_blocks l) as (Hb & Hw & Hc).
  pose proof (next_outcome_script l) as (Ho & Hs).
  destruct (next_outcome l) as [o l0]. simpl in *. subst o.
  destruct (failed _) eqn:F; intros H; inversion H; subst.
  - apply failed_true in F. repeat split; auto. congruence.
  - apply failed_false in F. repeat split; auto.
Qed.

(** The chunk divides the size, so the loop bound is hit exactly. *)
Lemma chunks_cover (size : Z) :
  0 <= size ->
  Z.of_nat (Z.to_nat (size / bufferBlocks_of size)) * bufferBlocks_of size
  = size.
Proof.
  intros Hs. pose proof (bufferBlocks_of_range size Hs) as Hc.
  destruct (bufferBlocks_of_spec size Hs) as (k & _ & Hk & Hd & _).
  rewrite <- Hk in Hd. rewrite Z2Nat.id by (apply Z.div_pos; lia).
  destruct Hd as [q Hq]. rewrite Hq at 1. rewrite Z.div_mul by lia. lia.
Qed.

(** The fuel handed to the write loop is enough, and the loop is the
    unrolled sequence of chunk writes. *)
Lemma clearPartition_run (l : PhysicalLayer) (layout : vdo_layout)
    (id : PartitionID) :
  let size := get_fixed_layout_partition_size (get_vdo_partition layout id) in
  let start :=
    get_fixed_layout_partition_offset (get_vdo_partition layout id) in
  let c := bufferBlocks_of size in
  clearPartition_fuel (Z.to_nat size) l layout id
  = Some (clearPartition l layout id)
  /\ clearPartition l layout id
     = let '(res, _, l1) := allocateIOBuffer l (c * VDO_BLOCK_SIZE) in
       if failed res then (res, l1)
       else if start + size <? 2 ^ 64
            then write_chunks (Z.to_nat (size / c)) l1 start c
            else (VDO_SUCCESS, l1).
Proof.
  intros size start c.
  assert (0 <= size < 2 ^ 64) as Hsize by apply u64_range.
  assert (0 <= start < 2 ^ 64) as Hstart by apply u64_range.
  pose proof (bufferBlocks_of_range size ltac:(lia)) as Hc. fold c in Hc.
  assert (clearPartition_fuel (Z.to_nat size) l layout id
          = Some (let '(res, _, l1) :=
                    allocateIOBuffer l (c * VDO_BLOCK_SIZE) in
                  if failed res then (res, l1)
                  else if start + size <? 2 ^ 64
                       then write_chunks (Z.to_nat (size / c)) l1 start c
                       else (VDO_SUCCESS, l1))) as Hrun.
  { unfold clearPartition_fuel. fold size start c.
    assert (u64 (c * VDO_BLOCK_SIZE) = c * VDO_BLOCK_SIZE) as ->.
    { unfold u64, VDO_BLOCK_SIZE. apply Z.mod_small. lia. }
    pose proof (allocateIOBuffer_spec l (c * VDO_BLOCK_SIZE)) as Ha.
    destruct (allocateIOBuffer l (c * VDO_BLOCK_SIZE)) as [[res buf] l1].
    destruct (Ha res buf l1 eq_refl) as (_ & Hbuf & _).
    destruct (failed res) eqn:F; [reflexivity|].
    apply failed_false in F. rewrite (Hbuf F). subst res.
    destruct (Z.ltb_spec (start + size) (2 ^ 64)) as [Hfit|Hwrap].
    - assert (u64 (start + size) = start + size) as ->.
      { unfold u64. apply Z.mod_small. lia. }
      pose proof (chunks_cover size ltac:(lia)) as Hcov. fold c in Hcov.
      rewrite <- Hcov at 2. apply clear_loop_chunks; try lia.
      apply Z2Nat.inj_le; try lia.
      + apply Z.div_pos; lia.
      + apply Z.div_le_upper_bound; nia.
    - apply clear_loop_stops.
      assert (u64 (start + size) = start + size - 2 ^ 64) as ->.
      { unfold u64. symmetry. apply (Z.mod_unique _ _ 1); lia. }
      destruct (Z.ltb_spec start (start + size - 2 ^ 64)); [lia|].
      reflexivity. }
  split; [|unfold clearPartition; fold size; rewrite Hrun; reflexivity].
  unfold clearPartition. fold size. rewrite Hrun. reflexivity.
Qed.

(** Everything a caller can observe of one [clearPartition] call.  The
    allocation is the first call made to the layer and the [i]-th sub-write
    the one after [i] others, so the [n] sub-writes issued are calls
    [1..n] of the script. *)
Lemma clearPartition_effect (l : PhysicalLayer) (layout : vdo_layout)
    (id : PartitionID) :
  let size := get_fixed_layout_partition_size (get_vdo_partition layout id) in
  let start :=
    get_fixed_layout_partition_offset (get_vdo_partition layout id) in
  let c := bufferBlocks_of size in
  let r := (clearPartition l layout id).1 in
  let l' := (clearPartition l layout id).2 in
  exists n : nat,
    Z.of_nat n * c <= size
    /\ (n <= clear_count layout id)%nat
    /\ (r = VDO_SUCCESS -> n = clear_count layout id)
    /\ writes l' = writes l ++ map (chunk_write start c) (seq 0 n)
    /\ blockCount l' = blockCount l
    /\ outcomes l' = drop (S n) (outcomes l)
    /\ (forall b, ~ (start <= b < start + Z.of_nat n * c) ->
                  blocks l' b = blocks l b)
    /\ (forall b, blocks l b = zero_block -> blocks l' b = zero_block)
    /\ (r = VDO_SUCCESS ->
        (forall i, (i <= n)%nat -> scripted_result l i = VDO_SUCCESS)
        /\ (start + size < 2 ^ 64 ->
            Z.of_nat n * c = size
            /\ forall b, start <= b < start + size ->
                         blocks l' b = zero_block))
    /\ (r <> VDO_SUCCESS ->
        scripted_result l n = r
        /\ (forall i, (i < n)%nat -> scripted_result l i = VDO_SUCCESS)
        /\ forall b, start <= b < start + (Z.of_nat n - 1) * c ->
                     blocks l' b = zero_block).
Proof.
  intros size start c r l'.
  destruct (clearPartition_run l layout id) as [_ Hrun].
  fold size start c in Hrun. subst r l'. rewrite Hrun. clear Hrun.
  assert (0 <= size < 2 ^ 64) as Hsize by apply u64_range.
  pose proof (bufferBlocks_of_range size ltac:(lia)) as Hc. fold c in Hc.
  pose proof (chunks_cover size ltac:(lia)) as Hcov. fold c in Hcov.
  pose proof (allocateIOBuffer_spec l (c * VDO_BLOCK_SIZE)) as Ha.
  destruct (allocateIOBuffer l (c * VDO_BLOCK_SIZE)) as [[res buf] l1].
  destruct (Ha res buf l1 eq_refl) as (Hres & _ & Hb1 & Hw1 & Ho1 & Hc1).
  assert (forall i, scripted_result l1 i = scripted_result l (S i)) as Hshift.
  { intros i. unfold scripted_result. rewrite Ho1, lookup_drop. reflexivity. }
  destruct (failed res) eqn:F.
  - apply failed_true in F. exists 0%nat. cbn [fst snd seq map].
    rewrite app_nil_r. repeat split; auto; try lia; try congruence.
  - apply failed_false in F. unfold clear_count. fold size start c.
    destruct (Z.ltb_spec (start + size) (2 ^ 64)) as [Hfit|Hwrap].
    + destruct (write_chunks (Z.to_nat (size / c)) l1 start c)
        as [r l'] eqn:Hrun.
      destruct (write_chunks_spec c ltac:(lia) _ _ _ _ _ Hrun)
        as (n & Hn & Hws & Hbc & Hos & Hframe & Hzk & Hok & Herr).
      exists n. cbn [fst snd].
      split; [nia|]. split; [exact Hn|].
      split; [intros Hr; apply (Hok Hr)|].
      split; [congruence|]. split; [congruence|]. split.
      { rewrite Hos, Ho1, drop_drop. reflexivity. }
      split; [intros b Hb; rewrite Hframe by exact Hb; congruence|].
      split; [intros b Hb; apply Hzk; congruence|]. split.
      * intros Hr. destruct (Hok Hr) as (-> & Hall & Hz). split.
        { intros [|i] Hi; [congruence|]. rewrite <- Hshift.
          apply Hall. lia. }
        intros _. split; [exact Hcov|]. intros b Hb. apply Hz. lia.
      * intros Hr. destruct (Herr Hr) as (n' & -> & Hcode & Hprev & Hz).
        split; [rewrite <- Hshift; exact Hcode|]. split.
        { intros [|i] Hi; [congruence|]. rewrite <- Hshift.
          apply Hprev. lia. }
        intros b Hb. apply Hz. lia.
    + exists 0%nat. cbn [fst snd seq map]. rewrite app_nil_r.
      repeat split; auto; try lia; try congruence.
      intros [|i] Hi; [congruence|lia].
Qed.

End ClearPartition.

(** ** [clearPartition]: what it writes, and where *)

Example bufferBlocks_of_6 : bufferBlocks_of 6 = 2.
Proof. reflexivity. Qed.

Example bufferBlocks_of_12288 : bufferBlocks_of 12288 = 4096.
Proof. reflexivity. Qed.

Example bufferBlocks_of_7 : bufferBlocks_of 7 = 1.
Proof. reflexivity. Qed.

Example clearPartition_demo_writes :
  map (fun e => (ext_start e, ext_count e))
      (writes (clearPartition Demo.layer Demo.layout BLOCK_MAP_PARTITION).2)
  = [(3, 2); (5, 2); (7, 2)].
Proof. vm_compute. reflexivity. Qed.

Example clearPartition_faulty_writes :
  (clearPartition Demo.faulty_layer Demo.layout BLOCK_MAP_PARTITION).1 = 5
  /\ map (fun e => (ext_start e, ext_count e))
         (writes
            (clearPartition Demo.faulty_layer Demo.layout
                            BLOCK_MAP_PARTITION).2)
     = [(3, 2); (5, 2)].
Proof. vm_compute. split; reflexivity. Qed.

(** C3: for a partition of positive size that ends inside the 64-bit block
    range, the chunk used by [clearPartition] is the largest power of two
    that divides the size, capped at 4096; the write loop ends with the fuel
    it is given; when the call succeeds, the sub-writes are exactly the
    zero-filled chunks that tile the partition, so every block is written
    once and holds zeros afterwards; when it fails, the code returned is
    that of the last call made, every call before it succeeded, nothing is
    issued after it, and the chunks written before it still hold zeros. *)
Theorem clearPartition_clears (l : PhysicalLayer) (layout : vdo_layout)
    (id : PartitionID) :
  let size := get_fixed_layout_partition_size (get_vdo_partition layout id) in
  let start :=
    get_fixed_layout_partition_offset (get_vdo_partition layout id) in
  let c := bufferBlocks_of size in
  let r := (clearPartition l layout id).1 in
  let l' := (clearPartition l layout id).2 in
  0 < size ->
  start + size < 2 ^ 64 ->
  (exists k : Z,
      0 <= k <= 12 /\ c = 2 ^ k /\ (c | size)
      /\ forall m : Z, 0 <= m <= 12 -> (2 ^ m | size) -> 2 ^ m <= c)
  /\ clearPartition_fuel (Z.to_nat size) l layout id = Some (r, l')
  /\ exists n : nat,
      writes l' = writes l ++ map (chunk_write start c) (seq 0 n)
      /\ (r = VDO_SUCCESS ->
          Z.of_nat n * c = size
          /\ forall b, start <= b < start + size ->
               blocks l' b = zero_block
               /\ times_written b (map (chunk_write start c) (seq 0 n))
                  = 1%nat)
      /\ (r <> VDO_SUCCESS ->
          scripted_result l n = r
          /\ (forall i, (i < n)%nat -> scripted_result l i = VDO_SUCCESS)
          /\ forall b, start <= b < start + (Z.of_nat n - 1) * c ->
               blocks l' b = zero_block).
Proof.
  intros size start c r l' Hpos Hfit. split; [|split].
  - destruct (bufferBlocks_of_spec size ltac:(lia)) as (k & Hk & Hc & Hd & Hm).
    exists k. fold c in Hc. rewrite Hc. auto.
  - destruct (clearPartition_run l layout id) as [Hrun _].
    fold size in Hrun. rewrite Hrun. subst r l'.
    destruct (clearPartition l layout id). reflexivity.
  - destruct (clearPartition_effect l layout id)
      as (n & Hn & _ & _ & Hws & _ & _ & _ & _ & Hok & Herr).
    fold size start c r l' in Hn, Hws, Hok, Herr.
    pose proof (bufferBlocks_of_range size ltac:(lia)) as Hc. fold c in Hc.
    exists n. split; [exact Hws|]. split.
    + intros Hr. destruct (Hok Hr) as [_ Hall].
      destruct (Hall Hfit) as [Hcov Hz]. split; [exact Hcov|].
      intros b Hb. split; [apply Hz; exact Hb|].
      apply chunk_writes_once; lia.
    + exact Herr.
Qed.

Lemma clearPartition_clears_witness :
  clearPartition_fuel 6 Demo.faulty_layer Demo.layout BLOCK_MAP_PARTITION
  = Some (clearPartition Demo.faulty_layer Demo.layout BLOCK_MAP_PARTITION).
Proof.
  refine (eq_trans
            (proj1 (proj2 (clearPartition_clears
                             Demo.faulty_layer Demo.layout
                             BLOCK_MAP_PARTITION _ _))) _).
  - vm_compute. reflexivity.
  - vm_compute. reflexivity.
  - destruct (clearPartition Demo.faulty_layer Demo.layout
                             BLOCK_MAP_PARTITION).
    reflexivity.
Defined.

(** C9: [clearPartition] never writes outside the partition it is given.
    The chunk divides the partition size, every [writer] call it issues
    addresses blocks of [offset, offset + size) only, and every block outside
    that range (the super block and the other partitions among them) holds
    afterwards what it held before, whether or not the clear succeeded. *)
Theorem clearPartition_stays_inside (l : PhysicalLayer) (layout : vdo_layout)
    (id : PartitionID) :
  let size := get_fixed_layout_partition_size (get_vdo_partition layout id) in
  let start :=
    get_fixed_layout_partition_offset (get_vdo_partition layout id) in
  let c := bufferBlocks_of size in
  let l' := (clearPartition l layout id).2 in
  (c | size)
  /\ (exists new : list extent,
        writes l' = writes l ++ new
        /\ Forall (fun e => ext_count e = c
                            /\ start <= ext_start e
                            /\ ext_start e + ext_count e <= start + size) new)
  /\ (forall b, ~ (start <= b < start + size) -> blocks l' b = blocks l b).
Proof.
  intros size start c l'.
  assert (0 <= size < 2 ^ 64) as Hsize by apply u64_range.
  pose proof (bufferBlocks_of_range size ltac:(lia)) as Hc. fold c in Hc.
  destruct (clearPartition_effect l layout id)
    as (n & Hn & _ & _ & Hws & _ & _ & Hframe & _).
  fold size start c l' in Hn, Hws, Hframe.
  split; [|split].
  - destruct (bufferBlocks_of_spec size ltac:(lia)) as (k & _ & Hk & Hd & _).
    fold c in Hk. rewrite Hk. exact Hd.
  - exists (map (chunk_write start c) (seq 0 n)). split; [exact Hws|].
    apply List.Forall_forall. intros e He.
    apply in_map_iff in He. destruct He as (i & <- & Hi).
    apply in_seq in Hi. unfold chunk_write. cbn [ext_start ext_count].
    split; [reflexivity|]. nia.
  - intros b Hb. apply Hframe. nia.
Qed.

(** ** The format driver: order of writes *)

Section FormatFacts.

Context `{BC : BaseCode}.

Lemma seq_prefix (n m : nat) : (n <= m)%nat -> seq 0 n `prefix_of` seq 0 m.
Proof.
  intros H. exists (seq n (m - n)).
  replace m with (n + (m - n))%nat at 1 by lia. apply seq_app.
Qed.

Lemma map_prefix {A B : Type} (f : A -> B) (l1 l2 : list A) :
  l1 `prefix_of` l2 -> map f l1 `prefix_of` map f l2.
Proof. intros [k ->]. exists (map f k). apply map_app. Qed.

(** One clear, as a caller sees it: a prefix of the planned sub-writes, all
    of them when it succeeds, and blocks that held zeros still do. *)
Lemma clearPartition_plan (l : PhysicalLayer) (layout : vdo_layout)
    (id : PartitionID) (r : Z) (l' : PhysicalLayer) :
  clearPartition l layout id = (r, l') ->
  exists t : list extent,
    writes l' = writes l ++ t
    /\ t `prefix_of` clear_plan layout id
    /\ (r = VDO_SUCCESS -> t = clear_plan layout id)
    /\ (forall b, blocks l b = zero_block -> blocks l' b = zero_block).
Proof.
  intros Hrun.
  destruct (clearPartition_effect l layout id)
    as (n & _ & Hn & Hfull & Hws & _ & _ & _ & Hzk & _).
  rewrite Hrun in Hfull, Hws, Hzk. cbn [fst snd] in Hfull, Hws, Hzk.
  exists (map (chunk_write
                 (get_fixed_layout_partition_offset
                    (get_vdo_partition layout id))
                 (bufferBlocks_of
                    (get_fixed_layout_partition_size
                       (get_vdo_partition layout id))))
              (seq 0 n)).
  split; [exact Hws|]. split.
  - apply map_prefix, seq_prefix, Hn.
  - split; [|exact Hzk]. intros Hr. unfold clear_plan.
    rewrite (Hfull Hr). reflexivity.
Qed.

Lemma zero_block_of_buffer :
  block_of_buffer (zeros VDO_BLOCK_SIZE) 0 = zero_block.
Proof.
  change (zeros VDO_BLOCK_SIZE) with (zeros (1 * VDO_BLOCK_SIZE)).
  apply block_of_buffer_zeros. lia.
Qed.

Lemma clear_volume_geometry_spec (l : PhysicalLayer) (r : Z)
    (l1 : PhysicalLayer) :
  clear_volume_geometry l = (r, l1) ->
  exists t : list extent,
    writes l1 = writes l ++ t
    /\ t `prefix_of` [Extent GEOMETRY_BLOCK_LOCATION 1 zero_block]
    /\ (forall b, b <> 0 -> blocks l1 b = blocks l b)
    /\ (r = VDO_SUCCESS ->
        t = [Extent GEOMETRY_BLOCK_LOCATION 1 zero_block]
        /\ blocks l1 0 = zero_block).
Proof.
  unfold clear_volume_geometry. intros Hrun.
  pose proof (allocateIOBuffer_spec l VDO_BLOCK_SIZE) as Ha.
  destruct (allocateIOBuffer l VDO_BLOCK_SIZE) as [[res buf] l0].
  destruct (Ha res buf l0 eq_refl) as (_ & Hbuf & Hb0 & Hw0 & _).
  destruct (failed res) eqn:F.
  - inversion Hrun; subst. apply failed_true in F. exists [].
    rewrite app_nil_r. repeat split; auto; try congruence.
    apply prefix_nil.
  - apply failed_false in F. rewrite (Hbuf F) in Hrun.
    pose proof (writer_writes l0 GEOMETRY_BLOCK_LOCATION 1
                              (zeros VDO_BLOCK_SIZE)) as Hw.
    pose proof (writer_frame l0 GEOMETRY_BLOCK_LOCATION 1
                             (zeros VDO_BLOCK_SIZE)) as Hfr.
    pose proof (writer_stores l0 GEOMETRY_BLOCK_LOCATION 1
                              (zeros VDO_BLOCK_SIZE) 0) as Hst.
    rewrite Hrun in Hw, Hfr, Hst. cbn [fst snd] in Hw, Hfr, Hst.
    exists [Extent GEOMETRY_BLOCK_LOCATION 1 zero_block].
    split; [rewrite Hw, Hw0; reflexivity|]. split; [reflexivity|]. split.
    + intros b Hb. rewrite Hfr, Hb0; [reflexivity|].
      unfold GEOMETRY_BLOCK_LOCATION. lia.
    + intros Hr. split; [reflexivity|].
      rewrite Hst; [apply zero_block_of_buffer|exact Hr|].
      unfold GEOMETRY_BLOCK_LOCATION. lia.
Qed.

(** A single one-block write preceded by steps that only compute. *)
Lemma writer_one_block (l : PhysicalLayer) (pbn : Z) (buf : list byte)
    (r : Z) (l' : PhysicalLayer) :
  writer l pbn 1 buf = (r, l') ->
  writes l' = writes l ++ [Extent pbn 1 buf]
  /\ (forall b, b <> pbn -> blocks l' b = blocks l b)
  /\ (r = VDO_SUCCESS -> blocks l' pbn = block_of_buffer buf 0).
Proof.
  intros Hrun.
  pose proof (writer_writes l pbn 1 buf) as Hw.
  pose proof (writer_frame l pbn 1 buf) as Hfr.
  pose proof (writer_stores l pbn 1 buf pbn) as Hst.
  rewrite Hrun in Hw, Hfr, Hst. cbn [fst snd] in Hw, Hfr, Hst.
  split; [exact Hw|]. split.
  - intros b Hb. apply Hfr. lia.
  - intros Hr. rewrite Hst, Z.sub_diag; [reflexivity|exact Hr|lia].
Qed.

Lemma saveVDOComponents_spec (vdo : VDO) (l : PhysicalLayer) (r : Z)
    (l' : PhysicalLayer) :
  saveVDOComponents vdo l = (r, l') ->
  exists t : list extent,
    writes l' = writes l ++ t
    /\ t `prefix_of`
         [Extent (getFirstBlockOffset vdo) 1 (encode_super_block vdo).2]
    /\ (r = VDO_SUCCESS ->
        t = [Extent (getFirstBlockOffset vdo) 1 (encode_super_block vdo).2])
    /\ (forall b, b <> getFirstBlockOffset vdo -> blocks l' b = blocks l b).
Proof.
  unfold saveVDOComponents. intros Hrun.
  destruct (encode_super_block vdo) as [res block]. cbn [snd].
  destruct (failed res) eqn:F.
  - inversion Hrun; subst. apply failed_true in F. exists [].
    rewrite app_nil_r. repeat split; auto; try congruence.
    apply prefix_nil.
  - destruct (writer_one_block _ _ _ _ _ Hrun) as (Hw & Hfr & _).
    exists [Extent (getFirstBlockOffset vdo) 1 block]. auto.
Qed.

Lemma write_volume_geometry_spec (l : PhysicalLayer)
    (geometry : volume_geometry) (r : Z) (l' : PhysicalLayer) :
  write_volume_geometry l geometry = (r, l') ->
  exists t : list extent,
    writes l' = writes l ++ t
    /\ ((t = [] /\ blocks l' = blocks l) \/ t = [geometry_write geometry])
    /\ (r = VDO_SUCCESS -> t = [geometry_write geometry]).
Proof.
  unfold write_volume_geometry, geometry_write. intros Hrun.
  pose proof (allocateIOBuffer_spec l VDO_BLOCK_SIZE) as Ha.
  destruct (allocateIOBuffer l VDO_BLOCK_SIZE) as [[res buf] l0].
  destruct (Ha res buf l0 eq_refl) as (_ & _ & Hb0 & Hw0 & _).
  destruct (failed res) eqn:F.
  - inversion Hrun; subst. apply failed_true in F. exists [].
    rewrite app_nil_r. repeat split; auto; try congruence.
  - destruct (encode_volume_geometry geometry) as [res' block]. cbn [snd].
    destruct (failed res') eqn:F'.
    + inversion Hrun; subst. apply failed_true in F'. exists [].
      rewrite app_nil_r. repeat split; auto; try congruence.
    + destruct (writer_one_block _ _ _ _ _ Hrun) as (Hw & _).
      exists [Extent GEOMETRY_BLOCK_LOCATION 1 block].
      split; [rewrite Hw, Hw0; reflexivity|]. auto.
Qed.

(** Configuring a VDO leaves the place of its super block alone. *)
Lemma configureVDO_firstBlockOffset (l : PhysicalLayer) (vdo : VDO) :
  v_firstBlockOffset (configureVDO l vdo).2 = v_firstBlockOffset vdo.
Proof.
  unfold configureVDO.
  repeat match goal with
         | |- context [let (_, _) := ?x in _] => destruct x
         | |- context [if ?b then _ else _] => destruct b
         end; reflexivity.
Qed.

(** [makeAndWriteVDO]: the block-map clear, then the journal clear, then
    the super block; a block of zeros other than the super block's stays a
    block of zeros. *)
Lemma makeAndWriteVDO_spec (config : VDOConfig) (l : PhysicalLayer)
    (geometry : volume_geometry) (r : Z) (l' : PhysicalLayer) :
  makeAndWriteVDO config l geometry = (r, l') ->
  let vdo := configured_vdo config l geometry in
  exists t : list extent,
    writes l' = writes l ++ t
    /\ t `prefix_of`
         (clear_plan (v_layout vdo) BLOCK_MAP_PARTITION
          ++ clear_plan (v_layout vdo) RECOVERY_JOURNAL_PARTITION
          ++ [Extent (getFirstBlockOffset vdo) 1 (encode_super_block vdo).2])
    /\ (r = VDO_SUCCESS ->
        t = clear_plan (v_layout vdo) BLOCK_MAP_PARTITION
            ++ clear_plan (v_layout vdo) RECOVERY_JOURNAL_PARTITION
            ++ [Extent (getFirstBlockOffset vdo) 1
                       (encode_super_block vdo).2])
    /\ (forall b, blocks l b = zero_block ->
                  b <> get_data_region_offset geometry ->
                  blocks l' b = zero_block).
Proof.
  unfold makeAndWriteVDO, configured_vdo. intros Hrun.
  destruct (makeVDO l) as [r0 vdo0]. cbn [snd].
  destruct (failed r0) eqn:F0.
  { inversion Hrun; subst. apply failed_true in F0. exists [].
    rewrite app_nil_r. repeat split; auto; try congruence.
    apply prefix_nil. }
  destruct (configureVDO l _) as [r1 vdo] eqn:Hconf. cbn [snd].
  destruct (failed r1) eqn:F1.
  { inversion Hrun; subst. apply failed_true in F1. exists [].
    rewrite app_nil_r. repeat split; auto; try congruence.
    apply prefix_nil. }
  assert (getFirstBlockOffset vdo = get_data_region_offset geometry) as Hoff.
  { pose proof (configureVDO_firstBlockOffset l
                  (set_firstBlockOffset (get_data_region_offset geometry)
                     (set_nonce (geometry_nonce geometry)
                        (set_config config vdo0)))) as H.
    rewrite Hconf in H. cbn in H. unfold getFirstBlockOffset. rewrite H.
    unfold get_data_region_offset, u64. apply Z.mod_mod. lia. }
  destruct (clearPartition l (v_layout vdo) BLOCK_MAP_PARTITION)
    as [r2 l2] eqn:Hbm.
  destruct (clearPartition_plan _ _ _ _ _ Hbm) as (t2 & Hw2 & Hp2 & Hf2 & Hz2).
  destruct (failed r2) eqn:F2.
  { inversion Hrun; subst. apply failed_true in F2. exists t2.
    split; [exact Hw2|]. split; [apply prefix_app_r; exact Hp2|].
    split; [congruence|]. auto. }
  apply failed_false in F2. rewrite (Hf2 F2) in Hw2. clear Hp2 Hf2.
  destruct (clearPartition l2 (v_layout vdo) RECOVERY_JOURNAL_PARTITION)
    as [r3 l3] eqn:Hrj.
  destruct (clearPartition_plan _ _ _ _ _ Hrj) as (t3 & Hw3 & Hp3 & Hf3 & Hz3).
  destruct (failed r3) eqn:F3.
  { inversion Hrun; subst. apply failed_true in F3.
    exists (clear_plan (v_layout vdo) BLOCK_MAP_PARTITION ++ t3).
    split; [rewrite Hw3, Hw2, app_assoc; reflexivity|].
    split; [apply prefix_app, prefix_app_r; exact Hp3|].
    split; [congruence|]. auto. }
  apply failed_false in F3. rewrite (Hf3 F3) in Hw3. clear Hp3 Hf3.
  destruct (saveVDOComponents vdo l3) as [r4 l4] eqn:Hsave.
  destruct (saveVDOComponents_spec _ _ _ _ Hsave)
    as (t4 & Hw4 & Hp4 & Hf4 & Hfr4).
  assert (writes l4
          = writes l ++ clear_plan (v_layout vdo) BLOCK_MAP_PARTITION
            ++ clear_plan (v_layout vdo) RECOVERY_JOURNAL_PARTITION ++ t4)
    as Hw.
  { rewrite Hw4, Hw3, Hw2, <- !app_assoc. reflexivity. }
  assert (forall b, blocks l b = zero_block ->
                    b <> get_data_region_offset geometry ->
                    blocks l4 b = zero_block) as Hz.
  { intros b Hb Hne. rewrite Hfr4 by congruence. auto. }
  destruct (failed r4) eqn:F4.
  - inversion Hrun; subst. apply failed_true in F4.
    exists (clear_plan (v_layout vdo) BLOCK_MAP_PARTITION
            ++ clear_plan (v_layout vdo) RECOVERY_JOURNAL_PARTITION ++ t4).
    split; [exact Hw|].
    split; [apply prefix_app, prefix_app; exact Hp4|].
    split; [congruence|]. exact Hz.
  - inversion Hrun; subst. apply failed_false in F4.
    exists (clear_plan (v_layout vdo) BLOCK_MAP_PARTITION
            ++ clear_plan (v_layout vdo) RECOVERY_JOURNAL_PARTITION ++ t4).
    split; [exact Hw|]. rewrite (Hf4 F4). auto.
Qed.

Lemma prefix_not_longer {A : Type} (t b : list A) (x : A) :
  t `prefix_of` b -> t <> b ++ [x].
Proof.
  intros Hp Heq. apply prefix_length in Hp. rewrite Heq in Hp.
  rewrite length_app in Hp. simpl in Hp. lia.
Qed.

(** A format that fails in a step before the first write has written
    nothing. *)
Ltac stops_before_writing F :=
  apply failed_true in F; exists []; cbn [fst snd]; rewrite app_nil_r;
  split; [reflexivity|]; split; [left; apply prefix_nil|];
  split; [|split; [congruence|intros; congruence]];
  let H := fresh in
  intros H; exfalso; exact (app_cons_not_nil _ _ _ H).

(** One run of the format driver: the writes it issues, when the geometry
    write is among them, and what PBN 0 holds when it is not. *)
Lemma formatVDOWithNonce_run (config : VDOConfig)
    (indexConfig : index_config) (l : PhysicalLayer) (nonce : Z)
    (uuid : list byte) :
  let geometry := (initialize_volume_geometry nonce uuid indexConfig).2 in
  let l1 := (clear_volume_geometry l).2 in
  let before := plan_before_geometry config l1 geometry in
  let r := (formatVDOWithNonce config indexConfig l nonce uuid).1 in
  let l' := (formatVDOWithNonce config indexConfig l nonce uuid).2 in
  exists t : list extent,
    writes l' = writes l ++ t
    /\ (t `prefix_of` before \/ t = before ++ [geometry_write geometry])
    /\ (t = before ++ [geometry_write geometry] ->
        register_status_codes = VDO_SUCCESS
        /\ validateVDOConfig config (getBlockCount l) false = VDO_SUCCESS
        /\ (initialize_volume_geometry nonce uuid indexConfig).1 = VDO_SUCCESS
        /\ (clear_volume_geometry l).1 = VDO_SUCCESS
        /\ (makeAndWriteVDO config l1 geometry).1 = VDO_SUCCESS)
    /\ (r = VDO_SUCCESS -> t = before ++ [geometry_write geometry])
    /\ (register_status_codes = VDO_SUCCESS ->
        validateVDOConfig config (getBlockCount l) false = VDO_SUCCESS ->
        (initialize_volume_geometry nonce uuid indexConfig).1 = VDO_SUCCESS ->
        (clear_volume_geometry l).1 = VDO_SUCCESS ->
        get_data_region_offset geometry <> GEOMETRY_BLOCK_LOCATION ->
        t <> before ++ [geometry_write geometry] ->
        blocks l' GEOMETRY_BLOCK_LOCATION = zero_block).
Proof.
  unfold formatVDOWithNonce, plan_before_geometry.
  destruct (failed register_status_codes) eqn:F0.
  { stops_before_writing F0. }
  destruct (failed (validateVDOConfig config (getBlockCount l) false)) eqn:F1.
  { stops_before_writing F1. }
  destruct (initialize_volume_geometry nonce uuid indexConfig)
    as [r2 geometry]. cbn [fst snd].
  destruct (failed r2) eqn:F2.
  { stops_before_writing F2. }
  apply failed_false in F0, F1, F2.
  destruct (clear_volume_geometry l) as [r3 l1] eqn:Hclear. cbn [fst snd].
  destruct (clear_volume_geometry_spec _ _ _ Hclear)
    as (t3 & Hw3 & Hp3 & _ & Hf3).
  destruct (failed r3) eqn:F3.
  { apply failed_true in F3. exists t3. cbn [fst snd].
    split; [exact Hw3|].
    assert (t3 `prefix_of`
              [Extent GEOMETRY_BLOCK_LOCATION 1 zero_block]
              ++ clear_plan (v_layout (configured_vdo config l1 geometry))
                            BLOCK_MAP_PARTITION
              ++ clear_plan (v_layout (configured_vdo config l1 geometry))
                            RECOVERY_JOURNAL_PARTITION
              ++ [Extent (getFirstBlockOffset
                            (configured_vdo config l1 geometry)) 1
                         (encode_super_block
                            (configured_vdo config l1 geometry)).2])
      as Hpre by (apply prefix_app_r; exact Hp3).
    split; [left; exact Hpre|].
    split; [|split; [congruence|intros; congruence]].
    intros H. exfalso. exact (prefix_not_longer _ _ _ Hpre H). }
  apply failed_false in F3. destruct (Hf3 F3) as [-> Hzero]. clear Hp3 Hf3.
  destruct (makeAndWriteVDO config l1 geometry) as [r4 l2] eqn:Hmake.
  destruct (makeAndWriteVDO_spec _ _ _ _ _ Hmake)
    as (t4 & Hw4 & Hp4 & Hf4 & Hkeep).
  cbn [fst snd] in *.
  destruct (failed r4) eqn:F4.
  { apply failed_true in F4.
    exists ([Extent GEOMETRY_BLOCK_LOCATION 1 zero_block] ++ t4).
    cbn [fst snd]. split; [rewrite Hw4, Hw3, app_assoc; reflexivity|].
    assert (([Extent GEOMETRY_BLOCK_LOCATION 1 zero_block] ++ t4)
              `prefix_of`
              [Extent GEOMETRY_BLOCK_LOCATION 1 zero_block]
              ++ clear_plan (v_layout (configured_vdo config l1 geometry))
                            BLOCK_MAP_PARTITION
              ++ clear_plan (v_layout (configured_vdo config l1 geometry))
                            RECOVERY_JOURNAL_PARTITION
              ++ [Extent (getFirstBlockOffset
                            (configured_vdo config l1 geometry)) 1
                         (encode_super_block
                            (configured_vdo config l1 geometry)).2])
      as Hpre by (apply prefix_app; exact Hp4).
    split; [left; exact Hpre|]. split; [|split; [congruence|]].
    { intros H. exfalso. exact (prefix_not_longer _ _ _ Hpre H). }
    intros _ _ _ _ Hoff _. apply Hkeep; [exact Hzero|congruence]. }
  apply failed_false in F4. rewrite (Hf4 F4) in Hw4. clear Hp4 Hf4.
  destruct (write_volume_geometry l2 geometry) as [r5 l3] eqn:Hgeo.
  destruct (write_volume_geometry_spec _ _ _ _ Hgeo) as (t5 & Hw5 & Hc5 & Hf5).
  cbn [fst snd].
  exists (([Extent GEOMETRY_BLOCK_LOCATION 1 zero_block]
           ++ clear_plan (v_layout (configured_vdo config l1 geometry))
                         BLOCK_MAP_PARTITION
           ++ clear_plan (v_layout (configured_vdo config l1 geometry))
                         RECOVERY_JOURNAL_PARTITION
           ++ [Extent (getFirstBlockOffset
                         (configured_vdo config l1 geometry)) 1
                      (encode_super_block
                         (configured_vdo config l1 geometry)).2])
          ++ t5).
  split; [rewrite Hw5, Hw4, Hw3, <- !app_assoc; reflexivity|].
  destruct Hc5 as [[-> Hsame] | ->].
  - rewrite app_nil_r. split; [left; reflexivity|]. split; [|split].
    + intros H. exfalso.
      exact (prefix_not_longer _ _ _ (reflexivity _) H).
    + intros Hr. specialize (Hf5 Hr). discriminate.
    + intros _ _ _ _ Hoff _. rewrite Hsame.
      apply Hkeep; [exact Hzero|congruence].
  - split; [right; reflexivity|]. split; [auto|]. split; [auto|].
    intros _ _ _ _ _ Hne. contradiction.
Qed.


(** C1: in every execution of [formatVDOWithNonce] the writes issued are,
    in this order, the zero block at PBN 0, the sub-writes of the block-map
    clear, those of the recovery-journal clear, the super block, and last
    the encoded geometry at PBN 0; an execution that stops early issues a
    prefix of the writes before the geometry.  The geometry write is issued
    only if status registration, configuration validation, geometry
    initialisation, the geometry clear and [makeAndWriteVDO] all returned
    [VDO_SUCCESS], and a successful format issues all the writes. *)
Theorem formatVDOWithNonce_write_order (config : VDOConfig)
    (indexConfig : index_config) (l : PhysicalLayer) (nonce : Z)
    (uuid : list byte) :
  let geometry := (initialize_volume_geometry nonce uuid indexConfig).2 in
  let l1 := (clear_volume_geometry l).2 in
  let before := plan_before_geometry config l1 geometry in
  let r := (formatVDOWithNonce config indexConfig l nonce uuid).1 in
  let l' := (formatVDOWithNonce config indexConfig l nonce uuid).2 in
  exists t : list extent,
    writes l' = writes l ++ t
    /\ (t `prefix_of` before \/ t = before ++ [geometry_write geometry])
    /\ (t = before ++ [geometry_write geometry] ->
        register_status_codes = VDO_SUCCESS
        /\ validateVDOConfig config (getBlockCount l) false = VDO_SUCCESS
        /\ (initialize_volume_geometry nonce uuid indexConfig).1 = VDO_SUCCESS
        /\ (clear_volume_geometry l).1 = VDO_SUCCESS
        /\ (makeAndWriteVDO config l1 geometry).1 = VDO_SUCCESS)
    /\ (r = VDO_SUCCESS -> t = before ++ [geometry_write geometry]).
Proof.
  intros geometry l1 before r l'.
  destruct (formatVDOWithNonce_run config indexConfig l nonce uuid)
    as (t & Hw & Horder & Hlast & Hall & _).
  exists t. auto.
Qed.

(** ** A torn format leaves an unrecognisable device *)

Lemma reader_spec (l : PhysicalLayer) (pbn n : Z) :
  forall res data l',
    reader l pbn n = (res, data, l') ->
    res = scripted_result l 0
    /\ blocks l' = blocks l
    /\ writes l' = writes l
    /\ outcomes l' = drop 1 (outcomes l)
    /\ (res = VDO_SUCCESS ->
        data = concat (map (fun i => blocks l (pbn + Z.of_nat i))
                           (seq 0 (Z.to_nat n)))).
Proof.
  intros res data l'. unfold reader, scripted_result.
  pose proof (next_outcome_blocks l) as (Hb & Hw & Hc).
  pose proof (next_outcome_script l) as (Ho & Hs).
  destruct (next_outcome l) as [o l0]. simpl in *. subst o.
  destruct (failed _) eqn:F; intros H; inversion H; subst.
  - apply failed_true in F. repeat split; auto. congruence.
  - apply failed_false in F. rewrite Hb. repeat split; auto.
Qed.

Lemma read_one_block (l : PhysicalLayer) (pbn : Z) :
  forall res data l',
    reader l pbn 1 = (res, data, l') ->
    res = VDO_SUCCESS -> data = blocks l pbn.
Proof.
  intros res data l' Hrun Hres.
  destruct (reader_spec _ _ _ _ _ _ Hrun) as (_ & _ & _ & _ & Hdata).
  rewrite (Hdata Hres). change (Z.to_nat 1) with 1%nat.
  cbn [seq map concat Z.of_nat]. rewrite app_nil_r, Z.add_0_r. reflexivity.
Qed.

(** Loading the geometry from a device whose PBN 0 holds the zero block
    stops at the magic check. *)
Lemma load_volume_geometry_zero_block (l : PhysicalLayer) :
  blocks l GEOMETRY_BLOCK_LOCATION = zero_block ->
  scripted_result l 0 = VDO_SUCCESS ->
  scripted_result l 1 = VDO_SUCCESS ->
  (load_volume_geometry l).1.1 = VDO_BAD_MAGIC.
Proof.
  intros Hz H0 H1. unfold load_volume_geometry.
  pose proof (allocateIOBuffer_spec l VDO_BLOCK_SIZE) as Ha.
  destruct (allocateIOBuffer l VDO_BLOCK_SIZE) as [[res buf] l0].
  destruct (Ha res buf l0 eq_refl) as (Hres & _ & Hb0 & _ & Ho0 & _).
  rewrite H0 in Hres. subst res.
  change (failed VDO_SUCCESS) with false. cbv iota.
  pose proof (reader_spec l0 GEOMETRY_BLOCK_LOCATION 1) as Hr.
  pose proof (read_one_block l0 GEOMETRY_BLOCK_LOCATION) as Hd.
  destruct (reader l0 GEOMETRY_BLOCK_LOCATION 1) as [[res data] l2].
  destruct (Hr res data l2 eq_refl) as (Hres & _).
  assert (res = VDO_SUCCESS) as ->.
  { rewrite Hres. unfold scripted_result. rewrite Ho0, lookup_drop.
    exact H1. }
  rewrite (Hd _ _ _ eq_refl eq_refl), Hb0, Hz.
  change (failed VDO_SUCCESS) with false. cbv iota.
  assert (bool_decide (take 8 zero_block = MAGIC_NUMBER) = false) as ->
    by (vm_compute; reflexivity).
  reflexivity.
Qed.

(** C2: when a format has registered its status codes, validated the
    configuration, built the geometry and cleared PBN 0, and then ends
    without issuing the geometry write (the VDO cannot be made or
    configured, a partition clear fails, the super block cannot be encoded
    or written, or the geometry block cannot be prepared), the format
    fails, PBN 0 still holds the zero block, and loading the geometry from
    a device with that PBN 0 returns [VDO_BAD_MAGIC] whenever the read
    itself is carried out.  The data region starts after PBN 0, as the
    geometry builder lays it out, so the super block is not written over
    PBN 0. *)
Theorem format_failure_leaves_bad_magic (config : VDOConfig)
    (indexConfig : index_config) (l : PhysicalLayer) (nonce : Z)
    (uuid : list byte) :
  let geometry := (initialize_volume_geometry nonce uuid indexConfig).2 in
  let l1 := (clear_volume_geometry l).2 in
  let before := plan_before_geometry config l1 geometry in
  let r := (formatVDOWithNonce config indexConfig l nonce uuid).1 in
  let l' := (formatVDOWithNonce config indexConfig l nonce uuid).2 in
  register_status_codes = VDO_SUCCESS ->
  validateVDOConfig config (getBlockCount l) false = VDO_SUCCESS ->
  (initialize_volume_geometry nonce uuid indexConfig).1 = VDO_SUCCESS ->
  get_data_region_offset geometry <> GEOMETRY_BLOCK_LOCATION ->
  (clear_volume_geometry l).1 = VDO_SUCCESS ->
  writes l' <> writes l ++ before ++ [geometry_write geometry] ->
  r <> VDO_SUCCESS
  /\ blocks l' GEOMETRY_BLOCK_LOCATION = zero_block
  /\ forall device : PhysicalLayer,
      blocks device GEOMETRY_BLOCK_LOCATION
      = blocks l' GEOMETRY_BLOCK_LOCATION ->
      scripted_result device 0 = VDO_SUCCESS ->
      scripted_result device 1 = VDO_SUCCESS ->
      (load_volume_geometry device).1.1 = VDO_BAD_MAGIC.
Proof.
  intros geometry l1 before r l' H0 H1 H2 Hoff H3 Hnot.
  destruct (formatVDOWithNonce_run config indexConfig l nonce uuid)
    as (t & Hw & _ & _ & Hall & Hzero).
  fold geometry l1 before r l' in Hw, Hall, Hzero.
  assert (t <> before ++ [geometry_write geometry]) as Hne.
  { intros ->. apply Hnot. exact Hw. }
  specialize (Hzero H0 H1 H2 H3 Hoff Hne).
  split; [intros Hr; exact (Hne (Hall Hr))|]. split; [exact Hzero|].
  intros device Hsame Hd0 Hd1.
  apply load_volume_geometry_zero_block; congruence.
Qed.

End FormatFacts.

(** ** Changing the state of an inactive VDO *)

Section ReconfigureFacts.

Context `{BC : BaseCode}.

(** Loading never writes. *)
Lemma load_volume_geometry_reads (l : PhysicalLayer) :
  blocks (load_volume_geometry l).2 = blocks l
  /\ writes (load_volume_geometry l).2 = writes l.
Proof.
  unfold load_volume_geometry.
  pose proof (allocateIOBuffer_spec l VDO_BLOCK_SIZE) as Ha.
  destruct (allocateIOBuffer l VDO_BLOCK_SIZE) as [[res buf] l0].
  destruct (Ha res buf l0 eq_refl) as (_ & _ & Hb0 & Hw0 & _).
  destruct (failed res); [auto|].
  pose proof (reader_spec l0 GEOMETRY_BLOCK_LOCATION 1) as Hr.
  destruct (reader l0 GEOMETRY_BLOCK_LOCATION 1) as [[res' data] l2].
  destruct (Hr res' data l2 eq_refl) as (_ & Hb2 & Hw2 & _).
  assert (blocks l2 = blocks l /\ writes l2 = writes l) as Hl2
    by (split; congruence).
  repeat match goal with
         | |- context [let (_, _) := ?x in _] => destruct x
         | |- context [if ?b then _ else _] => destruct b
         end; exact Hl2.
Qed.

Lemma load_super_block_spec (l : PhysicalLayer) (pbn : Z) (vdo : VDO)
    (r : Z) (vdo' : VDO) (l' : PhysicalLayer) :
  load_super_block l pbn vdo = (r, vdo', l') ->
  blocks l' = blocks l
  /\ writes l' = writes l
  /\ v_firstBlockOffset vdo' = v_firstBlockOffset vdo
  /\ (failed r = false -> v_superBlock vdo' = blocks l pbn).
Proof.
  unfold load_super_block. intros Hrun.
  pose proof (allocateIOBuffer_spec l VDO_BLOCK_SIZE) as Ha.
  destruct (allocateIOBuffer l VDO_BLOCK_SIZE) as [[res buf] l0].
  destruct (Ha res buf l0 eq_refl) as (_ & _ & Hb0 & Hw0 & _).
  destruct (failed res) eqn:F.
  { inversion Hrun; subst. repeat split; intros; congruence. }
  pose proof (reader_spec l0 pbn 1) as Hr.
  pose proof (read_one_block l0 pbn) as Hd.
  destruct (reader l0 pbn 1) as [[res' data] l2].
  destruct (Hr res' data l2 eq_refl) as (_ & Hb2 & Hw2 & _).
  destruct (failed res') eqn:F'.
  { inversion Hrun; subst. repeat split; intros; congruence. }
  apply failed_false in F'.
  rewrite (Hd _ _ _ eq_refl F'), Hb0 in Hrun.
  destruct (failed (decode_super_block (blocks l pbn))) eqn:F''.
  - inversion Hrun; subst. repeat split; intros; congruence.
  - inversion Hrun; subst. repeat split; intros; congruence.
Qed.

Lemma decodeVDOComponent_spec (vdo : VDO) :
  v_firstBlockOffset (decodeVDOComponent vdo).2 = v_firstBlockOffset vdo
  /\ v_superBlock (decodeVDOComponent vdo).2 = v_superBlock vdo.
Proof.
  unfold decodeVDOComponent.
  destruct (decode_vdo_component (v_superBlock vdo)) as [r c].
  destruct (failed r); split; reflexivity.
Qed.

(** What [prepareSuperBlock] hands to its caller: nothing was written, and
    on success the VDO carries the block found at the data-region origin
    of the loaded geometry. *)
Lemma prepareSuperBlock_spec (vdo0 : VDO) (l : PhysicalLayer) (r : Z)
    (vdo : VDO) (l1 : PhysicalLayer) :
  prepareSuperBlock vdo0 l = (r, vdo, l1) ->
  blocks l1 = blocks l
  /\ writes l1 = writes l
  /\ (failed r = false ->
      getFirstBlockOffset vdo = super_block_location l
      /\ v_superBlock vdo = blocks l (getFirstBlockOffset vdo)).
Proof.
  unfold prepareSuperBlock, super_block_location. intros Hrun.
  pose proof (load_volume_geometry_reads l) as [Hb0 Hw0].
  destruct (load_volume_geometry l) as [[r0 geometry] l0].
  cbn [fst snd] in *.
  destruct (failed r0) eqn:F0.
  { inversion Hrun; subst. repeat split; intros; congruence. }
  assert (getFirstBlockOffset (setLoadConfigFromGeometry geometry vdo0)
          = get_data_region_offset geometry) as Hoff.
  { unfold getFirstBlockOffset, setLoadConfigFromGeometry. cbn.
    unfold get_data_region_offset, u64. apply Z.mod_mod. lia. }
  rewrite Hoff in Hrun.
  destruct (load_super_block l0 (get_data_region_offset geometry)
              (setLoadConfigFromGeometry geometry vdo0))
    as [[r1 vdo1] l2] eqn:Hload.
  destruct (load_super_block_spec _ _ _ _ _ _ Hload)
    as (Hb2 & Hw2 & Hfbo & Hsb).
  assert (getFirstBlockOffset vdo1 = get_data_region_offset geometry)
    as Hoff1.
  { unfold getFirstBlockOffset in *. rewrite Hfbo. exact Hoff. }
  destruct (failed r1) eqn:F1.
  { inversion Hrun; subst. repeat split; intros; congruence. }
  destruct (failed (validateVDOVersion vdo1)) eqn:F2.
  { inversion Hrun; subst. repeat split; intros; congruence. }
  pose proof (decodeVDOComponent_spec vdo1) as [Hd1 Hd2].
  destruct (decodeVDOComponent vdo1) as [r3 vdo3]. cbn [snd] in *.
  inversion Hrun; subst. split; [congruence|]. split; [congruence|].
  intros _. unfold getFirstBlockOffset in *. rewrite Hd1, Hd2, Hoff1.
  split; [reflexivity|]. rewrite (Hsb eq_refl), Hb0. reflexivity.
Qed.

(** ** The rewritten super block *)

Lemma length_store_u32_le (o : nat) (z : Z) (b : list byte) :
  length (store_u32_le o z b) = length b.
Proof. unfold store_u32_le. rewrite !length_insert. reflexivity. Qed.

Lemma lookup_store_u32_le_other (o : nat) (z : Z) (b : list byte) (i : nat) :
  ~ (o <= i < o + 4)%nat -> store_u32_le o z b !! i = b !! i.
Proof.
  intros Hi. unfold store_u32_le.
  rewrite !list_lookup_insert_ne by lia. reflexivity.
Qed.

Lemma lookup_store_u32_le_field (o : nat) (z : Z) (b1 b2 : list byte)
    (i : nat) :
  length b1 = length b2 -> (o <= i < o + 4)%nat ->
  store_u32_le o z b1 !! i = store_u32_le o z b2 !! i.
Proof.
  intros Hlen Hi. unfold store_u32_le.
  rewrite !list_lookup_insert, !length_insert, Hlen.
  repeat case_decide; try reflexivity; try lia.
  rewrite (lookup_ge_None_2 b1), (lookup_ge_None_2 b2) by lia.
  reflexivity.
Qed.

Lemma drop_store_u32_le (o : nat) (z : Z) (b : list byte) :
  drop (o + 4) (store_u32_le o z b) = drop (o + 4) b.
Proof.
  unfold store_u32_le. rewrite !drop_insert_lt by lia. reflexivity.
Qed.

Lemma length_reconfigured_block (s : VDOState) (b : list byte) :
  length (reconfigured_block s b) = length b.
Proof.
  unfold reconfigured_block, store_checksum.
  rewrite length_store_u32_le, length_insert. reflexivity.
Qed.

(** Outside the state byte and the checksum field the block is as it
    was. *)
Lemma lookup_reconfigured_block_other (s : VDOState) (b : list byte)
    (i : nat) :
  i <> SUPER_BLOCK_STATE_OFFSET ->
  ~ (SUPER_BLOCK_CHECKSUM_OFFSET <= i < SUPER_BLOCK_CHECKSUM_OFFSET + 4)%nat ->
  reconfigured_block s b !! i = b !! i.
Proof.
  intros Hs Hc. unfold reconfigured_block, store_checksum.
  rewrite lookup_store_u32_le_other by exact Hc.
  apply list_lookup_insert_ne. congruence.
Qed.

(** The state byte holds the tag of the new state. *)
Lemma lookup_reconfigured_block_state (s : VDOState) (b : list byte) :
  (SUPER_BLOCK_STATE_OFFSET < length b)%nat ->
  ~ (SUPER_BLOCK_CHECKSUM_OFFSET <= SUPER_BLOCK_STATE_OFFSET
     < SUPER_BLOCK_CHECKSUM_OFFSET + 4)%nat ->
  reconfigured_block s b !! SUPER_BLOCK_STATE_OFFSET = Some (state_tag s).
Proof.
  intros Hlen Hc. unfold reconfigured_block, store_checksum.
  rewrite lookup_store_u32_le_other by exact Hc.
  apply list_lookup_insert_eq. exact Hlen.
Qed.

(** Setting the same state again and recomputing the checksum gives the
    same block. *)
Lemma reconfigured_block_idempotent (s : VDOState) (b : list byte) :
  reconfigured_block s (reconfigured_block s b) = reconfigured_block s b.
Proof.
  unfold reconfigured_block at 1. unfold store_checksum.
  set (y := <[SUPER_BLOCK_STATE_OFFSET := state_tag s]> b).
  assert (reconfigured_block s b
          = store_u32_le SUPER_BLOCK_CHECKSUM_OFFSET
                         (crc32c (checksummed y)) y) as Hy by reflexivity.
  assert (checksummed
            (<[SUPER_BLOCK_STATE_OFFSET := state_tag s]>
               (reconfigured_block s b))
          = checksummed y) as Hsum.
  { unfold checksummed. rewrite Hy.
    destruct (le_lt_dec (SUPER_BLOCK_CHECKSUM_OFFSET + 4)
                        SUPER_BLOCK_STATE_OFFSET) as [Hge|Hlt].
    - rewrite drop_insert_ge by exact Hge.
      rewrite drop_store_u32_le.
      rewrite <- drop_insert_ge by exact Hge.
      subst y. rewrite list_insert_insert_eq. reflexivity.
    - rewrite drop_insert_lt by exact Hlt. apply drop_store_u32_le. }
  rewrite Hsum, Hy. apply list_eq. intros i.
  destruct (decide (SUPER_BLOCK_CHECKSUM_OFFSET <= i
                    < SUPER_BLOCK_CHECKSUM_OFFSET + 4)%nat) as [Hin|Hout].
  - apply lookup_store_u32_le_field; [|exact Hin].
    rewrite length_insert, length_store_u32_le. reflexivity.
  - rewrite !lookup_store_u32_le_other by exact Hout.
    rewrite list_lookup_insert, length_store_u32_le.
    rewrite lookup_store_u32_le_other by exact Hout.
    case_decide as Hc; [|reflexivity].
    destruct Hc as [<- Hlen]. subst y. symmetry.
    apply list_lookup_insert_eq. rewrite length_insert in Hlen. exact Hlen.
Qed.

Lemma block_of_buffer_first (buf : list byte) :
  block_of_buffer buf 0 = take (Z.to_nat VDO_BLOCK_SIZE) buf.
Proof. reflexivity. Qed.

(** A one-block write leaves a block as it was or stores the buffer. *)
Lemma writer_block_cases (l : PhysicalLayer) (pbn : Z) (buf : list byte)
    (b : Z) :
  blocks (writer l pbn 1 buf).2 b = blocks l b
  \/ (b = pbn /\ blocks (writer l pbn 1 buf).2 b = block_of_buffer buf 0).
Proof.
  unfold writer. pose proof (next_outcome_blocks l) as (Hb & _).
  destruct (next_outcome l) as [o l0]. cbn [fst snd blocks] in *.
  unfold store_blocks.
  match goal with |- context [if ?g then _ else _] => destruct g eqn:G end;
    [|left; congruence].
  right. apply andb_true_iff in G. destruct G as [G1 G2].
  apply Z.leb_le in G1. apply Z.ltb_lt in G2.
  assert (b = pbn) as -> by (destruct (failed (io_result o)); lia).
  rewrite Z.sub_diag. auto.
Qed.

(** The two ways [updateVDOSuperBlockState] can end: without a write, or
    with the one write of the rewritten super block. *)
Lemma updateVDOSuperBlockState_cases (l : PhysicalLayer)
    (requireReadOnly : bool) (newState : VDOState) :
  let r := (updateVDOSuperBlockState l requireReadOnly newState).1 in
  let l' := (updateVDOSuperBlockState l requireReadOnly newState).2 in
  (blocks l' = blocks l /\ writes l' = writes l
   /\ (r <> VDO_SUCCESS \/ r = VDO_NOT_READ_ONLY))
  \/ (exists l1 : PhysicalLayer,
        blocks l1 = blocks l /\ writes l1 = writes l
        /\ (r, l')
           = writer l1 (super_block_location l) 1
                    (reconfigured_block newState
                       (blocks l (super_block_location l)))).
Proof.
  unfold updateVDOSuperBlockState.
  destruct (makeVDO l) as [r0 vdo0].
  destruct (failed r0) eqn:F0.
  { left. apply failed_true in F0. cbn. auto. }
  destruct (prepareSuperBlock vdo0 l) as [[r1 vdo] l1] eqn:Hprep.
  destruct (prepareSuperBlock_spec _ _ _ _ _ Hprep) as (Hb & Hw & Hok).
  destruct (failed r1) eqn:F1.
  { left. apply failed_true in F1. cbn. auto. }
  destruct (Hok eq_refl) as [Hoff Hsb].
  destruct (requireReadOnly && negb (inReadOnlyMode vdo)).
  { left. cbn. auto. }
  right. exists l1. split; [exact Hb|]. split; [exact Hw|].
  unfold saveReconfiguredVDO, reconfigured_block, setVDOState.
  cbn [v_state set_state v_superBlock].
  assert (getFirstBlockOffset (set_state newState vdo)
          = super_block_location l) as -> by exact Hoff.
  rewrite Hsb, Hoff.
  destruct (writer l1 _ 1 _). reflexivity.
Qed.

(** A successful state change is the one write of the rewritten super
    block. *)
Lemma updateVDOSuperBlockState_success (l : PhysicalLayer)
    (requireReadOnly : bool) (newState : VDOState) :
  let r := (updateVDOSuperBlockState l requireReadOnly newState).1 in
  let l' := (updateVDOSuperBlockState l requireReadOnly newState).2 in
  let pbn := super_block_location l in
  VDO_NOT_READ_ONLY <> VDO_SUCCESS ->
  r = VDO_SUCCESS ->
  writes l'
  = writes l ++ [Extent pbn 1 (reconfigured_block newState (blocks l pbn))]
  /\ (forall b, b <> pbn -> blocks l' b = blocks l b)
  /\ blocks l' pbn
     = take (Z.to_nat VDO_BLOCK_SIZE)
            (reconfigured_block newState (blocks l pbn))
  /\ (forall i : nat,
        (i < Z.to_nat VDO_BLOCK_SIZE)%nat ->
        i <> SUPER_BLOCK_STATE_OFFSET ->
        ~ (SUPER_BLOCK_CHECKSUM_OFFSET <= i
           < SUPER_BLOCK_CHECKSUM_OFFSET + 4)%nat ->
        blocks l' pbn !! i = blocks l pbn !! i).
Proof.
  intros r l' pbn Hcode Hr.
  destruct (updateVDOSuperBlockState_cases l requireReadOnly newState)
    as [(_ & _ & [Hfail|Hnro])|(l1 & Hb1 & Hw1 & Hrun)].
  - contradiction.
  - fold r in Hnro. congruence.
  - fold r l' pbn in Hrun. symmetry in Hrun.
    destruct (writer_one_block _ _ _ _ _ Hrun) as (Hw & Hfr & Hst).
    assert (blocks l' pbn
            = take (Z.to_nat VDO_BLOCK_SIZE)
                   (reconfigured_block newState (blocks l pbn))) as Hnew.
    { rewrite (Hst Hr). apply block_of_buffer_first. }
    split; [rewrite Hw, Hw1; reflexivity|]. split.
    { intros b Hb. rewrite Hfr by exact Hb. rewrite Hb1. reflexivity. }
    split; [exact Hnew|].
    intros i Hi Hs Hc. rewrite Hnew, lookup_take_lt by exact Hi.
    apply lookup_reconfigured_block_other; assumption.
Qed.

(** C7: a successful [updateVDOSuperBlockState] issues exactly one
    [writer] call, of one block, at the data-region origin where the super
    block sits; every other block of the device is unchanged, and within
    the super block every byte other than the state byte and the four
    bytes of the checksum field is what was stored before.  (A status
    code that signals failure differs from [VDO_SUCCESS].) *)
Theorem updateVDOSuperBlockState_touches_one_block (l : PhysicalLayer)
    (requireReadOnly : bool) (newState : VDOState) :
  let r := (updateVDOSuperBlockState l requireReadOnly newState).1 in
  let l' := (updateVDOSuperBlockState l requireReadOnly newState).2 in
  let pbn := super_block_location l in
  VDO_NOT_READ_ONLY <> VDO_SUCCESS ->
  r = VDO_SUCCESS ->
  writes l'
  = writes l ++ [Extent pbn 1 (reconfigured_block newState (blocks l pbn))]
  /\ (forall b, b <> pbn -> blocks l' b = blocks l b)
  /\ blocks l' pbn
     = take (Z.to_nat VDO_BLOCK_SIZE)
            (reconfigured_block newState (blocks l pbn))
  /\ (forall i : nat,
        (i < Z.to_nat VDO_BLOCK_SIZE)%nat ->
        i <> SUPER_BLOCK_STATE_OFFSET ->
        ~ (SUPER_BLOCK_CHECKSUM_OFFSET <= i
           < SUPER_BLOCK_CHECKSUM_OFFSET + 4)%nat ->
        blocks l' pbn !! i = blocks l pbn !! i).
Proof.
  intros r l' pbn Hcode Hr.
  exact (updateVDOSuperBlockState_success l requireReadOnly newState
           Hcode Hr).
Qed.

(** C8: applying [updateVDOSuperBlockState] with the same state a second
    time, after a first application that succeeded, leaves the super block
    byte-identical to the one the first application left, whatever the
    outcome of the second application.  This holds for every state, so in
    particular for [VDO_FORCE_REBUILD] and [VDO_READ_ONLY_MODE].  (The
    super block found on the device is a block of 4096 bytes.) *)
Theorem updateVDOSuperBlockState_idempotent (l : PhysicalLayer)
    (requireReadOnly : bool) (newState : VDOState) :
  let first := updateVDOSuperBlockState l requireReadOnly newState in
  let second := updateVDOSuperBlockState first.2 requireReadOnly newState in
  let pbn := super_block_location l in
  VDO_NOT_READ_ONLY <> VDO_SUCCESS ->
  length (blocks l pbn) = Z.to_nat VDO_BLOCK_SIZE ->
  first.1 = VDO_SUCCESS ->
  blocks second.2 pbn = blocks first.2 pbn.
Proof.
  intros first second pbn Hcode Hlen Hr.
  destruct (updateVDOSuperBlockState_success
              l requireReadOnly newState Hcode Hr) as (_ & _ & Hnew & _).
  fold first pbn in Hnew.
  rewrite take_ge in Hnew by (rewrite length_reconfigured_block; lia).
  destruct (updateVDOSuperBlockState_cases first.2 requireReadOnly newState)
    as [(Hsame & _)|(m1 & Hb1 & _ & Hrun)].
  - fold second in Hsame. rewrite Hsame. reflexivity.
  - fold second in Hrun.
    pose proof (writer_block_cases
                  m1 (super_block_location first.2)
                  (reconfigured_block newState
                     (blocks first.2 (super_block_location first.2)))
                  pbn) as Hcases.
    rewrite <- Hrun in Hcases. cbn [fst snd] in Hcases.
    destruct Hcases as [Hkeep|[Hloc Hstore]].
    + rewrite Hkeep, Hb1. reflexivity.
    + rewrite Hstore, <- Hloc, Hnew, reconfigured_block_idempotent.
      rewrite block_of_buffer_first.
      apply take_ge. rewrite length_reconfigured_block. lia.
Qed.

(** C4: on a device that holds a loadable VDO (a VDO can be made and
    [prepareSuperBlock] succeeds), [forceVDORebuild] returns
    [VDO_NOT_READ_ONLY] and leaves the device as it is, without a single
    [writer] call, when the persisted state is not [VDO_READ_ONLY_MODE];
    when the persisted state is [VDO_READ_ONLY_MODE] and the device carries
    out the write, it returns [VDO_SUCCESS], writes the super block once,
    and the state byte stored on the device is the tag of
    [VDO_FORCE_REBUILD].  (The super block is a block of 4096 bytes whose
    state byte lies outside its checksum field.) *)
Theorem forceVDORebuild_needs_read_only (l : PhysicalLayer) :
  let prepared := prepareSuperBlock (makeVDO l).2 l in
  let pbn := super_block_location l in
  let r := (forceVDORebuild l).1 in
  let l' := (forceVDORebuild l).2 in
  (makeVDO l).1 = VDO_SUCCESS ->
  prepared.1.1 = VDO_SUCCESS ->
  length (blocks l pbn) = Z.to_nat VDO_BLOCK_SIZE ->
  (SUPER_BLOCK_STATE_OFFSET < Z.to_nat VDO_BLOCK_SIZE)%nat ->
  ~ (SUPER_BLOCK_CHECKSUM_OFFSET <= SUPER_BLOCK_STATE_OFFSET
     < SUPER_BLOCK_CHECKSUM_OFFSET + 4)%nat ->
  (v_state prepared.1.2 <> VDO_READ_ONLY_MODE ->
   r = VDO_NOT_READ_ONLY
   /\ writes l' = writes l
   /\ forall b, blocks l' b = blocks l b)
  /\ (v_state prepared.1.2 = VDO_READ_ONLY_MODE ->
      scripted_result prepared.2 0 = VDO_SUCCESS ->
      r = VDO_SUCCESS
      /\ writes l'
         = writes l
           ++ [Extent pbn 1
                      (reconfigured_block VDO_FORCE_REBUILD (blocks l pbn))]
      /\ (forall b, b <> pbn -> blocks l' b = blocks l b)
      /\ blocks l' pbn !! SUPER_BLOCK_STATE_OFFSET
         = Some (state_tag VDO_FORCE_REBUILD)).
Proof.
  unfold forceVDORebuild, updateVDOSuperBlockState. cbv zeta.
  destruct (makeVDO l) as [r0 vdo0]. cbn [fst snd].
  intros -> Hprep Hlen Hso Hdisj.
  change (failed VDO_SUCCESS) with false. cbv iota.
  destruct (prepareSuperBlock vdo0 l) as [[r1 vdo] l1] eqn:Hrun.
  cbn [fst snd] in *. subst r1.
  destruct (prepareSuperBlock_spec _ _ _ _ _ Hrun) as (Hb & Hw & Hok).
  destruct (Hok eq_refl) as [Hoff Hsb].
  change (failed VDO_SUCCESS) with false. cbv iota.
  unfold inReadOnlyMode. split.
  - intros Hstate. rewrite bool_decide_eq_false_2 by exact Hstate.
    cbn. rewrite Hb. auto.
  - intros Hstate Hscript. rewrite bool_decide_eq_true_2 by exact Hstate.
    cbn [negb andb].
    unfold saveReconfiguredVDO, setVDOState.
    cbn [v_state set_state v_superBlock].
    assert (getFirstBlockOffset (set_state VDO_FORCE_REBUILD vdo)
            = super_block_location l) as -> by exact Hoff.
    rewrite Hsb, Hoff.
    fold (reconfigured_block VDO_FORCE_REBUILD
            (blocks l (super_block_location l))).
    pose proof (writer_result l1 (super_block_location l) 1
                  (reconfigured_block VDO_FORCE_REBUILD
                     (blocks l (super_block_location l)))) as (Hres & _).
    destruct (writer l1 _ 1 _) as [r2 l2] eqn:Hwrite.
    cbn [fst snd] in *.
    assert (r2 = VDO_SUCCESS) as -> by (rewrite Hres; exact Hscript).
    destruct (writer_one_block _ _ _ _ _ Hwrite) as (Hw2 & Hfr & Hst).
    split; [reflexivity|]. split; [rewrite Hw2, Hw; reflexivity|]. split.
    { intros b Hne. rewrite Hfr by exact Hne. rewrite Hb. reflexivity. }
    rewrite (Hst eq_refl), block_of_buffer_first.
    rewrite lookup_take_lt by exact Hso.
    apply lookup_reconfigured_block_state; [|exact Hdisj].
    rewrite Hlen. exact Hso.
Qed.

End ReconfigureFacts.

(** ** The model at work on a small device *)

Example crc32c_check_value :
  crc32c [x31; x32; x33; x34; x35; x36; x37; x38; x39] = 0xE3069283.
Proof. vm_compute. reflexivity. Qed.

Example format_demo_writes :
  map (fun e => (ext_start e, ext_count e)) (writes Demo.formatted)
  = [(0, 1); (3, 2); (5, 2); (7, 2); (11, 4); (2, 1); (0, 1)].
Proof. vm_compute. reflexivity. Qed.

Example format_demo_loads :
  (load_volume_geometry (BC := Demo.base) Demo.formatted).1.1 = VDO_SUCCESS.
Proof. vm_compute. reflexivity. Qed.

Example format_torn_writes :
  let run :=
    formatVDOWithNonce (BC := Demo.base) Demo.config Demo.index
                       Demo.torn_layer 7 [] in
  run.1 = 5
  /\ map (fun e => (ext_start e, ext_count e)) (writes run.2)
     = [(0, 1); (3, 2); (5, 2); (7, 2); (11, 4); (2, 1)].
Proof. vm_compute. split; reflexivity. Qed.

Example force_rebuild_on_new_volume :
  (forceVDORebuild (BC := Demo.base) Demo.formatted).1 = 2050.
Proof. vm_compute. reflexivity. Qed.

Example force_rebuild_after_read_only :
  let run := forceVDORebuild (BC := Demo.base) Demo.read_only in
  run.1 = VDO_SUCCESS /\ blocks run.2 2 !! 20%nat = Some x04.
Proof. vm_compute. split; reflexivity. Qed.

Lemma format_failure_leaves_bad_magic_witness :
  (load_volume_geometry (BC := Demo.base)
     (formatVDOWithNonce (BC := Demo.base) Demo.config Demo.index
                         Demo.torn_layer 7 []).2).1.1
  = @VDO_BAD_MAGIC Demo.base.
Proof.
  refine (proj2 (proj2 (format_failure_leaves_bad_magic
                          (BC := Demo.base) Demo.config Demo.index
                          Demo.torn_layer 7 [] _ _ _ _ _ _))
                _ eq_refl _ _).
  - vm_compute. reflexivity.
  - vm_compute. reflexivity.
  - vm_compute. reflexivity.
  - vm_compute. discriminate.
  - vm_compute. reflexivity.
  - intros H. apply (f_equal length) in H. vm_compute in H. discriminate.
  - vm_compute. reflexivity.
  - vm_compute. reflexivity.
Defined.

Lemma forceVDORebuild_needs_read_only_witness :
  (forceVDORebuild (BC := Demo.base) Demo.formatted).1
  = @VDO_NOT_READ_ONLY Demo.base
  /\ (forceVDORebuild (BC := Demo.base) Demo.read_only).1 = VDO_SUCCESS.
Proof.
  split.
  - refine (proj1 (proj1 (forceVDORebuild_needs_read_only
                            (BC := Demo.base) Demo.formatted _ _ _ _ _) _)).
    + vm_compute. reflexivity.
    + vm_compute. reflexivity.
    + vm_compute. reflexivity.
    + vm_compute. lia.
    + vm_compute. lia.
    + vm_compute. discriminate.
  - refine (proj1 (proj2 (forceVDORebuild_needs_read_only
                            (BC := Demo.base) Demo.read_only _ _ _ _ _)
                         _ _)).
    + vm_compute. reflexivity.
    + vm_compute. reflexivity.
    + vm_compute. reflexivity.
    + vm_compute. lia.
    + vm_compute. lia.
    + vm_compute. reflexivity.
    + vm_compute. reflexivity.
Defined.

Lemma updateVDOSuperBlockState_touches_one_block_witness :
  writes Demo.read_only
  = writes Demo.formatted
    ++ [Extent (super_block_location (BC := Demo.base) Demo.formatted) 1
               (reconfigured_block
                  (BC := Demo.base) VDO_READ_ONLY_MODE
                  (blocks Demo.formatted
                          (super_block_location (BC := Demo.base)
                                                Demo.formatted)))].
Proof.
  refine (proj1 (updateVDOSuperBlockState_touches_one_block
                   (BC := Demo.base) Demo.formatted false
                   VDO_READ_ONLY_MODE _ _)).
  - vm_compute. discriminate.
  - vm_compute. reflexivity.
Defined.

Lemma updateVDOSuperBlockState_idempotent_witness :
  blocks (setVDOReadOnlyMode (BC := Demo.base) Demo.read_only).2
         (super_block_location (BC := Demo.base) Demo.formatted)
  = blocks Demo.read_only
           (super_block_location (BC := Demo.base) Demo.formatted).
Proof.
  refine (updateVDOSuperBlockState_idempotent
            (BC := Demo.base) Demo.formatted false VDO_READ_ONLY_MODE
            _ _ _).
  - vm_compute. discriminate.
  - vm_compute. reflexivity.
  - vm_compute. reflexivity.
Defined.

(** ** Block-map sizing is monotone *)

Section BlockMapFacts.

Lemma compute_bucket_count_mono (a b capacity : Z) :
  0 < capacity -> a <= b ->
  compute_bucket_count a capacity <= compute_bucket_count b capacity.
Proof.
  intros Hc Hab. unfold compute_bucket_count.
  apply Z.div_le_mono; lia.
Qed.

Lemma compute_bucket_count_pos (a capacity : Z) :
  0 < capacity -> 0 < a -> 0 < compute_bucket_count a capacity.
Proof.
  intros Hc Ha. unfold compute_bucket_count.
  apply Z.div_str_pos. lia.
Qed.

Lemma fold_levels_nonneg (fuel : nat) :
  forall pages : Z, 0 <= fold_levels fuel pages.
Proof.
  induction fuel as [|fuel IH]; intros pages; cbn [fold_levels]; [lia|].
  destruct (Z.leb_spec pages 1); [lia|].
  pose proof (compute_bucket_count_pos pages BLOCK_MAP_ENTRIES_PER_PAGE
                ltac:(reflexivity) ltac:(lia)).
  specialize (IH (compute_bucket_count pages BLOCK_MAP_ENTRIES_PER_PAGE)).
  lia.
Qed.

Lemma fold_levels_mono (fuel : nat) :
  forall a b : Z, a <= b -> fold_levels fuel a <= fold_levels fuel b.
Proof.
  induction fuel as [|fuel IH]; intros a b Hab; cbn [fold_levels]; [lia|].
  destruct (Z.leb_spec a 1) as [Ha|Ha].
  - destruct (Z.leb_spec b 1) as [Hb|Hb]; [lia|].
    pose proof (compute_bucket_count_pos b BLOCK_MAP_ENTRIES_PER_PAGE
                  ltac:(reflexivity) ltac:(lia)).
    pose proof (fold_levels_nonneg fuel
                  (compute_bucket_count b BLOCK_MAP_ENTRIES_PER_PAGE)).
    lia.
  - destruct (Z.leb_spec b 1) as [Hb|Hb]; [lia|].
    pose proof (compute_bucket_count_mono a b BLOCK_MAP_ENTRIES_PER_PAGE
                  ltac:(reflexivity) Hab) as Hup.
    specialize (IH _ _ Hup). lia.
Qed.

(** With [fuel] rounds the fold of fewer than [2 ^ fuel] pages has reached
    a single page: more fuel changes nothing. *)
Lemma fold_levels_enough (fuel : nat) :
  forall (pages : Z) (extra : nat),
    pages < 2 ^ Z.of_nat fuel ->
    fold_levels (fuel + extra) pages = fold_levels fuel pages.
Proof.
  induction fuel as [|fuel IH]; intros pages extra Hp.
  - change (2 ^ Z.of_nat 0) with 1 in Hp.
    destruct extra as [|extra]; [reflexivity|]. cbn [Nat.add fold_levels].
    destruct (Z.leb_spec pages 1); [reflexivity|lia].
  - cbn [Nat.add fold_levels].
    destruct (Z.leb_spec pages 1) as [|Hbig]; [reflexivity|].
    f_equal. apply IH.
    rewrite Nat2Z.inj_succ, Z.pow_succ_r in Hp by lia.
    assert (2 <= 2 ^ Z.of_nat fuel) as Hpow.
    { destruct fuel as [|fuel']; [simpl in Hp; lia|].
      rewrite Nat2Z.inj_succ, Z.pow_succ_r by lia.
      pose proof (Z.pow_pos_nonneg 2 (Z.of_nat fuel')
                    ltac:(lia) ltac:(lia)). lia. }
    unfold compute_bucket_count, BLOCK_MAP_ENTRIES_PER_PAGE.
    apply Z.div_lt_upper_bound; lia.
Qed.

(** The 64 rounds of [interior_pages] fold every 64-bit page count down to
    a single page. *)
Lemma interior_pages_fuel (pages : Z) (extra : nat) :
  pages < 2 ^ 64 -> fold_levels (64 + extra) pages = interior_pages pages.
Proof. intros Hp. apply fold_levels_enough. exact Hp. Qed.

Example block_map_leaves_1048576 :
  compute_bucket_count 1048576 BLOCK_MAP_ENTRIES_PER_PAGE = 1292.
Proof. reflexivity. Qed.

Example block_map_page_count_1048576 :
  block_map_page_count 60 1048576 = 1292 + 60 * 1.
Proof. vm_compute. reflexivity. Qed.

Lemma block_map_page_count_mono (root_count L1 L2 : Z) :
  0 < root_count -> L1 <= L2 ->
  block_map_page_count root_count L1 <= block_map_page_count root_count L2.
Proof.
  intros Hroots HL. unfold block_map_page_count, interior_pages.
  pose proof (compute_bucket_count_mono L1 L2 BLOCK_MAP_ENTRIES_PER_PAGE
                ltac:(reflexivity) HL) as Hleaves.
  pose proof (compute_bucket_count_mono _ _ root_count Hroots Hleaves)
    as Hper_root.
  pose proof (fold_levels_mono 64 _ _ Hper_root) as Hfold.
  nia.
Qed.

Context `{BC : BaseCode}.

(** C6: the block-map sizing function is monotone.  For a forest with at
    least one root, a larger number of logical blocks never needs fewer
    block-map pages. *)
Theorem computeBlockMapPageCount_monotone (L1 L2 : Z) :
  0 < DEFAULT_BLOCK_MAP_TREE_ROOT_COUNT ->
  L1 <= L2 ->
  computeBlockMapPageCount L1 <= computeBlockMapPageCount L2.
Proof.
  intros Hroots HL. unfold computeBlockMapPageCount.
  apply block_map_page_count_mono; assumption.
Qed.

End BlockMapFacts.

Lemma computeBlockMapPageCount_monotone_witness :
  computeBlockMapPageCount (BC := Demo.base) 812
  <= computeBlockMapPageCount (BC := Demo.base) 1048576.
Proof.
  apply (computeBlockMapPageCount_monotone (BC := Demo.base) 812 1048576).
  - vm_compute. reflexivity.
  - lia.
Defined.

(** ** The derived logical size *)

Section LogicalBlocks.

Context `{BC : BaseCode}.

(** What [configureVDO] stores when the configuration asks for the
    maximum: the data blocks of all slabs less [compute_forest_size] of
    that number, in 64-bit arithmetic. *)
Lemma configureVDO_derives_logicalBlocks (l : PhysicalLayer) (vdo : VDO) :
  (configureVDO l vdo).1 = VDO_SUCCESS ->
  logicalBlocks (v_config vdo) = 0 ->
  exists depot : slab_depot,
    v_depot (configureVDO l vdo).2 = Some depot
    /\ let slabConfig :=
         (configure_slab (slabSize (v_config vdo))
                         (slabJournalBlocks (v_config vdo))).2 in
       let data := u64 (dataBlocks slabConfig * calculate_slab_count depot) in
       logicalBlocks (v_config (configureVDO l vdo).2)
       = u64 (data - compute_forest_size
                       data DEFAULT_BLOCK_MAP_TREE_ROOT_COUNT).
Proof.
  unfold configureVDO. intros Hr Hzero.
  destruct (makeVDOLayoutFromConfig _ _) as [r1 layout].
  destruct (failed r1) eqn:F1;
    [apply failed_true in F1; cbn in Hr; congruence|].
  cbn [v_nonce v_layout v_config v_completeRecoveries set_layout] in *.
  destruct (failed (make_recovery_journal _ _ _ _ _)) eqn:F2;
    [apply failed_true in F2; cbn in Hr; congruence|].
  destruct (configure_slab _ _) as [r3 slabConfig].
  destruct (failed r3) eqn:F3;
    [apply failed_true in F3; cbn in Hr; congruence|].
  destruct (make_slab_depot _ _ _ _ _) as [r4 depot].
  destruct (failed r4) eqn:F4;
    [apply failed_true in F4; cbn in Hr; congruence|].
  unfold set_depot, set_layout in *.
  cbn [v_config v_layout v_depot] in *.
  rewrite Hzero in *. change (0 =? 0) with true in *. cbv iota in *.
  unfold set_config in *.
  cbn [v_config v_layout v_depot logicalBlocks] in *.
  destruct (failed (make_block_map _ _ _ _)) eqn:F5;
    [apply failed_true in F5; cbn in Hr; congruence|].
  destruct (failed (make_super_block l)) eqn:F6;
    [apply failed_true in F6; cbn in Hr; congruence|].
  exists depot. cbn. auto.
Qed.

(** Whatever monotone forest size is subtracted, the derived size together
    with its own forest fits into the data blocks. *)
Lemma derived_size_fits (forest : Z -> Z) (data : Z) :
  (forall a b, a <= b -> forest a <= forest b) ->
  0 <= forest data ->
  (data - forest data) + forest (data - forest data) <= data.
Proof.
  intros Hmono Hpos. pose proof (Hmono (data - forest data) data). lia.
Qed.

(** With the sizing function of the spec as the forest size, the derived
    size is not always the largest that fits: for 81201 data blocks it is
    81040, and 81041 logical blocks fit as well. *)
Example derived_size_not_largest :
  let forest := block_map_page_count 60 in
  let derived := 81201 - forest 81201 in
  derived = 81040 /\ (derived + 1) + forest (derived + 1) <= 81201.
Proof. vm_compute. split; [reflexivity|discriminate]. Qed.

End LogicalBlocks.

(** ** The user-space allocator *)

Module MemoryFacts.
Import MemoryLinuxUser.

Example allocate_three_bytes :
  let run := uds_allocate_memory 1031 3 8 None 64 Demo.process in
  run.1 = UDS_SUCCESS
  /\ cells run.2 !! 64 = Some 4096
  /\ heap run.2 !! 4096 = Some [x00; x00; x00].
Proof. vm_compute. repeat split; reflexivity. Qed.

Example allocate_zero_bytes :
  let run := uds_allocate_memory 1031 0 8 None 64 Demo.process in
  run.1 = UDS_SUCCESS
  /\ cells run.2 !! 64 = Some NULL
  /\ answers run.2 = answers Demo.process.
Proof. vm_compute. repeat split; reflexivity. Qed.

Example allocate_out_of_memory :
  let run :=
    uds_allocate_memory 1031 3 8 None 64
      (uds_allocate_memory 1031 3 4096 None 72 Demo.process).2 in
  run.1 = -12 /\ cells run.2 !! 64 = None.
Proof. vm_compute. repeat split; reflexivity. Qed.

Lemma drop_fresh_buffer (size : Z) (junk : list byte) :
  drop (Z.to_nat size) (fresh_buffer size junk) = [].
Proof.
  apply drop_ge. unfold fresh_buffer. rewrite length_resize. lia.
Qed.

(** A buffer that was just handed out and then cleared holds zeros
    only. *)
Lemma cleared_fresh_buffer (q size : Z) (junk : list byte)
    (m : gmap Z (list byte)) :
  alter (fun buffer =>
           replicate (Z.to_nat size) x00 ++ drop (Z.to_nat size) buffer)
        q (<[q := fresh_buffer size junk]> m) !! q
  = Some (replicate (Z.to_nat size) x00).
Proof.
  rewrite lookup_alter_eq, lookup_insert_eq. cbn.
  rewrite drop_fresh_buffer, app_nil_r. reflexivity.
Qed.

(** C10: for every alignment and label, a zero-byte request with a
    non-null [ptr] returns [UDS_SUCCESS], stores a null pointer through
    [ptr] and asks the C library for nothing; a null [ptr] returns
    [UDS_INVALID_ARGUMENT] and changes nothing, whatever the size; and
    after a successful request for a non-zero size the pointer stored
    through [ptr] is non-null and addresses [size] zero bytes. *)
Theorem uds_allocate_memory_zero_size_and_zero_fill
    (UDS_INVALID_ARGUMENT align : Z) (what : option (list byte)) :
  (forall (ptr : Z) (p : process),
      ptr <> NULL ->
      let run := uds_allocate_memory UDS_INVALID_ARGUMENT 0 align what ptr p in
      run.1 = UDS_SUCCESS
      /\ cells run.2 !! ptr = Some NULL
      /\ heap run.2 = heap p
      /\ answers run.2 = answers p)
  /\ (forall (size : Z) (p : process),
        uds_allocate_memory UDS_INVALID_ARGUMENT size align what NULL p
        = (UDS_INVALID_ARGUMENT, p))
  /\ (forall (size ptr : Z) (p : process),
        size <> 0 ->
        ptr <> NULL ->
        let run :=
          uds_allocate_memory UDS_INVALID_ARGUMENT size align what ptr p in
        run.1 = UDS_SUCCESS ->
        exists q : Z,
          q <> NULL
          /\ cells run.2 !! ptr = Some q
          /\ heap run.2 !! q = Some (replicate (Z.to_nat size) x00)).
Proof.
  split; [|split].
  - intros ptr p Hptr. unfold uds_allocate_memory.
    destruct (Z.eqb_spec ptr NULL) as [|_]; [contradiction|].
    cbn. rewrite lookup_insert_eq. auto.
  - intros size p. reflexivity.
  - intros size ptr p Hsize Hptr. unfold uds_allocate_memory.
    destruct (Z.eqb_spec ptr NULL) as [|_]; [contradiction|].
    destruct (Z.eqb_spec size 0) as [|_]; [contradiction|].
    destruct (align >? DEFAULT_MALLOC_ALIGNMENT).
    + unfold posix_memalign.
      destruct (answers p) as [|[address junk|error] rest]; cbn;
        try discriminate.
      intros _. exists (Z.pos address). split; [discriminate|].
      split; [apply lookup_insert_eq|].
      apply cleared_fresh_buffer.
    + unfold malloc.
      destruct (answers p) as [|[address junk|error] rest]; cbn;
        try discriminate.
      intros _. exists (Z.pos address). split; [discriminate|].
      split; [apply lookup_insert_eq|].
      apply cleared_fresh_buffer.
Qed.

End MemoryFacts.

(** * More on the format driver and on partition clearing *)

Section ClearEdges.

(** X5: When the zero buffer cannot be allocated, [clearPartition] hands
    back the allocator's code and never calls the writer. *)
Theorem clearPartition_allocation_failure (l : PhysicalLayer)
    (layout : vdo_layout) (id : PartitionID) :
  scripted_result l 0 <> VDO_SUCCESS ->
  (clearPartition l layout id).1 = scripted_result l 0
  /\ writes (clearPartition l layout id).2 = writes l
  /\ blocks (clearPartition l layout id).2 = blocks l.
Proof.
  intros Hfail.
  destruct (clearPartition_run l layout id) as [_ Hrun]. cbv zeta in Hrun.
  rewrite Hrun. clear Hrun.
  destruct (allocateIOBuffer l _) as [[res buf] l1] eqn:Halloc.
  destruct (allocateIOBuffer_spec _ _ _ _ _ Halloc)
    as (Hres & _ & Hb & Hw & _).
  assert (failed res = true) as -> by (apply failed_true; congruence).
  cbn. auto.
Qed.

Lemma clearPartition_allocation_failure_witness :
  (clearPartition (mkLayer 16 (fun _ => zero_block) [IoOutcome 12 0] [])
                  Demo.layout BLOCK_MAP_PARTITION).1 = 12.
Proof.
  apply (clearPartition_allocation_failure
           (mkLayer 16 (fun _ => zero_block) [IoOutcome 12 0] [])
           Demo.layout BLOCK_MAP_PARTITION).
  vm_compute. discriminate.
Defined.

(** X6: The write loop of [clearPartition] does not run at all for an
    empty partition, nor for one whose end [start + size] wraps around 64
    bits: the call then reports success without a single write. For the
    empty partition it has asked for the largest buffer, 4096 blocks. *)
Theorem clearPartition_writes_nothing (l : PhysicalLayer)
    (layout : vdo_layout) (id : PartitionID) :
  let size := get_fixed_layout_partition_size (get_vdo_partition layout id) in
  let start :=
    get_fixed_layout_partition_offset (get_vdo_partition layout id) in
  scripted_result l 0 = VDO_SUCCESS ->
  size = 0 \/ 2 ^ 64 <= start + size ->
  (clearPartition l layout id).1 = VDO_SUCCESS
  /\ writes (clearPartition l layout id).2 = writes l
  /\ blocks (clearPartition l layout id).2 = blocks l
  /\ outcomes (clearPartition l layout id).2 = drop 1 (outcomes l)
  /\ (size = 0 -> bufferBlocks_of size = 4096).
Proof.
  cbv zeta. intros Hok Hedge.
  destruct (clearPartition_run l layout id) as [_ Hrun]. cbv zeta in Hrun.
  rewrite Hrun. clear Hrun.
  destruct (allocateIOBuffer l _) as [[res buf] l1] eqn:Halloc.
  destruct (allocateIOBuffer_spec _ _ _ _ _ Halloc)
    as (Hres & _ & Hb & Hw & Ho & _).
  assert (failed res = false) as -> by (apply failed_false; congruence).
  assert (forall s, s = 0 -> bufferBlocks_of s = 4096) as Hbuf
    by (intros s ->; reflexivity).
  destruct (_ <? 2 ^ 64) eqn:Hfit.
  - destruct Hedge as [Hz | Hwrap]; [|apply Z.ltb_lt in Hfit; lia].
    rewrite Hz. change (Z.to_nat (0 / bufferBlocks_of 0)) with 0%nat.
    cbn [write_chunks fst snd]. repeat split; auto.
  - cbn [fst snd]. repeat split; auto.
Qed.

Lemma clearPartition_writes_nothing_witness :
  writes
    (clearPartition Demo.layer
       (mkLayout (fun _ => mkPartition (2 ^ 64 - 4) 8))
       BLOCK_MAP_PARTITION).2
  = [].
Proof.
  apply (clearPartition_writes_nothing Demo.layer
           (mkLayout (fun _ => mkPartition (2 ^ 64 - 4) 8))
           BLOCK_MAP_PARTITION).
  - reflexivity.
  - right. vm_compute. discriminate.
Defined.

End ClearEdges.

Section FormatExtras.

Context `{BC : BaseCode}.

Lemma saveVDOComponents_stores (vdo : VDO) (l : PhysicalLayer) (r : Z)
    (l' : PhysicalLayer) :
  saveVDOComponents vdo l = (r, l') ->
  r = VDO_SUCCESS ->
  blocks l' (getFirstBlockOffset vdo)
  = block_of_buffer (encode_super_block vdo).2 0.
Proof.
  unfold saveVDOComponents. destruct (encode_super_block vdo) as [r0 block].
  destruct (failed r0) eqn:F0.
  { intros H Hr. inversion H; subst. apply failed_true in F0. congruence. }
  intros H Hr. destruct (writer_one_block _ _ _ _ _ H) as (_ & _ & Hst).
  exact (Hst Hr).
Qed.

Lemma write_volume_geometry_blocks (l : PhysicalLayer)
    (geometry : volume_geometry) (r : Z) (l' : PhysicalLayer) :
  write_volume_geometry l geometry = (r, l') ->
  (forall b, b <> GEOMETRY_BLOCK_LOCATION -> blocks l' b = blocks l b)
  /\ (r = VDO_SUCCESS ->
      blocks l' GEOMETRY_BLOCK_LOCATION
      = block_of_buffer (encode_volume_geometry geometry).2 0).
Proof.
  unfold write_volume_geometry.
  destruct (allocateIOBuffer l VDO_BLOCK_SIZE) as [[r0 buf] l1] eqn:Halloc.
  destruct (allocateIOBuffer_spec _ _ _ _ _ Halloc) as (_ & _ & Hb & _).
  destruct (failed r0) eqn:F0.
  { intros H. inversion H; subst. apply failed_true in F0.
    rewrite Hb. split; [reflexivity|congruence]. }
  destruct (encode_volume_geometry geometry) as [r1 block].
  destruct (failed r1) eqn:F1.
  { intros H. inversion H; subst. apply failed_true in F1.
    rewrite Hb. split; [reflexivity|congruence]. }
  intros H. destruct (writer_one_block _ _ _ _ _ H) as (_ & Hfr & Hst).
  split; [|exact Hst]. intros b Hne. rewrite Hfr by exact Hne.
  rewrite Hb. reflexivity.
Qed.

(** What one [clearPartition] does to the blocks of the device. *)
Lemma clearPartition_blocks (l : PhysicalLayer) (layout : vdo_layout)
    (id : PartitionID) (r : Z) (l' : PhysicalLayer) :
  clearPartition l layout id = (r, l') ->
  (forall b, ~ in_partition layout id b -> blocks l' b = blocks l b)
  /\ (forall b, blocks l b = zero_block -> blocks l' b = zero_block)
  /\ (r = VDO_SUCCESS -> partition_fits layout id ->
      forall b, in_partition layout id b -> blocks l' b = zero_block).
Proof.
  intros Hrun. pose proof (clearPartition_effect l layout id) as H.
  cbv zeta in H. rewrite Hrun in H. cbn [fst snd] in H.
  destruct H as (n & Hle & _ & _ & _ & _ & _ & Hfr & Hz & Hok & _).
  unfold in_partition, partition_fits. cbv zeta.
  split; [|split; [exact Hz|]].
  - intros b Hout. apply Hfr. lia.
  - intros Hr Hfit b Hin. destruct (Hok Hr) as [_ Hall].
    destruct (Hall Hfit) as [_ Hzero]. apply Hzero. exact Hin.
Qed.

Lemma makeAndWriteVDO_blocks (config : VDOConfig) (l : PhysicalLayer)
    (geometry : volume_geometry) (r : Z) (l' : PhysicalLayer) :
  makeAndWriteVDO config l geometry = (r, l') ->
  let vdo := configured_vdo config l geometry in
  (forall b,
      ~ in_partition (v_layout vdo) BLOCK_MAP_PARTITION b ->
      ~ in_partition (v_layout vdo) RECOVERY_JOURNAL_PARTITION b ->
      b <> get_data_region_offset geometry ->
      blocks l' b = blocks l b)
  /\ (r = VDO_SUCCESS ->
      blocks l' (get_data_region_offset geometry)
      = block_of_buffer (encode_super_block vdo).2 0
      /\ forall id b,
          id = BLOCK_MAP_PARTITION \/ id = RECOVERY_JOURNAL_PARTITION ->
          partition_fits (v_layout vdo) id ->
          in_partition (v_layout vdo) id b ->
          b <> get_data_region_offset geometry ->
          blocks l' b = zero_block).
Proof.
  unfold makeAndWriteVDO, configured_vdo. intros Hrun.
  destruct (makeVDO l) as [r0 vdo0]. cbn [snd].
  destruct (failed r0) eqn:F0.
  { inversion Hrun; subst. apply failed_true in F0.
    split; [reflexivity|congruence]. }
  destruct (configureVDO l _) as [r1 vdo] eqn:Hconf. cbn [snd].
  destruct (failed r1) eqn:F1.
  { inversion Hrun; subst. apply failed_true in F1.
    split; [reflexivity|congruence]. }
  assert (getFirstBlockOffset vdo = get_data_region_offset geometry) as Hoff.
  { pose proof (configureVDO_firstBlockOffset l
                  (set_firstBlockOffset (get_data_region_offset geometry)
                     (set_nonce (geometry_nonce geometry)
                        (set_config config vdo0)))) as H.
    rewrite Hconf in H. cbn in H. unfold getFirstBlockOffset. rewrite H.
    unfold get_data_region_offset, u64. apply Z.mod_mod. lia. }
  destruct (clearPartition l (v_layout vdo) BLOCK_MAP_PARTITION)
    as [r2 l2] eqn:Hbm.
  destruct (clearPartition_blocks _ _ _ _ _ Hbm) as (Hfr2 & Hz2 & Hok2).
  destruct (failed r2) eqn:F2.
  { inversion Hrun; subst. apply failed_true in F2.
    split; [auto|congruence]. }
  apply failed_false in F2.
  destruct (clearPartition l2 (v_layout vdo) RECOVERY_JOURNAL_PARTITION)
    as [r3 l3] eqn:Hrj.
  destruct (clearPartition_blocks _ _ _ _ _ Hrj) as (Hfr3 & Hz3 & Hok3).
  destruct (failed r3) eqn:F3.
  { inversion Hrun; subst. apply failed_true in F3.
    split; [|congruence]. intros b H1 H2 _.
    rewrite Hfr3, Hfr2 by assumption. reflexivity. }
  apply failed_false in F3.
  destruct (saveVDOComponents vdo l3) as [r4 l4] eqn:Hsave.
  destruct (saveVDOComponents_spec _ _ _ _ Hsave) as (_ & _ & _ & _ & Hfr4).
  pose proof (saveVDOComponents_stores _ _ _ _ Hsave) as Hst4.
  rewrite Hoff in Hfr4, Hst4.
  assert (r = r4 /\ l' = l4) as [-> ->]
    by (destruct (failed r4) eqn:F4; inversion Hrun; subst;
        [|apply failed_false in F4]; auto).
  split.
  - intros b H1 H2 H3.
    rewrite Hfr4, Hfr3, Hfr2 by assumption. reflexivity.
  - intros Hr. split; [exact (Hst4 Hr)|].
    intros id b [-> | ->] Hfit Hin Hne; rewrite Hfr4 by exact Hne.
    + apply Hz3. apply Hok2; assumption.
    + apply Hok3; assumption.
Qed.

(** X2: The footprint of a format: whatever happens, a block that is
    neither PBN 0, nor the data-region origin, nor inside the block map or
    the recovery journal partition keeps its contents. In particular the
    block allocator and slab summary partitions are never written. *)
Theorem formatVDOWithNonce_footprint (config : VDOConfig)
    (indexConfig : index_config) (l : PhysicalLayer) (nonce : Z)
    (uuid : list byte) (b : Z) :
  let geometry := (initialize_volume_geometry nonce uuid indexConfig).2 in
  let l1 := (clear_volume_geometry l).2 in
  let vdo := configured_vdo config l1 geometry in
  let l' := (formatVDOWithNonce config indexConfig l nonce uuid).2 in
  b <> GEOMETRY_BLOCK_LOCATION ->
  b <> get_data_region_offset geometry ->
  ~ in_partition (v_layout vdo) BLOCK_MAP_PARTITION b ->
  ~ in_partition (v_layout vdo) RECOVERY_JOURNAL_PARTITION b ->
  blocks l' b = blocks l b.
Proof.
  unfold formatVDOWithNonce. cbv zeta.
  destruct (failed register_status_codes); [reflexivity|].
  destruct (failed (validateVDOConfig config (getBlockCount l) false));
    [reflexivity|].
  destruct (initialize_volume_geometry nonce uuid indexConfig)
    as [r2 geometry]. cbn [fst snd].
  destruct (failed r2); [reflexivity|].
  destruct (clear_volume_geometry l) as [r3 l1] eqn:Hclear. cbn [fst snd].
  destruct (clear_volume_geometry_spec _ _ _ Hclear) as (_ & _ & _ & Hfr3 & _).
  intros H0 Hd Hbm Hrj.
  destruct (failed r3); [cbn [snd]; apply Hfr3; exact H0|].
  destruct (makeAndWriteVDO config l1 geometry) as [r4 l2] eqn:Hmake.
  destruct (makeAndWriteVDO_blocks _ _ _ _ _ Hmake) as (Hfr4 & _).
  destruct (failed r4).
  { cbn [snd]. rewrite Hfr4 by assumption. apply Hfr3. exact H0. }
  destruct (write_volume_geometry l2 geometry) as [r5 l3] eqn:Hgeo.
  destruct (write_volume_geometry_blocks _ _ _ _ Hgeo) as (Hfr5 & _).
  cbn [snd]. rewrite Hfr5, Hfr4 by assumption. apply Hfr3. exact H0.
Qed.

(** X3: What a successful format leaves on the device: the encoded
    geometry at PBN 0, the encoded super block at the data-region origin,
    and zero blocks throughout the block map and recovery journal
    partitions. *)
Theorem formatVDOWithNonce_success_contents (config : VDOConfig)
    (indexConfig : index_config) (l : PhysicalLayer) (nonce : Z)
    (uuid : list byte) :
  let geometry := (initialize_volume_geometry nonce uuid indexConfig).2 in
  let l1 := (clear_volume_geometry l).2 in
  let vdo := configured_vdo config l1 geometry in
  let r := (formatVDOWithNonce config indexConfig l nonce uuid).1 in
  let l' := (formatVDOWithNonce config indexConfig l nonce uuid).2 in
  r = VDO_SUCCESS ->
  blocks l' GEOMETRY_BLOCK_LOCATION
  = block_of_buffer (encode_volume_geometry geometry).2 0
  /\ (get_data_region_offset geometry <> GEOMETRY_BLOCK_LOCATION ->
      blocks l' (get_data_region_offset geometry)
      = block_of_buffer (encode_super_block vdo).2 0)
  /\ forall id b,
      id = BLOCK_MAP_PARTITION \/ id = RECOVERY_JOURNAL_PARTITION ->
      partition_fits (v_layout vdo) id ->
      in_partition (v_layout vdo) id b ->
      b <> GEOMETRY_BLOCK_LOCATION ->
      b <> get_data_region_offset geometry ->
      blocks l' b = zero_block.
Proof.
  unfold formatVDOWithNonce. cbv zeta.
  destruct (failed register_status_codes) eqn:F0;
    [apply failed_true in F0; cbn; congruence|].
  destruct (failed (validateVDOConfig config (getBlockCount l) false)) eqn:F1;
    [apply failed_true in F1; cbn; congruence|].
  destruct (initialize_volume_geometry nonce uuid indexConfig)
    as [r2 geometry]. cbn [fst snd].
  destruct (failed r2) eqn:F2; [apply failed_true in F2; cbn; congruence|].
  destruct (clear_volume_geometry l) as [r3 l1] eqn:Hclear. cbn [fst snd].
  destruct (failed r3) eqn:F3; [apply failed_true in F3; cbn; congruence|].
  destruct (makeAndWriteVDO config l1 geometry) as [r4 l2] eqn:Hmake.
  destruct (makeAndWriteVDO_blocks _ _ _ _ _ Hmake) as (_ & Hok4).
  destruct (failed r4) eqn:F4; [apply failed_true in F4; cbn; congruence|].
  apply failed_false in F4. destruct (Hok4 F4) as [Hsb Hzero].
  destruct (write_volume_geometry l2 geometry) as [r5 l3] eqn:Hgeo.
  destruct (write_volume_geometry_blocks _ _ _ _ Hgeo) as (Hfr5 & Hst5).
  cbn [fst snd]. intros Hr. split; [exact (Hst5 Hr)|]. split.
  - intros Hne. rewrite Hfr5 by exact Hne. exact Hsb.
  - intros id b Hid Hfit Hin H0 Hd. rewrite Hfr5 by exact H0.
    exact (Hzero id b Hid Hfit Hin Hd).
Qed.


Lemma configureVDO_facts (l : PhysicalLayer) (vdo : VDO) :
  let run := configureVDO l vdo in
  (run.1 = VDO_SUCCESS -> v_state run.2 = VDO_NEW)
  /\ (run.1 <> VDO_SUCCESS -> v_state run.2 = v_state vdo)
  /\ (logicalBlocks (v_config vdo) <> 0 -> v_config run.2 = v_config vdo)
  /\ physicalBlocks (v_config run.2) = physicalBlocks (v_config vdo)
  /\ slabSize (v_config run.2) = slabSize (v_config vdo)
  /\ recoveryJournalSize (v_config run.2)
     = recoveryJournalSize (v_config vdo)
  /\ slabJournalBlocks (v_config run.2) = slabJournalBlocks (v_config vdo)
  /\ v_nonce run.2 = v_nonce vdo.
Proof.
  unfold configureVDO. cbv zeta.
  destruct (makeVDOLayoutFromConfig _ _) as [r1 layout].
  destruct (failed r1) eqn:F1.
  { apply failed_true in F1. cbn. repeat split; auto; congruence. }
  cbn [v_nonce v_layout v_config v_completeRecoveries set_layout].
  destruct (failed (make_recovery_journal _ _ _ _ _)) eqn:F2.
  { apply failed_true in F2. cbn. repeat split; auto; congruence. }
  destruct (configure_slab _ _) as [r3 slabConfig].
  destruct (failed r3) eqn:F3.
  { apply failed_true in F3. cbn. repeat split; auto; congruence. }
  destruct (make_slab_depot _ _ _ _ _) as [r4 depot].
  destruct (failed r4) eqn:F4.
  { apply failed_true in F4. cbn. repeat split; auto; congruence. }
  unfold set_depot, set_layout.
  cbn [v_config v_layout v_depot].
  destruct (logicalBlocks (v_config vdo) =? 0) eqn:Hzero.
  - apply Z.eqb_eq in Hzero. unfold set_config.
    cbn [v_config v_layout v_depot logicalBlocks].
    destruct (failed (make_block_map _ _ _ _)) eqn:F5.
    { apply failed_true in F5. cbn. repeat split; auto; congruence. }
    destruct (failed (make_super_block l)) eqn:F6.
    { apply failed_true in F6. cbn. repeat split; auto; congruence. }
    cbn. repeat split; auto; congruence.
  - apply Z.eqb_neq in Hzero.
    cbn [v_config v_layout v_depot logicalBlocks].
    destruct (failed (make_block_map _ _ _ _)) eqn:F5.
    { apply failed_true in F5. cbn. repeat split; auto; congruence. }
    destruct (failed (make_super_block l)) eqn:F6.
    { apply failed_true in F6. cbn. repeat split; auto; congruence. }
    cbn. repeat split; auto; congruence.
Qed.

(** X4: [configureVDO] marks the VDO as new only when every step
    succeeded; a failed configuration leaves the state alone. Of the
    configuration only a zero [logicalBlocks] is ever replaced. *)
Theorem configureVDO_state_and_config (l : PhysicalLayer) (vdo : VDO) :
  let run := configureVDO l vdo in
  (run.1 = VDO_SUCCESS -> v_state run.2 = VDO_NEW)
  /\ (run.1 <> VDO_SUCCESS -> v_state run.2 = v_state vdo)
  /\ (logicalBlocks (v_config vdo) <> 0 -> v_config run.2 = v_config vdo)
  /\ physicalBlocks (v_config run.2) = physicalBlocks (v_config vdo)
  /\ slabSize (v_config run.2) = slabSize (v_config vdo)
  /\ recoveryJournalSize (v_config run.2)
     = recoveryJournalSize (v_config vdo)
  /\ slabJournalBlocks (v_config run.2) = slabJournalBlocks (v_config vdo)
  /\ v_nonce run.2 = v_nonce vdo.
Proof. apply configureVDO_facts. Qed.


End FormatExtras.

Lemma formatVDOWithNonce_footprint_witness :
  blocks Demo.formatted 9 = blocks Demo.layer 9.
Proof.
  apply (formatVDOWithNonce_footprint (BC := Demo.base) Demo.config
           Demo.index Demo.layer 7 [] 9);
    vm_compute; intuition discriminate.
Defined.

Lemma formatVDOWithNonce_success_contents_witness :
  blocks Demo.formatted 0
  = block_of_buffer (MAGIC_NUMBER ++ replicate 4088 x00) 0.
Proof.
  apply (formatVDOWithNonce_success_contents (BC := Demo.base) Demo.config
           Demo.index Demo.layer 7 []).
  vm_compute. reflexivity.
Defined.


Section ReconfigureExtras.

Context `{BC : BaseCode}.

(** X7: On a device whose PBN 0 is a zero block (never formatted, or left
    so by a format that failed), neither state change gets past the
    geometry check: the call answers [VDO_BAD_MAGIC] and the device is not
    written. *)
Theorem updateVDOSuperBlockState_unformatted (l : PhysicalLayer)
    (requireReadOnly : bool) (newState : VDOState) :
  let r := (updateVDOSuperBlockState l requireReadOnly newState).1 in
  let l' := (updateVDOSuperBlockState l requireReadOnly newState).2 in
  (makeVDO l).1 = VDO_SUCCESS ->
  VDO_BAD_MAGIC <> VDO_SUCCESS ->
  blocks l GEOMETRY_BLOCK_LOCATION = zero_block ->
  scripted_result l 0 = VDO_SUCCESS ->
  scripted_result l 1 = VDO_SUCCESS ->
  r = VDO_BAD_MAGIC /\ writes l' = writes l /\ blocks l' = blocks l.
Proof.
  unfold updateVDOSuperBlockState. cbv zeta.
  destruct (makeVDO l) as [r0 vdo0]. cbn [fst snd].
  intros -> Hmagic Hzero H0 H1.
  change (failed VDO_SUCCESS) with false. cbv iota.
  pose proof (load_volume_geometry_zero_block l Hzero H0 H1) as Hload.
  pose proof (load_volume_geometry_reads l) as [Hb Hw].
  unfold prepareSuperBlock.
  destruct (load_volume_geometry l) as [[r1 geometry] l1].
  cbn [fst snd] in *. subst r1.
  assert (failed VDO_BAD_MAGIC = true) as Hf
    by (apply failed_true; exact Hmagic).
  rewrite Hf. cbv iota. rewrite Hf. cbn [fst snd]. auto.
Qed.

(** X8: [setVDOReadOnlyMode] asks nothing of the stored state: once the
    volume loads and the write goes through, the super block carries the
    read-only tag whatever state it held before, and no other block has
    changed. *)
Theorem setVDOReadOnlyMode_from_any_state (l : PhysicalLayer) :
  let prepared := prepareSuperBlock (makeVDO l).2 l in
  let pbn := super_block_location l in
  let r := (setVDOReadOnlyMode l).1 in
  let l' := (setVDOReadOnlyMode l).2 in
  (makeVDO l).1 = VDO_SUCCESS ->
  prepared.1.1 = VDO_SUCCESS ->
  scripted_result prepared.2 0 = VDO_SUCCESS ->
  length (blocks l pbn) = Z.to_nat VDO_BLOCK_SIZE ->
  (SUPER_BLOCK_STATE_OFFSET < Z.to_nat VDO_BLOCK_SIZE)%nat ->
  ~ (SUPER_BLOCK_CHECKSUM_OFFSET <= SUPER_BLOCK_STATE_OFFSET
     < SUPER_BLOCK_CHECKSUM_OFFSET + 4)%nat ->
  r = VDO_SUCCESS
  /\ writes l'
     = writes l
       ++ [Extent pbn 1 (reconfigured_block VDO_READ_ONLY_MODE
                                            (blocks l pbn))]
  /\ (forall b, b <> pbn -> blocks l' b = blocks l b)
  /\ blocks l' pbn !! SUPER_BLOCK_STATE_OFFSET
     = Some (state_tag VDO_READ_ONLY_MODE).
Proof.
  unfold setVDOReadOnlyMode, updateVDOSuperBlockState. cbv zeta.
  destruct (makeVDO l) as [r0 vdo0]. cbn [fst snd].
  intros -> Hprep Hscript Hlen Hso Hdisj.
  change (failed VDO_SUCCESS) with false. cbv iota.
  destruct (prepareSuperBlock vdo0 l) as [[r1 vdo] l1] eqn:Hrun.
  cbn [fst snd] in *. subst r1.
  destruct (prepareSuperBlock_spec _ _ _ _ _ Hrun) as (Hb & Hw & Hok).
  destruct (Hok eq_refl) as [Hoff Hsb].
  change (failed VDO_SUCCESS) with false. cbv iota.
  cbn [andb].
  unfold saveReconfiguredVDO, setVDOState.
  cbn [v_state set_state v_superBlock].
  assert (getFirstBlockOffset (set_state VDO_READ_ONLY_MODE vdo)
          = super_block_location l) as -> by exact Hoff.
  rewrite Hsb, Hoff.
  fold (reconfigured_block VDO_READ_ONLY_MODE
          (blocks l (super_block_location l))).
  pose proof (writer_result l1 (super_block_location l) 1
                (reconfigured_block VDO_READ_ONLY_MODE
                   (blocks l (super_block_location l)))) as (Hres & _).
  destruct (writer l1 _ 1 _) as [r2 l2] eqn:Hwrite.
  cbn [fst snd] in *.
  assert (r2 = VDO_SUCCESS) as -> by (rewrite Hres; exact Hscript).
  destruct (writer_one_block _ _ _ _ _ Hwrite) as (Hw2 & Hfr & Hst).
  split; [reflexivity|]. split; [rewrite Hw2, Hw; reflexivity|]. split.
  { intros b Hne. rewrite Hfr by exact Hne. rewrite Hb. reflexivity. }
  rewrite (Hst eq_refl), block_of_buffer_first.
  rewrite lookup_take_lt by exact Hso.
  apply lookup_reconfigured_block_state; [|exact Hdisj].
  rewrite Hlen. exact Hso.
Qed.

Lemma load_volume_geometry_decodes (l : PhysicalLayer) :
  (load_volume_geometry l).1.1 = VDO_SUCCESS ->
  take 8 (blocks l GEOMETRY_BLOCK_LOCATION) = MAGIC_NUMBER ->
  (load_volume_geometry l).1.2
  = (decode_volume_geometry (blocks l GEOMETRY_BLOCK_LOCATION)).2.
Proof.
  unfold load_volume_geometry.
  pose proof (allocateIOBuffer_spec l VDO_BLOCK_SIZE) as Ha.
  destruct (allocateIOBuffer l VDO_BLOCK_SIZE) as [[res buf] l0].
  destruct (Ha res buf l0 eq_refl) as (_ & _ & Hb0 & _).
  destruct (failed res) eqn:F0.
  { apply failed_true in F0. cbn. congruence. }
  pose proof (read_one_block l0 GEOMETRY_BLOCK_LOCATION) as Hd.
  destruct (reader l0 GEOMETRY_BLOCK_LOCATION 1) as [[res' data] l2].
  destruct (failed res') eqn:F1.
  { apply failed_true in F1. cbn. congruence. }
  apply failed_false in F1. rewrite (Hd _ _ _ eq_refl F1), Hb0.
  intros Hok Hmagic. revert Hok.
  rewrite bool_decide_eq_true_2 by exact Hmagic. cbn [negb].
  destruct (decode_volume_geometry (blocks l GEOMETRY_BLOCK_LOCATION))
    as [r2 geometry].
  destruct (failed r2); [reflexivity|].
  destruct (get_data_region_offset geometry =? 0); reflexivity.
Qed.

Lemma prepareSuperBlock_loads_state (vdo0 : VDO) (l : PhysicalLayer)
    (vdo : VDO) (l1 : PhysicalLayer) :
  prepareSuperBlock vdo0 l = (VDO_SUCCESS, vdo, l1) ->
  (load_volume_geometry l).1.1 = VDO_SUCCESS
  /\ v_state vdo
     = component_state (decode_vdo_component (v_superBlock vdo)).2.
Proof.
  unfold prepareSuperBlock.
  destruct (load_volume_geometry l) as [[r0 geometry] l0]. cbn [fst snd].
  destruct (failed r0) eqn:F0.
  { apply failed_true in F0. intros [= ? ? ?]. congruence. }
  apply failed_false in F0.
  destruct (load_super_block l0 _ _) as [[r1 vdo1] l2].
  destruct (failed r1) eqn:F1.
  { apply failed_true in F1. intros [= ? ? ?]. congruence. }
  destruct (failed (validateVDOVersion vdo1)) eqn:F2.
  { apply failed_true in F2. intros [= ? ? ?]. congruence. }
  unfold decodeVDOComponent.
  destruct (decode_vdo_component (v_superBlock vdo1)) as [r3 component]
    eqn:Hdec.
  destruct (failed r3) eqn:F3.
  { apply failed_true in F3. intros [= ? ? ?]. congruence. }
  intros [= <- <-]. split; [exact F0|]. cbn. rewrite Hdec. reflexivity.
Qed.

Lemma makeAndWriteVDO_configured (config : VDOConfig) (l : PhysicalLayer)
    (geometry : volume_geometry) :
  (makeAndWriteVDO config l geometry).1 = VDO_SUCCESS ->
  v_state (configured_vdo config l geometry) = VDO_NEW.
Proof.
  unfold makeAndWriteVDO, configured_vdo.
  destruct (makeVDO l) as [r0 vdo0]. cbn [snd].
  destruct (failed r0) eqn:F0.
  { apply failed_true in F0. cbn. congruence. }
  pose proof (configureVDO_facts l
                (set_firstBlockOffset (get_data_region_offset geometry)
                   (set_nonce (geometry_nonce geometry)
                      (set_config config vdo0)))) as Hfacts.
  cbv zeta in Hfacts. destruct Hfacts as (Hnew & _).
  destruct (configureVDO l _) as [r1 vdo]. cbn [fst snd] in *.
  destruct (failed r1) eqn:F1.
  { apply failed_true in F1. cbn. congruence. }
  apply failed_false in F1. intros _. exact (Hnew F1).
Qed.

(** X26: A freshly formatted volume is new, not read-only: when the
    format succeeded and the volume loads again (its geometry block
    opens with the magic number and decodes to the same data-region
    origin, its super block decodes to the state that was encoded), the
    loaded state is [VDO_NEW], so [forceVDORebuild] answers
    [VDO_NOT_READ_ONLY] and writes nothing. *)
Theorem forceVDORebuild_refuses_new_volume (config : VDOConfig)
    (indexConfig : index_config) (l : PhysicalLayer) (nonce : Z)
    (uuid : list byte) :
  let geometry := (initialize_volume_geometry nonce uuid indexConfig).2 in
  let vdo := configured_vdo config (clear_volume_geometry l).2 geometry in
  let formatted := formatVDOWithNonce config indexConfig l nonce uuid in
  let geometry_block :=
    block_of_buffer (encode_volume_geometry geometry).2 0 in
  let super_block := block_of_buffer (encode_super_block vdo).2 0 in
  let prepared := prepareSuperBlock (makeVDO formatted.2).2 formatted.2 in
  formatted.1 = VDO_SUCCESS ->
  get_data_region_offset geometry <> GEOMETRY_BLOCK_LOCATION ->
  take 8 geometry_block = MAGIC_NUMBER ->
  get_data_region_offset (decode_volume_geometry geometry_block).2
  = get_data_region_offset geometry ->
  component_state (decode_vdo_component super_block).2 = v_state vdo ->
  (makeVDO formatted.2).1 = VDO_SUCCESS ->
  prepared.1.1 = VDO_SUCCESS ->
  v_state prepared.1.2 = VDO_NEW
  /\ (forceVDORebuild formatted.2).1 = VDO_NOT_READ_ONLY
  /\ writes (forceVDORebuild formatted.2).2 = writes formatted.2
  /\ blocks (forceVDORebuild formatted.2).2 = blocks formatted.2.
Proof.
  cbv zeta. intros Hfmt Horigin Hmagic Hgeo Hstate Hmake Hprep.
  set (l' := (formatVDOWithNonce config indexConfig l nonce uuid).2) in *.
  (* what the format left on the device *)
  assert (blocks l' GEOMETRY_BLOCK_LOCATION
          = block_of_buffer
              (encode_volume_geometry
                 (initialize_volume_geometry nonce uuid indexConfig).2).2 0
          /\ blocks l' (get_data_region_offset
                          (initialize_volume_geometry nonce uuid
                                                      indexConfig).2)
             = block_of_buffer
                 (encode_super_block
                    (configured_vdo config (clear_volume_geometry l).2
                       (initialize_volume_geometry nonce uuid
                                                   indexConfig).2)).2 0
          /\ v_state (configured_vdo config (clear_volume_geometry l).2
                        (initialize_volume_geometry nonce uuid
                                                    indexConfig).2)
             = VDO_NEW) as (Hb0 & Hsb & Hnew).
  { subst l'. revert Hfmt Horigin. clear. unfold formatVDOWithNonce.
    destruct (failed register_status_codes) eqn:F0;
      [apply failed_true in F0; cbn; congruence|].
    destruct (failed (validateVDOConfig config (getBlockCount l) false))
      eqn:F1; [apply failed_true in F1; cbn; congruence|].
    destruct (initialize_volume_geometry nonce uuid indexConfig)
      as [r2 geometry]. cbn [fst snd].
    destruct (failed r2) eqn:F2; [apply failed_true in F2; cbn; congruence|].
    destruct (clear_volume_geometry l) as [r3 l1] eqn:Hclear. cbn [fst snd].
    destruct (failed r3) eqn:F3; [apply failed_true in F3; cbn; congruence|].
    pose proof (makeAndWriteVDO_configured config l1 geometry) as Hconf.
    destruct (makeAndWriteVDO config l1 geometry) as [r4 l2] eqn:Hmake.
    destruct (makeAndWriteVDO_blocks _ _ _ _ _ Hmake) as (_ & Hok4).
    destruct (failed r4) eqn:F4; [apply failed_true in F4; cbn; congruence|].
    apply failed_false in F4. destruct (Hok4 F4) as [Hsb _].
    destruct (write_volume_geometry l2 geometry) as [r5 l3] eqn:Hgeo.
    destruct (write_volume_geometry_blocks _ _ _ _ Hgeo) as (Hfr5 & Hst5).
    cbn [fst snd]. intros Hr Horigin. split; [exact (Hst5 Hr)|].
    split; [rewrite Hfr5 by exact Horigin; exact Hsb|].
    apply Hconf. exact F4. }
  (* what loading it finds *)
  destruct (prepareSuperBlock (makeVDO l').2 l') as [[r vdo] l1] eqn:Hrun.
  cbn [fst snd] in Hprep. subst r.
  destruct (prepareSuperBlock_loads_state _ _ _ _ Hrun) as [Hload Hdec].
  destruct (prepareSuperBlock_spec _ _ _ _ _ Hrun) as (Hb1 & Hw1 & Hok).
  destruct (Hok eq_refl) as [Hoff Hblock].
  assert (super_block_location l'
          = get_data_region_offset
              (initialize_volume_geometry nonce uuid indexConfig).2)
    as Hloc.
  { unfold super_block_location.
    rewrite load_volume_geometry_decodes; [|exact Hload|].
    - rewrite Hb0. exact Hgeo.
    - rewrite Hb0. exact Hmagic. }
  assert (v_state vdo = VDO_NEW) as Hvdo.
  { rewrite Hdec, Hblock, Hoff, Hloc, Hsb, Hstate. exact Hnew. }
  cbn [fst snd]. split; [exact Hvdo|].
  unfold forceVDORebuild, updateVDOSuperBlockState.
  destruct (makeVDO l') as [r0 vdo0]. cbn [fst snd] in *. subst r0.
  change (failed VDO_SUCCESS) with false. cbv iota. rewrite Hrun.
  change (failed VDO_SUCCESS) with false. cbv iota.
  unfold inReadOnlyMode. rewrite Hvdo.
  rewrite bool_decide_eq_false_2 by discriminate.
  cbn. auto.
Qed.

(** X27: Setting a volume read-only is what lets a rebuild be forced:
    after a successful [setVDOReadOnlyMode], when the volume loads again
    and the rewritten super block decodes to the read-only state, a
    [forceVDORebuild] whose write goes through succeeds; it rewrites the
    same one block and leaves every other block as it was before both
    calls. *)
Theorem forceVDORebuild_after_setVDOReadOnlyMode (l : PhysicalLayer) :
  let first := setVDOReadOnlyMode l in
  let pbn := super_block_location l in
  let rewritten :=
    take (Z.to_nat VDO_BLOCK_SIZE)
         (reconfigured_block VDO_READ_ONLY_MODE (blocks l pbn)) in
  let prepared := prepareSuperBlock (makeVDO first.2).2 first.2 in
  let second := forceVDORebuild first.2 in
  VDO_NOT_READ_ONLY <> VDO_SUCCESS ->
  first.1 = VDO_SUCCESS ->
  pbn <> GEOMETRY_BLOCK_LOCATION ->
  take 8 (blocks l GEOMETRY_BLOCK_LOCATION) = MAGIC_NUMBER ->
  component_state (decode_vdo_component rewritten).2 = VDO_READ_ONLY_MODE ->
  (makeVDO first.2).1 = VDO_SUCCESS ->
  prepared.1.1 = VDO_SUCCESS ->
  scripted_result prepared.2 0 = VDO_SUCCESS ->
  second.1 = VDO_SUCCESS
  /\ writes second.2
     = writes first.2
       ++ [Extent pbn 1 (reconfigured_block VDO_FORCE_REBUILD rewritten)]
  /\ (forall b, b <> pbn -> blocks second.2 b = blocks l b).
Proof.
  cbv zeta. intros Hcode Hfirst Hpbn Hmagic Hstate Hmake Hprep Hscript.
  pose proof (updateVDOSuperBlockState_success l false VDO_READ_ONLY_MODE
                Hcode Hfirst) as (_ & Hfr & Hnew & _).
  fold (setVDOReadOnlyMode l) in Hfr, Hnew.
  assert ((load_volume_geometry l).1.1 = VDO_SUCCESS) as Hload.
  { revert Hfirst. clear. unfold setVDOReadOnlyMode, updateVDOSuperBlockState.
    destruct (makeVDO l) as [r0 vdo0].
    destruct (failed r0) eqn:F0;
      [apply failed_true in F0; cbn; congruence|].
    destruct (prepareSuperBlock vdo0 l) as [[r1 vdo] l1] eqn:Hrun.
    destruct (failed r1) eqn:F1;
      [apply failed_true in F1; cbn; congruence|].
    apply failed_false in F1. subst r1. intros _.
    exact (proj1 (prepareSuperBlock_loads_state _ _ _ _ Hrun)). }
  set (l' := (setVDOReadOnlyMode l).2) in *.
  destruct (prepareSuperBlock (makeVDO l').2 l') as [[r vdo] l1] eqn:Hrun.
  cbn [fst snd] in Hprep, Hscript. subst r.
  destruct (prepareSuperBlock_loads_state _ _ _ _ Hrun) as [Hload' Hdec].
  destruct (prepareSuperBlock_spec _ _ _ _ _ Hrun) as (Hb1 & Hw1 & Hok).
  destruct (Hok eq_refl) as [Hoff Hblock].
  assert (blocks l' GEOMETRY_BLOCK_LOCATION
          = blocks l GEOMETRY_BLOCK_LOCATION) as Hsame
    by (apply Hfr; congruence).
  assert (super_block_location l' = super_block_location l) as Hloc.
  { unfold super_block_location.
    rewrite (load_volume_geometry_decodes l') by (rewrite ?Hsame; assumption).
    rewrite (load_volume_geometry_decodes l) by assumption.
    rewrite Hsame. reflexivity. }
  assert (v_superBlock vdo
          = take (Z.to_nat VDO_BLOCK_SIZE)
                 (reconfigured_block VDO_READ_ONLY_MODE
                    (blocks l (super_block_location l)))) as Hsb
    by (rewrite Hblock, Hoff, Hloc; exact Hnew).
  assert (v_state vdo = VDO_READ_ONLY_MODE) as Hvdo
    by (rewrite Hdec, Hsb; exact Hstate).
  unfold forceVDORebuild, updateVDOSuperBlockState.
  destruct (makeVDO l') as [r0 vdo0]. cbn [fst snd] in *. subst r0.
  change (failed VDO_SUCCESS) with false. cbv iota. rewrite Hrun.
  change (failed VDO_SUCCESS) with false. cbv iota.
  unfold inReadOnlyMode. rewrite bool_decide_eq_true_2 by exact Hvdo.
  cbn [negb andb].
  unfold saveReconfiguredVDO, setVDOState.
  cbn [v_state set_state v_superBlock].
  assert (getFirstBlockOffset (set_state VDO_FORCE_REBUILD vdo)
          = super_block_location l) as ->
    by (rewrite <- Hloc; exact Hoff).
  rewrite Hsb.
  fold (reconfigured_block VDO_FORCE_REBUILD
          (take (Z.to_nat VDO_BLOCK_SIZE)
                (reconfigured_block VDO_READ_ONLY_MODE
                   (blocks l (super_block_location l))))).
  pose proof (writer_result l1 (super_block_location l) 1
                (reconfigured_block VDO_FORCE_REBUILD
                   (take (Z.to_nat VDO_BLOCK_SIZE)
                      (reconfigured_block VDO_READ_ONLY_MODE
                         (blocks l (super_block_location l))))))
    as (Hres & _).
  destruct (writer l1 _ 1 _) as [r2 l2] eqn:Hwrite.
  cbn [fst snd] in *.
  destruct (writer_one_block _ _ _ _ _ Hwrite) as (Hw2 & Hfr2 & _).
  split; [rewrite Hres; exact Hscript|].
  split; [rewrite Hw2, Hw1; reflexivity|].
  intros b Hb. rewrite Hfr2 by exact Hb. rewrite Hb1. apply Hfr. exact Hb.
Qed.

End ReconfigureExtras.

Lemma updateVDOSuperBlockState_unformatted_witness :
  (forceVDORebuild (BC := Demo.base) DemoChecks.blank_layer).1
  = @VDO_BAD_MAGIC Demo.base.
Proof.
  apply (updateVDOSuperBlockState_unformatted (BC := Demo.base)
           DemoChecks.blank_layer true VDO_FORCE_REBUILD);
    vm_compute; first [reflexivity | discriminate].
Defined.

Lemma setVDOReadOnlyMode_from_any_state_witness :
  blocks Demo.read_only 2 !! 20%nat = Some x03.
Proof.
  apply (setVDOReadOnlyMode_from_any_state (BC := Demo.base) Demo.formatted);
    vm_compute; first [reflexivity | lia].
Defined.

Lemma forceVDORebuild_refuses_new_volume_witness :
  (forceVDORebuild (BC := Demo.base) Demo.formatted).1
  = @VDO_NOT_READ_ONLY Demo.base.
Proof.
  apply (forceVDORebuild_refuses_new_volume (BC := Demo.base) Demo.config
           Demo.index Demo.layer 7 []);
    vm_compute; first [reflexivity | discriminate].
Defined.

Lemma forceVDORebuild_after_setVDOReadOnlyMode_witness :
  (forceVDORebuild (BC := Demo.base) Demo.read_only).1 = VDO_SUCCESS.
Proof.
  apply (forceVDORebuild_after_setVDOReadOnlyMode (BC := Demo.base)
           Demo.formatted);
    vm_compute; first [reflexivity | discriminate].
Defined.

(** * Parsing of numbers and sizes *)

Module ParseFacts.

Import ParseUtils.

Lemma toupper_idempotent (c : byte) : toupper (toupper c) = toupper c.
Proof. destruct c; reflexivity. Qed.

Lemma index_spec (s : list byte) (c : byte) :
  match index s c with
  | Some k =>
      0 <= k <= Z.of_nat (length s)
      /\ (s ++ [x00]) !! Z.to_nat k = Some c
  | None => ~ In c s /\ c <> x00
  end.
Proof.
  induction s as [|x s IH]; cbn [index].
  - destruct (bool_decide (c = x00)) eqn:E.
    + apply bool_decide_eq_true in E. subst. cbn. split; [lia|reflexivity].
    + apply bool_decide_eq_false in E. cbn. tauto.
  - destruct (bool_decide (x = c)) eqn:E.
    + apply bool_decide_eq_true in E. subst. cbn. split; [lia|reflexivity].
    + apply bool_decide_eq_false in E.
      destruct (index s c) as [k|]; cbn [option_map].
      * destruct IH as [Hk Hl]. split; [cbn [length]; lia|].
        replace (Z.to_nat (Z.succ k)) with (S (Z.to_nat k)) by lia.
        exact Hl.
      * destruct IH as [Hin Hc]. split; [|exact Hc].
        intros [H | H]; [exact (E H)|exact (Hin H)].
Qed.

(** X15: The unit code is read without regard to case. The answer is -1
    only for a character that is neither NUL nor, once in upper case, one
    of "BKMGTP"; any other answer is ten times the place of the character
    in that string, its terminator included. *)
Theorem getBinaryExponent_unit_letters (c : byte) :
  getBinaryExponent (toupper c) = getBinaryExponent c
  /\ (getBinaryExponent c = -1 -> ~ In (toupper c) UNIT_CODES /\ c <> x00)
  /\ (getBinaryExponent c <> -1 ->
      exists k : nat,
        (k <= 6)%nat
        /\ getBinaryExponent c = 10 * Z.of_nat k
        /\ (UNIT_CODES ++ [x00]) !! k = Some (toupper c)).
Proof.
  unfold getBinaryExponent. rewrite toupper_idempotent.
  split; [reflexivity|].
  pose proof (index_spec UNIT_CODES (toupper c)) as H.
  destruct (index UNIT_CODES (toupper c)) as [k|].
  - destruct H as [Hk Hl]. unfold UNIT_CODES in Hk. cbn [length] in Hk.
    split; [intros; exfalso; lia|].
    intros _. exists (Z.to_nat k). split; [lia|]. split; [lia|exact Hl].
  - destruct H as [Hin Hc]. split; [|congruence]. intros _.
    split; [exact Hin|]. intros ->. apply Hc. reflexivity.
Qed.

Lemma getBinaryExponent_range (c : byte) :
  c <> x00 -> 0 <= getBinaryExponent c -> 0 <= getBinaryExponent c <= 50.
Proof. destruct c; vm_compute; intros; try congruence; split; congruence. Qed.

(** The overflow test of [parseSize]: shifting back gives the low
    [64 - e] bits of [size]. *)
Lemma shift_round_trip (size e : Z) :
  0 <= size < 2 ^ 64 -> 0 <= e < 64 ->
  Z.shiftr (u64 (Z.shiftl size e)) e = size mod 2 ^ (64 - e).
Proof.
  intros Hs He. unfold u64.
  rewrite Z.shiftl_mul_pow2, Z.shiftr_div_pow2 by lia.
  replace (2 ^ 64) with (2 ^ (64 - e) * 2 ^ e)
    by (rewrite <- Z.pow_add_r by lia; f_equal; lia).
  assert (0 < 2 ^ e) by (apply Z.pow_pos_nonneg; lia).
  assert (0 < 2 ^ (64 - e)) by (apply Z.pow_pos_nonneg; lia).
  rewrite Z.mul_mod_distr_r by lia.
  apply Z.div_mul. lia.
Qed.

Section ParseFactsSection.

Variable VDO_OUT_OF_RANGE : Z.
Variable strtoul : list byte -> Z -> strto_answer.
Variable strtoull : list byte -> Z -> strto_answer.

Lemma scale_size_spec (size e old : Z) :
  0 <= size < 2 ^ 64 -> 0 <= e < 64 ->
  scale_size VDO_OUT_OF_RANGE size e old
  = if size * 2 ^ e <? 2 ^ 64 then (VDO_SUCCESS, size * 2 ^ e)
    else (VDO_OUT_OF_RANGE, old).
Proof.
  intros Hs He. unfold scale_size. cbv zeta.
  rewrite shift_round_trip by assumption.
  assert (0 < 2 ^ e) by (apply Z.pow_pos_nonneg; lia).
  assert (0 < 2 ^ (64 - e)) by (apply Z.pow_pos_nonneg; lia).
  assert (2 ^ 64 = 2 ^ (64 - e) * 2 ^ e) as Hsplit
    by (rewrite <- Z.pow_add_r by lia; f_equal; lia).
  destruct (size * 2 ^ e <? 2 ^ 64) eqn:Hfit.
  - apply Z.ltb_lt in Hfit.
    assert (size < 2 ^ (64 - e)) by nia.
    rewrite Z.mod_small by lia. rewrite Z.eqb_refl. cbn [negb].
    f_equal. unfold u64. rewrite Z.shiftl_mul_pow2 by lia.
    apply Z.mod_small. lia.
  - apply Z.ltb_ge in Hfit.
    assert (2 ^ (64 - e) <= size) by nia.
    pose proof (Z.mod_pos_bound size (2 ^ (64 - e)) ltac:(lia)).
    assert ((size =? size mod 2 ^ (64 - e)) = false) as ->
      by (apply Z.eqb_neq; lia).
    reflexivity.
Qed.

Lemma selected_exponent_range (arg : list byte) (lvmMode : bool) (e : Z) :
  selected_exponent strtoull arg lvmMode = Some e -> 0 <= e <= 50.
Proof.
  unfold selected_exponent. cbv zeta.
  destruct (bool_decide (char_at arg _ = x00)) eqn:Hend.
  { intros [= <-]. destruct lvmMode; lia. }
  apply bool_decide_eq_false in Hend.
  destruct (getBinaryExponent _ <? 0) eqn:Hneg; [discriminate|].
  apply Z.ltb_ge in Hneg.
  destruct (bool_decide _); [|discriminate].
  intros [= <-]. apply getBinaryExponent_range; assumption.
Qed.

Lemma parseSize_unfold (arg : list byte) (lvmMode : bool) (old : Z) :
  number_parsed strtoull arg ->
  parseSize VDO_OUT_OF_RANGE strtoull arg lvmMode old
  = match selected_exponent strtoull arg lvmMode with
    | Some e =>
        scale_size VDO_OUT_OF_RANGE (u64 (st_value (strtoull arg 0))) e old
    | None => (VDO_OUT_OF_RANGE, old)
    end.
Proof.
  intros (H1 & H2 & H3). unfold parseSize, selected_exponent. cbv zeta.
  apply Z.eqb_neq in H1, H2. apply Nat.eqb_neq in H3.
  rewrite H1, H2, H3. cbn [orb].
  destruct (bool_decide (char_at arg _ = x00)); [reflexivity|].
  destruct (getBinaryExponent _ <? 0); [reflexivity|].
  destruct (bool_decide _); reflexivity.
Qed.

(** X16: [parseSize] never stores a wrapped size: once the number and its unit
    are read, the call succeeds exactly when number times 2^exponent fits
    in 64 bits, and then stores that product; otherwise it answers
    [VDO_OUT_OF_RANGE] and leaves [*sizePtr] alone. *)
Theorem parseSize_scales_exactly (arg : list byte) (lvmMode : bool)
    (old e : Z) :
  let number := u64 (st_value (strtoull arg 0)) in
  number_parsed strtoull arg ->
  selected_exponent strtoull arg lvmMode = Some e ->
  0 <= e <= 50
  /\ (number * 2 ^ e < 2 ^ 64 ->
      parseSize VDO_OUT_OF_RANGE strtoull arg lvmMode old
      = (VDO_SUCCESS, number * 2 ^ e))
  /\ (2 ^ 64 <= number * 2 ^ e ->
      parseSize VDO_OUT_OF_RANGE strtoull arg lvmMode old
      = (VDO_OUT_OF_RANGE, old)).
Proof.
  cbv zeta. intros Hnum Hsel.
  pose proof (selected_exponent_range _ _ _ Hsel) as He.
  rewrite parseSize_unfold, Hsel by exact Hnum.
  rewrite scale_size_spec by (try apply u64_range; lia).
  split; [exact He|]. split; intros Hfit.
  - apply Z.ltb_lt in Hfit. rewrite Hfit. reflexivity.
  - apply Z.ltb_ge in Hfit. rewrite Hfit. reflexivity.
Qed.

(** X17: Every failure of [parseSize] is [VDO_OUT_OF_RANGE] and leaves
    [*sizePtr] as it was; a number that [strtoull] could not read, an
    unknown unit letter and text after the unit all fail. *)
Theorem parseSize_failure_stores_nothing (arg : list byte) (lvmMode : bool)
    (old : Z) :
  let run := parseSize VDO_OUT_OF_RANGE strtoull arg lvmMode old in
  (run.1 <> VDO_SUCCESS -> run = (VDO_OUT_OF_RANGE, old))
  /\ (~ number_parsed strtoull arg -> run = (VDO_OUT_OF_RANGE, old))
  /\ (selected_exponent strtoull arg lvmMode = None ->
      run = (VDO_OUT_OF_RANGE, old)).
Proof.
  cbv zeta.
  destruct (decide (number_parsed strtoull arg)) as [Hnum | Hnum].
  - rewrite parseSize_unfold by exact Hnum.
    destruct (selected_exponent strtoull arg lvmMode) as [e|] eqn:Hsel.
    + pose proof (selected_exponent_range _ _ _ Hsel) as He.
      rewrite scale_size_spec by (try apply u64_range; lia).
      destruct (_ <? 2 ^ 64); cbn [fst]; repeat split;
        intros; congruence.
    + repeat split; reflexivity.
  - assert (parseSize VDO_OUT_OF_RANGE strtoull arg lvmMode old
            = (VDO_OUT_OF_RANGE, old)) as ->; [|repeat split; reflexivity].
    unfold parseSize. cbv zeta.
    destruct (st_errno (strtoull arg 0) =? ERANGE) eqn:E1; [reflexivity|].
    destruct (st_errno (strtoull arg 0) =? EINVAL) eqn:E2; [reflexivity|].
    destruct (st_consumed (strtoull arg 0) =? 0)%nat eqn:E3; [reflexivity|].
    exfalso. apply Hnum. apply Z.eqb_neq in E1, E2. apply Nat.eqb_neq in E3.
    repeat split; assumption.
Qed.

(** X18: [lvmMode] only chooses the unit of a bare number: with a unit
    letter after the number both modes give the same answer, and a bare
    number below 2^44 is taken as bytes in one mode and as megabytes in
    the other. *)
Theorem parseSize_lvmMode_default_unit (arg : list byte) (old : Z) :
  let number := u64 (st_value (strtoull arg 0)) in
  let next := char_at arg (st_consumed (strtoull arg 0)) in
  (next <> x00 ->
   parseSize VDO_OUT_OF_RANGE strtoull arg true old
   = parseSize VDO_OUT_OF_RANGE strtoull arg false old)
  /\ (next = x00 -> number_parsed strtoull arg -> number < 2 ^ 44 ->
      parseSize VDO_OUT_OF_RANGE strtoull arg false old
      = (VDO_SUCCESS, number)
      /\ parseSize VDO_OUT_OF_RANGE strtoull arg true old
         = (VDO_SUCCESS, number * 2 ^ 20)).
Proof.
  cbv zeta. split.
  - intros Hnext. unfold parseSize. cbv zeta.
    rewrite bool_decide_eq_false_2 by exact Hnext. reflexivity.
  - intros Hnext Hnum Hsmall.
    pose proof (u64_range (st_value (strtoull arg 0))) as Hr.
    rewrite !parseSize_unfold by exact Hnum.
    unfold selected_exponent. cbv zeta.
    rewrite bool_decide_eq_true_2 by exact Hnext.
    rewrite !scale_size_spec by lia.
    assert ((u64 (st_value (strtoull arg 0)) * 2 ^ 0 <? 2 ^ 64) = true)
      as ->
      by (apply Z.ltb_lt; lia).
    assert ((u64 (st_value (strtoull arg 0)) * 2 ^ 20 <? 2 ^ 64) = true)
      as ->
      by (apply Z.ltb_lt; lia).
    split; [f_equal; lia|reflexivity].
Qed.

(** X19: A successful [parseUInt] has read the whole string as a number within
    the bounds and stores it untruncated; any failure is
    [VDO_OUT_OF_RANGE] and leaves [*numPtr] alone. *)
Theorem parseUInt_within_bounds (arg : list byte) (lowest highest : Z)
    (numPtr : option Z) :
  let a := strtoul arg 0 in
  let run := parseUInt VDO_OUT_OF_RANGE strtoul arg lowest highest numPtr in
  (run.1 <> VDO_SUCCESS -> run = (VDO_OUT_OF_RANGE, numPtr))
  /\ (VDO_OUT_OF_RANGE <> VDO_SUCCESS ->
      run.1 = VDO_SUCCESS ->
      u32 lowest <= u64 (st_value a) <= u32 highest
      /\ run.2 = option_map (fun _ => u64 (st_value a)) numPtr
      /\ st_consumed a <> 0%nat
      /\ char_at arg (st_consumed a) = x00
      /\ st_errno a <> ERANGE /\ st_errno a <> EINVAL).
Proof.
  cbv zeta. unfold parseUInt. cbv zeta.
  destruct (st_errno (strtoul arg 0) =? ERANGE) eqn:E1;
    [cbn; split; [reflexivity|congruence]|].
  destruct (st_errno (strtoul arg 0) =? EINVAL) eqn:E2;
    [cbn; split; [reflexivity|congruence]|].
  destruct (st_consumed (strtoul arg 0) =? 0)%nat eqn:E3;
    [cbn; split; [reflexivity|congruence]|].
  destruct (bool_decide (char_at arg _ = x00)) eqn:E4;
    [|cbn; split; [reflexivity|congruence]].
  destruct (u64 (st_value (strtoul arg 0)) <? u32 lowest) eqn:E5;
    [cbn; split; [reflexivity|congruence]|].
  destruct (u64 (st_value (strtoul arg 0)) >? u32 highest) eqn:E6;
    [cbn; split; [reflexivity|congruence]|].
  cbn [orb negb fst snd]. split; [congruence|]. intros _ _.
  apply Z.eqb_neq in E1, E2. apply Nat.eqb_neq in E3.
  apply bool_decide_eq_true in E4. apply Z.ltb_ge in E5.
  rewrite Z.gtb_ltb in E6. apply Z.ltb_ge in E6.
  assert (0 <= u32 highest < 2 ^ 32) as Hh
    by (unfold u32; apply Z.mod_pos_bound; lia).
  assert (0 <= u32 lowest) as Hl
    by (unfold u32; apply Z.mod_pos_bound; lia).
  repeat split; try assumption; try lia.
  destruct numPtr; cbn [option_map]; [|reflexivity].
  f_equal. unfold u32 at 1. apply Z.mod_small. lia.
Qed.

End ParseFactsSection.

Lemma parseSize_scales_exactly_witness :
  parseSize 2052 DemoParse.strtoull DemoParse.four_k false 7
  = (VDO_SUCCESS, 4 * 2 ^ 10)
  /\ parseSize 2052 DemoParse.strtoull DemoParse.too_many_tera true 7
     = (2052, 7).
Proof.
  split.
  - apply (parseSize_scales_exactly 2052 DemoParse.strtoull
             DemoParse.four_k false 7 10).
    + vm_compute. repeat split; discriminate.
    + reflexivity.
    + vm_compute. reflexivity.
  - apply (parseSize_scales_exactly 2052 DemoParse.strtoull
             DemoParse.too_many_tera true 7 40).
    + vm_compute. repeat split; discriminate.
    + reflexivity.
    + vm_compute. discriminate.
Defined.

Example getBinaryExponent_k : getBinaryExponent x6b = 10.
Proof. reflexivity. Qed.

Example getBinaryExponent_terminator : getBinaryExponent x00 = 60.
Proof. reflexivity. Qed.

Example parseSize_text_after_unit :
  parseSize 2052 DemoParse.strtoull DemoParse.four_kb false 7 = (2052, 7).
Proof. reflexivity. Qed.

Example parseSize_bare_number_lvm :
  parseSize 2052 DemoParse.strtoull DemoParse.four true 7
  = (VDO_SUCCESS, 4194304).
Proof. reflexivity. Qed.

Example parseUInt_above_highest :
  parseUInt 2052 DemoParse.strtoull DemoParse.four 0 3 (Some 9)
  = (2052, Some 9).
Proof. reflexivity. Qed.

End ParseFacts.

(** * Sized allocation and reallocation *)

Module MemoryAllocFacts.

Import MemoryLinuxUser MemoryAlloc.

Lemma doAllocation_total_size_eq {state : Type}
    (allocate_memory : Z -> Z -> option (list byte) -> Z -> state
                       -> Z * state)
    (count size extra align : Z) (what : option (list byte)) (ptr : Z)
    (p : state) :
  0 <= count <= SIZE_MAX ->
  0 <= size <= SIZE_MAX ->
  0 <= extra <= SIZE_MAX ->
  doAllocation allocate_memory count size extra align what ptr p
  = allocate_memory (Z.min (count * size + extra) SIZE_MAX) align what ptr p.
Proof.
  unfold doAllocation, SIZE_MAX, u64. intros Hc Hs He. cbv zeta. f_equal.
  destruct (Z.gtb_spec size 0) as [Hpos | Hzero]; cbn [andb].
  - pose proof (Z.div_mod (2 ^ 64 - 1 - extra) size ltac:(lia)) as Hdm.
    pose proof (Z.mod_pos_bound (2 ^ 64 - 1 - extra) size ltac:(lia)) as Hm.
    destruct (Z.gtb_spec count ((2 ^ 64 - 1 - extra) / size)) as [Hov | Hfit].
    + rewrite Z.min_r; [reflexivity|]. nia.
    + assert (count * size + extra <= 2 ^ 64 - 1) by nia.
      rewrite Z.min_l by lia. apply Z.mod_small. nia.
  - assert (size = 0) as -> by lia.
    rewrite Z.mul_0_r, Z.add_0_l, Z.min_l by lia.
    apply Z.mod_small. lia.
Qed.

(** X13: The overflow check of [doAllocation]: the size handed to the
    allocator is [count * size + extra] when that fits in a [size_t], and
    [SIZE_MAX] otherwise; never a wrapped, smaller size. *)
Theorem doAllocation_total_size {state : Type}
    (allocate_memory : Z -> Z -> option (list byte) -> Z -> state
                       -> Z * state)
    (count size extra align : Z) (what : option (list byte)) (ptr : Z)
    (p : state) :
  0 <= count <= SIZE_MAX ->
  0 <= size <= SIZE_MAX ->
  0 <= extra <= SIZE_MAX ->
  doAllocation allocate_memory count size extra align what ptr p
  = allocate_memory (Z.min (count * size + extra) SIZE_MAX) align what ptr p.
Proof. apply doAllocation_total_size_eq. Qed.

Lemma doAllocation_total_size_witness :
  doAllocation (uds_allocate_memory 1031) (2 ^ 62) 8 16 8 None 64
               Demo.process
  = uds_allocate_memory 1031 (2 ^ 64 - 1) 8 None 64 Demo.process.
Proof.
  apply (doAllocation_total_size (uds_allocate_memory 1031) (2 ^ 62) 8 16 8
           None 64 Demo.process);
    vm_compute; split; discriminate.
Defined.

Lemma uds_allocate_memory_success (UDS_INVALID_ARGUMENT size align : Z)
    (what : option (list byte)) (ptr : Z) (p : process) :
  size <> 0 -> ptr <> NULL ->
  (uds_allocate_memory UDS_INVALID_ARGUMENT size align what ptr p).1
  = UDS_SUCCESS ->
  exists q : Z,
    q <> NULL
    /\ cells (uds_allocate_memory UDS_INVALID_ARGUMENT size align what ptr
                                  p).2 !! ptr = Some q
    /\ heap (uds_allocate_memory UDS_INVALID_ARGUMENT size align what ptr
                                 p).2 !! q
       = Some (replicate (Z.to_nat size) x00).
Proof.
  intros Hsize Hptr. unfold uds_allocate_memory.
  destruct (Z.eqb_spec ptr NULL) as [|_]; [contradiction|].
  destruct (Z.eqb_spec size 0) as [|_]; [contradiction|].
  destruct (align >? DEFAULT_MALLOC_ALIGNMENT).
  - unfold posix_memalign.
    destruct (answers p) as [|[address junk|error] rest]; cbn;
      try discriminate.
    intros _. exists (Z.pos address). split; [discriminate|].
    split; [apply lookup_insert_eq|].
    apply MemoryFacts.cleared_fresh_buffer.
  - unfold malloc.
    destruct (answers p) as [|[address junk|error] rest]; cbn;
      try discriminate.
    intros _. exists (Z.pos address). split; [discriminate|].
    split; [apply lookup_insert_eq|].
    apply MemoryFacts.cleared_fresh_buffer.
Qed.

(** X14: [doAllocation] over the user-space allocator never hands out a short
    array: a successful call for [count] objects of [size] bytes after
    [extra] bytes stores a pointer to exactly [count * size + extra] zero
    bytes, or to [SIZE_MAX] of them had the product not fitted. *)
Theorem doAllocation_never_short (UDS_INVALID_ARGUMENT : Z)
    (count size extra align : Z) (what : option (list byte)) (ptr : Z)
    (p : process) :
  let run :=
    doAllocation (uds_allocate_memory UDS_INVALID_ARGUMENT) count size extra
                 align what ptr p in
  0 <= count <= SIZE_MAX ->
  0 <= size <= SIZE_MAX ->
  0 <= extra <= SIZE_MAX ->
  0 < count * size + extra ->
  ptr <> NULL ->
  run.1 = UDS_SUCCESS ->
  exists q : Z,
    q <> NULL
    /\ cells run.2 !! ptr = Some q
    /\ heap run.2 !! q
       = Some (replicate
                 (Z.to_nat (Z.min (count * size + extra) SIZE_MAX)) x00).
Proof.
  cbv zeta. intros Hc Hs He Hpos Hptr.
  rewrite doAllocation_total_size_eq by assumption.
  apply uds_allocate_memory_success; [|exact Hptr].
  unfold SIZE_MAX. lia.
Qed.

Lemma doAllocation_never_short_witness :
  exists q : Z,
    q <> NULL
    /\ cells (doAllocation (uds_allocate_memory 1031) 3 2 1 8 None 64
                           Demo.process).2 !! 64 = Some q
    /\ heap (doAllocation (uds_allocate_memory 1031) 3 2 1 8 None 64
                          Demo.process).2 !! q
       = Some (replicate 7 x00).
Proof.
  apply (doAllocation_never_short 1031 3 2 1 8 None 64 Demo.process);
    vm_compute; try split; try discriminate; reflexivity.
Defined.

Lemma realloc_answers (ptr size : Z) (p : process) :
  size <> 0 ->
  match answers p with
  | AllocOk address junk :: rest =>
      realloc ptr size p
      = (Z.pos address,
         mkProcess
           (<[Z.pos address :=
                take (Z.to_nat size) (default [] (heap p !! ptr))
                ++ drop (length (default [] (heap p !! ptr)))
                        (fresh_buffer size junk)]>
              (delete ptr (heap p)))
           (cells p) (errno p) rest (logged p))
  | AllocFail error :: rest =>
      realloc ptr size p
      = (NULL, mkProcess (heap p) (cells p) (Z.pos error) rest (logged p))
  | [] =>
      realloc ptr size p
      = (NULL, mkProcess (heap p) (cells p) ENOMEM [] (logged p))
  end.
Proof.
  intros Hsize. unfold realloc.
  destruct (Z.eqb_spec size 0) as [|_]; [contradiction|]. cbn [andb].
  destruct (answers p) as [|[address junk|error] rest]; reflexivity.
Qed.

(** X11: A successful [uds_reallocate_memory] to a non-zero size stores a
    non-null pointer to a block of [size] bytes: the leading bytes of the
    old block, then zeros from [old_size] on, not the stale bytes that
    [realloc] leaves there. If the block has moved, the old address is no
    longer allocated. *)
Theorem uds_reallocate_memory_keeps_and_clears (ptr old_size size : Z)
    (what : list byte) (new_ptr : Z) (p : process) (old : list byte) :
  let run := uds_reallocate_memory ptr old_size size what new_ptr p in
  heap p !! ptr = Some old ->
  length old = Z.to_nat old_size ->
  0 <= old_size ->
  0 < size ->
  run.1 = UDS_SUCCESS ->
  exists q : Z,
    q <> NULL
    /\ cells run.2 !! new_ptr = Some q
    /\ heap run.2 !! q
       = Some (take (Z.to_nat size) old
               ++ replicate (Z.to_nat (size - old_size)) x00)
    /\ (q <> ptr -> heap run.2 !! ptr = None).
Proof.
  cbv zeta. intros Hold Hlen Hpos Hsize. unfold uds_reallocate_memory.
  pose proof (realloc_answers ptr size p ltac:(lia)) as Hre.
  destruct (Z.eqb_spec size 0) as [|_]; [lia|].
  destruct (answers p) as [|[address junk|error] rest]; rewrite Hre;
    cbn [Z.eqb NULL andb negb fst snd errno]; try discriminate.
  rewrite Hold. cbn [default from_option]. unfold id. intros _.
  exists (Z.pos address).
  split; [discriminate|].
  destruct (Z.gtb_spec size old_size) as [Hgrow | Hshrink].
  - unfold store_pointer, memset_from. cbn [cells heap].
    split; [apply lookup_insert_eq|]. split.
    + rewrite lookup_alter_eq, lookup_insert_eq.
      cbn [fmap option_fmap option_map]. f_equal.
      assert (take (Z.to_nat size) old = old) as Hall
        by (apply take_ge; lia).
      rewrite Hall.
      rewrite take_app_length' by lia.
      f_equal.
      rewrite drop_ge; [apply app_nil_r|].
      rewrite length_app, length_drop. unfold fresh_buffer.
      rewrite length_resize. lia.
    + intros Hne. rewrite lookup_alter_ne by congruence.
      rewrite lookup_insert_ne by congruence. apply lookup_delete_eq.
  - unfold store_pointer. cbn [cells heap].
    split; [apply lookup_insert_eq|]. split.
    + rewrite lookup_insert_eq. f_equal.
      replace (Z.to_nat (size - old_size)) with 0%nat by lia.
      f_equal. apply drop_ge. unfold fresh_buffer.
      rewrite length_resize. lia.
    + intros Hne. rewrite lookup_insert_ne by congruence.
      apply lookup_delete_eq.
Qed.

Lemma uds_reallocate_memory_keeps_and_clears_witness :
  exists q : Z,
    q <> NULL
    /\ cells (uds_reallocate_memory 8192 2 4 [] 64
                DemoMemory.process).2 !! 64 = Some q
    /\ heap (uds_reallocate_memory 8192 2 4 [] 64
               DemoMemory.process).2 !! q
       = Some (take 4 [x61; x62] ++ replicate 2 x00)
    /\ (q <> 8192 ->
        heap (uds_reallocate_memory 8192 2 4 [] 64
                DemoMemory.process).2 !! 8192 = None).
Proof.
  apply (uds_reallocate_memory_keeps_and_clears 8192 2 4 [] 64
           DemoMemory.process [x61; x62]);
    vm_compute; first [reflexivity | discriminate].
Defined.

(** X12: A failed [uds_reallocate_memory] has changed neither the heap nor
    any pointer cell: the old block is still allocated and [*new_ptr] is
    what it was.  The answer is the negated [errno], which is logged. *)
Theorem uds_reallocate_memory_failure (ptr old_size size : Z)
    (what : list byte) (new_ptr : Z) (p : process) :
  let run := uds_reallocate_memory ptr old_size size what new_ptr p in
  run.1 <> UDS_SUCCESS ->
  size <> 0
  /\ heap run.2 = heap p
  /\ cells run.2 = cells p
  /\ run.1 = - errno run.2
  /\ run.1 < 0
  /\ logged run.2 = logged p ++ [(run.1, what, size)].
Proof.
  cbv zeta. unfold uds_reallocate_memory.
  destruct (Z.eqb_spec size 0) as [-> | Hsize].
  { destruct (realloc ptr 0 p) as [new p1]. rewrite andb_false_r.
    cbn [fst]. congruence. }
  pose proof (realloc_answers ptr size p Hsize) as Hre.
  destruct (answers p) as [|[address junk|error] rest]; rewrite Hre;
    cbn [Z.eqb NULL andb negb fst snd errno]; try congruence;
    intros _; unfold uds_log_error_strerror, ENOMEM;
    cbn [heap cells errno logged]; repeat split; auto; lia.
Qed.

Lemma uds_reallocate_memory_failure_witness :
  heap (uds_reallocate_memory 8192 2 4 [] 64
          (uds_reallocate_memory 8192 2 4 [] 72 DemoMemory.process).2).2
  = heap (uds_reallocate_memory 8192 2 4 [] 72 DemoMemory.process).2.
Proof.
  apply (uds_reallocate_memory_failure 8192 2 4 [] 64
           (uds_reallocate_memory 8192 2 4 [] 72 DemoMemory.process).2).
  vm_compute. discriminate.
Defined.

(** X10: A failed [uds_allocate_memory] stores nothing through [ptr] and
    leaves the heap alone; its answer is the negated error number of the C
    library, and the error is logged exactly when the caller named what
    was being allocated. *)
Theorem uds_allocate_memory_failure (UDS_INVALID_ARGUMENT size align : Z)
    (what : option (list byte)) (ptr : Z) (p : process) :
  let run := uds_allocate_memory UDS_INVALID_ARGUMENT size align what ptr p in
  ptr <> NULL ->
  run.1 <> UDS_SUCCESS ->
  size <> 0
  /\ run.1 < 0
  /\ heap run.2 = heap p
  /\ cells run.2 = cells p
  /\ logged run.2
     = logged p
       ++ match what with
          | Some name => [(- run.1, name, size)]
          | None => []
          end.
Proof.
  cbv zeta. intros Hptr. unfold uds_allocate_memory.
  destruct (Z.eqb_spec ptr NULL) as [|_]; [contradiction|].
  destruct (Z.eqb_spec size 0) as [|Hsize]; [cbn; congruence|].
  destruct (align >? DEFAULT_MALLOC_ALIGNMENT).
  - unfold posix_memalign.
    destruct (answers p) as [|[address junk|error] rest];
      cbn [fst snd Z.eqb negb ENOMEM]; try congruence; intros _;
      destruct what; cbn; rewrite ?app_nil_r; repeat split; auto; lia.
  - unfold malloc.
    destruct (answers p) as [|[address junk|error] rest];
      cbn [fst snd Z.eqb negb NULL errno ENOMEM]; try congruence; intros _;
      destruct what; cbn; rewrite ?app_nil_r; repeat split; auto; lia.
Qed.

Lemma uds_allocate_memory_failure_witness :
  cells (uds_allocate_memory 1031 3 8 None 64
           (uds_allocate_memory 1031 3 4096 None 72 Demo.process).2).2
  = cells (uds_allocate_memory 1031 3 4096 None 72 Demo.process).2.
Proof.
  apply (uds_allocate_memory_failure 1031 3 8 None 64
           (uds_allocate_memory 1031 3 4096 None 72 Demo.process).2);
    vm_compute; discriminate.
Defined.

End MemoryAllocFacts.

(** * Addressing block-map entries *)

Section BlockMapAddress.



End BlockMapAddress.

(** * Suspending a VDO *)

Module VdoSuspendFacts.

Import VdoSuspend.

Section SuspendFacts.

Variable admin_state : Type.
Variable startDraining : admin_state -> drain_operation -> bool * admin_state.
Variable isSuspending : admin_state -> bool.
Variable resetCompletion : VDOCompletion -> VDOCompletion.
Variable setCompletionResult : VDOCompletion -> Z -> VDOCompletion.
Variable UDS_BAD_STATE : Z.
Variable getPackerZoneThread : Z.
Variable getJournalZoneThread : Z.
Variable getAdminThread : Z.

Local Abbreviation suspendCallback :=
  (suspendCallback admin_state startDraining isSuspending resetCompletion
                   setCompletionResult UDS_BAD_STATE getPackerZoneThread
                   getJournalZoneThread getAdminThread).
Local Abbreviation getThreadIDForPhase :=
  (getThreadIDForPhase getPackerZoneThread getJournalZoneThread
                       getAdminThread).

(** X20: Whenever [suspendCallback] hands the sub-task to an asynchronous
    operation, it has stepped the phase by one and has set the thread of
    the sub-task to the thread of that new phase: the next call finds
    itself on the thread its phase asks for. *)
Theorem suspendCallback_names_next_thread
    (st : suspend_state admin_state) (completion : VDOCompletion) :
  handed_over admin_state (suspendCallback st).2 = Some completion ->
  ac_subTask admin_state (suspendCallback st).1 = completion
  /\ callbackThreadID completion
     = getThreadIDForPhase (ac_phase admin_state (suspendCallback st).1)
  /\ ac_phase admin_state (suspendCallback st).1
     = ac_phase admin_state st + 1
  /\ SUSPEND_PHASE_START <= ac_phase admin_state st
     <= SUSPEND_PHASE_WRITE_SUPER_BLOCK.
Proof.
  unfold VdoSuspend.suspendCallback. cbv zeta.
  unfold SUSPEND_PHASE_START, SUSPEND_PHASE_PACKER,
    SUSPEND_PHASE_LOGICAL_ZONES, SUSPEND_PHASE_BLOCK_MAP,
    SUSPEND_PHASE_JOURNAL, SUSPEND_PHASE_DEPOT,
    SUSPEND_PHASE_WRITE_SUPER_BLOCK, SUSPEND_PHASE_END.
  cbn [ac_phase ac_type ac_result ac_subTask vdo_state vdo_closeRequired
       vdo_adminState].
  destruct (Z.eqb_spec (ac_phase admin_state st) 0) as [E | _].
  { rewrite E. destruct (startDraining _ _) as [started adminState].
    destruct started; cbn [negb]; [|discriminate].
    destruct (vdo_closeRequired admin_state st); cbn [negb];
      [|discriminate].
    cbn. intros [= <-]. repeat split; lia. }
  destruct (Z.eqb_spec (ac_phase admin_state st) 1) as [E | _].
  { rewrite E. cbn. intros [= <-]. repeat split; lia. }
  destruct (Z.eqb_spec (ac_phase admin_state st) 2) as [E | _].
  { rewrite E. cbn. intros [= <-]. repeat split; lia. }
  destruct (Z.eqb_spec (ac_phase admin_state st) 3) as [E | _].
  { rewrite E. cbn. intros [= <-]. repeat split; lia. }
  destruct (Z.eqb_spec (ac_phase admin_state st) 4) as [E | _].
  { rewrite E. cbn. intros [= <-]. repeat split; lia. }
  destruct (Z.eqb_spec (ac_phase admin_state st) 5) as [E | _].
  { rewrite E. cbn. intros [= <-]. repeat split; lia. }
  destruct (Z.eqb_spec (ac_phase admin_state st) 6) as [E | _].
  { rewrite E.
    destruct (isSuspending _ || _); [discriminate|].
    unfold writeSuperBlock, resetSubTask, set_vdo_state.
    cbn [ac_phase ac_type ac_result ac_subTask vdo_state vdo_closeRequired
         vdo_adminState].
    destruct (vdo_state admin_state st); cbn; try discriminate;
      intros [= <-]; repeat split; lia. }
  destruct (Z.eqb_spec (ac_phase admin_state st) 7) as [E | _];
    discriminate.
Qed.

(** X21: The super block is saved by the save operation only: a call of
    [suspendCallback] that starts the save is in the super-block phase of
    an operation that is not a plain suspend and has seen no error. The
    state it saves is never dirty, new or replaying: dirty and new are
    saved as clean, the other states as they are. *)
Theorem suspendCallback_saves_clean_state
    (st : suspend_state admin_state) (saved : VDOState)
    (completion : VDOCompletion) :
  (suspendCallback st).2
  = SaveVDOComponentsAsync admin_state saved completion ->
  ac_phase admin_state st = SUSPEND_PHASE_WRITE_SUPER_BLOCK
  /\ isSuspending (vdo_adminState admin_state st) = false
  /\ ac_result admin_state st = VDO_SUCCESS
  /\ vdo_state admin_state (suspendCallback st).1 = saved
  /\ saved <> VDO_DIRTY /\ saved <> VDO_NEW /\ saved <> VDO_REPLAYING
  /\ vdo_state admin_state st <> VDO_REPLAYING
  /\ (saved = vdo_state admin_state st
      \/ (saved = VDO_CLEAN
          /\ (vdo_state admin_state st = VDO_DIRTY
              \/ vdo_state admin_state st = VDO_NEW))).
Proof.
  unfold VdoSuspend.suspendCallback. cbv zeta.
  unfold SUSPEND_PHASE_START, SUSPEND_PHASE_PACKER,
    SUSPEND_PHASE_LOGICAL_ZONES, SUSPEND_PHASE_BLOCK_MAP,
    SUSPEND_PHASE_JOURNAL, SUSPEND_PHASE_DEPOT,
    SUSPEND_PHASE_WRITE_SUPER_BLOCK, SUSPEND_PHASE_END.
  cbn [ac_phase ac_type ac_result ac_subTask vdo_state vdo_closeRequired
       vdo_adminState].
  destruct (Z.eqb_spec (ac_phase admin_state st) 0) as [E | _].
  { destruct (startDraining _ _) as [started adminState].
    destruct started; cbn [negb]; [|discriminate].
    destruct (vdo_closeRequired admin_state st); cbn; discriminate. }
  destruct (Z.eqb_spec (ac_phase admin_state st) 1) as [E | _];
    [discriminate|].
  destruct (Z.eqb_spec (ac_phase admin_state st) 2) as [E | _];
    [discriminate|].
  destruct (Z.eqb_spec (ac_phase admin_state st) 3) as [E | _];
    [discriminate|].
  destruct (Z.eqb_spec (ac_phase admin_state st) 4) as [E | _];
    [discriminate|].
  destruct (Z.eqb_spec (ac_phase admin_state st) 5) as [E | _];
    [discriminate|].
  destruct (Z.eqb_spec (ac_phase admin_state st) 6) as [E | _].
  { destruct (isSuspending _) eqn:Hs; [discriminate|].
    destruct (Z.eqb_spec (ac_result admin_state st) VDO_SUCCESS)
      as [Hr | _]; [|discriminate].
    cbn [orb negb].
    unfold writeSuperBlock, resetSubTask, set_vdo_state.
    cbn [ac_phase ac_type ac_result ac_subTask vdo_state vdo_closeRequired
         vdo_adminState].
    destruct (vdo_state admin_state st); cbn; try discriminate;
      intros [= <- _]; repeat split; auto; try discriminate. }
  destruct (Z.eqb_spec (ac_phase admin_state st) 7) as [E | _];
    discriminate.
Qed.

End SuspendFacts.

Example save_runs_every_phase :
  DemoSuspend.drive 8 (DemoSuspend.start ADMIN_OPERATION_SAVE VDO_DIRTY)
  = [WaitUntilNotEnteringReadOnlyMode bool (mkCompletion 0 1);
     DrainPacker bool (mkCompletion 0 0);
     DrainLogicalZones bool false (mkCompletion 0 0);
     DrainBlockMap bool false (mkCompletion 0 2);
     DrainRecoveryJournal bool false (mkCompletion 0 0);
     DrainSlabDepot bool false (mkCompletion 0 0);
     SaveVDOComponentsAsync bool VDO_CLEAN (mkCompletion 0 0);
     FinishDrainingWithResult bool false 0].
Proof. reflexivity. Qed.

Example suspend_saves_nothing :
  DemoSuspend.drive 8 (DemoSuspend.start ADMIN_OPERATION_SUSPEND VDO_DIRTY)
  = [WaitUntilNotEnteringReadOnlyMode bool (mkCompletion 0 1);
     DrainPacker bool (mkCompletion 0 0);
     DrainLogicalZones bool true (mkCompletion 0 0);
     DrainBlockMap bool true (mkCompletion 0 2);
     DrainRecoveryJournal bool true (mkCompletion 0 0);
     DrainSlabDepot bool true (mkCompletion 0 0);
     FinishDrainingWithResult bool true 0].
Proof. reflexivity. Qed.

Lemma suspendCallback_names_next_thread_witness :
  callbackThreadID
    (ac_subTask bool
       (DemoSuspend.callback
          (DemoSuspend.start ADMIN_OPERATION_SAVE VDO_DIRTY)).1)
  = 1.
Proof.
  destruct (suspendCallback_names_next_thread bool DemoSuspend.startDraining
              DemoSuspend.isSuspending DemoSuspend.resetCompletion
              DemoSuspend.setCompletionResult 1027 1 2 0
              (DemoSuspend.start ADMIN_OPERATION_SAVE VDO_DIRTY)
              (mkCompletion 0 1) eq_refl) as (Hc & Ht & _).
  unfold DemoSuspend.callback. rewrite Hc. exact Ht.
Defined.

Lemma suspendCallback_saves_clean_state_witness :
  vdo_state bool
    (DemoSuspend.callback
       (mkSuspend bool ADMIN_OPERATION_SAVE 6 0 (mkCompletion 0 0) VDO_NEW
                  true false)).1
  = VDO_CLEAN.
Proof.
  destruct (suspendCallback_saves_clean_state bool DemoSuspend.startDraining
              DemoSuspend.isSuspending DemoSuspend.resetCompletion
              DemoSuspend.setCompletionResult 1027 1 2 0
              (mkSuspend bool ADMIN_OPERATION_SAVE 6 0 (mkCompletion 0 0)
                         VDO_NEW true false)
              VDO_CLEAN (mkCompletion 0 0) eq_refl) as (_ & _ & _ & H & _).
  exact H.
Defined.

End VdoSuspendFacts.

(** * The small syslog client *)

Module MiniSyslogFacts.

Import MiniSyslog.

#[local] Set Warnings "-clear-no-such-hyp".

Lemma next_answer_fds (call : syscall) (o : os) :
  fds (next_answer call o).2 = fds o.
Proof. unfold next_answer. destruct (script o); reflexivity. Qed.

Lemma open_descriptor_spec (call : syscall) (o : os) (fd : Z) (o' : os) :
  open_descriptor call o = (fd, o') ->
  (fd = -1 /\ fds o' = fds o)
  \/ (0 <= fd
      /\ (Z.to_nat fd ∉ fds o)
      /\ fds o' = {[Z.to_nat fd]} ∪ fds o).
Proof.
  unfold open_descriptor. pose proof (next_answer_fds call o) as Hf.
  destruct (next_answer call o) as [answer o1]. cbn [snd] in Hf.
  destruct (refused answer); intros [= <- <-].
  - left. auto.
  - right. cbn [fds]. rewrite Nat2Z.id, Hf. split; [lia|].
    split; [apply is_fresh|reflexivity].
Qed.

Lemma connect_fds (fd : Z) (o : os) : fds (connect fd o).2 = fds o.
Proof.
  unfold connect. pose proof (next_answer_fds (Connect fd) o) as Hf.
  destruct (next_answer (Connect fd) o). exact Hf.
Qed.

Lemma close_fds (fd : Z) (o : os) :
  fds (close fd o).2
  = if fd <? 0 then fds o else fds o ∖ {[Z.to_nat fd]}.
Proof.
  unfold close. pose proof (next_answer_fds (Close fd) o) as Hf.
  destruct (next_answer (Close fd) o). cbn [snd fds] in *.
  rewrite Hf. reflexivity.
Qed.

Lemma transfer_fds (call : syscall) (bytes : Z) (o : os) :
  fds (transfer call bytes o).2 = fds o.
Proof.
  unfold transfer. pose proof (next_answer_fds call o) as Hf.
  destruct (next_answer call o). exact Hf.
Qed.

Lemma write_msg_fds (fd : Z) (msg : list byte) (o : os) :
  fds (write_msg fd msg o).2 = fds o.
Proof.
  unfold write_msg, write. cbv zeta.
  pose proof (transfer_fds (Write fd msg) (Z.of_nat (length msg)) o) as H1.
  destruct (transfer (Write fd msg) _ o) as [n o1]. cbn [snd] in H1.
  destruct (n =? _); [|exact H1].
  pose proof (transfer_fds (Write fd [x0a]) (Z.of_nat (length [x0a])) o1)
    as H2.
  destruct (transfer (Write fd [x0a]) _ o1) as [m o2]. cbn [snd] in *.
  congruence.
Qed.

Lemma close_locked_spec (st : syslog) (o : os) :
  well_kept st o ->
  log_socket (close_locked st o).1 = -1
  /\ fds (close_locked st o).2 = fds o ∖ owned st
  /\ log_ident (close_locked st o).1 = log_ident st
  /\ log_option (close_locked st o).1 = log_option st
  /\ default_facility (close_locked st o).1 = default_facility st.
Proof.
  intros [Hs Ho]. unfold close_locked, owned in *.
  destruct (Z.eqb_spec (log_socket st) (-1)) as [E | E]; cbn [negb].
  - rewrite E. cbn. repeat split; auto. set_solver.
  - pose proof (close_fds (log_socket st) o) as Hc.
    destruct (close (log_socket st) o) as [r o1]. cbn [fst snd] in *.
    destruct (Z.ltb_spec (log_socket st) 0); [lia|].
    repeat split; auto.
Qed.

Lemma open_socket_locked_spec (st : syslog) (o : os) :
  well_kept st o ->
  well_kept (open_socket_locked st o).1 (open_socket_locked st o).2
  /\ fds (open_socket_locked st o).2 ∖ owned (open_socket_locked st o).1
     = fds o ∖ owned st
  /\ log_ident (open_socket_locked st o).1 = log_ident st
  /\ log_option (open_socket_locked st o).1 = log_option st
  /\ default_facility (open_socket_locked st o).1 = default_facility st.
Proof.
  intros Hk. unfold open_socket_locked.
  destruct (Z.eqb_spec (log_socket st) (-1)) as [E | E]; cbn [negb];
    [|cbn [fst snd]; auto].
  assert (owned st = ∅) as Hempty by (unfold owned; rewrite E; reflexivity).
  unfold socket.
  destruct (open_descriptor Socket o) as [fd o1] eqn:Hopen.
  destruct (open_descriptor_spec _ _ _ _ Hopen)
    as [[-> Hf] | (Hpos & Hfresh & Hf)];
    cbn [log_socket set_log_socket].
  - cbn [fst snd Z.ltb Z.compare]. rewrite Hf, Hempty.
    unfold well_kept, owned.
    cbn [log_socket set_log_socket Z.ltb Z.compare].
    repeat split; auto. set_solver.
  - destruct (Z.ltb_spec fd 0); [lia|].
    pose proof (connect_fds fd o1) as Hcon.
    destruct (connect fd o1) as [connected o2]. cbn [snd] in Hcon.
    assert (well_kept (set_log_socket fd st) o2) as Hk2.
    { unfold well_kept, owned. cbn [log_socket set_log_socket].
      destruct (Z.ltb_spec fd 0); [lia|]. split; [auto|].
      rewrite Hcon, Hf. set_solver. }
    destruct (connected =? 0); cbn [negb fst snd].
    + split; [exact Hk2|]. unfold owned at 1.
      cbn [log_socket set_log_socket].
      destruct (Z.ltb_spec fd 0); [lia|].
      rewrite Hcon, Hf, Hempty. repeat split; auto. set_solver.
    + destruct (close_locked_spec _ _ Hk2) as (Hs & Hc & Hi & Hop & Hd).
      rewrite Hempty. unfold well_kept, owned. rewrite Hs.
      cbn [Z.ltb Z.compare]. rewrite Hc. unfold owned.
      cbn [log_socket set_log_socket].
      destruct (Z.ltb_spec fd 0); [lia|].
      rewrite Hcon, Hf. repeat split; auto; set_solver.
Qed.

Lemma mini_closelog_spec (st : syslog) (o : os) :
  well_kept st o ->
  (mini_closelog st o).1 = initial
  /\ fds (mini_closelog st o).2 = fds o ∖ owned st.
Proof.
  intros Hk. unfold mini_closelog.
  destruct (close_locked_spec _ _ Hk) as (Hs & Hc & _).
  destruct (close_locked st o) as [st1 o1]. cbn [fst snd] in *.
  rewrite Hs. split; [reflexivity|exact Hc].
Qed.

Lemma mini_openlog_spec (ident : list byte) (option facility : Z)
    (st : syslog) (o : os) :
  well_kept st o ->
  well_kept (mini_openlog ident option facility st o).1
            (mini_openlog ident option facility st o).2
  /\ fds (mini_openlog ident option facility st o).2
       ∖ owned (mini_openlog ident option facility st o).1
     = fds o ∖ owned st.
Proof.
  intros Hk. unfold mini_openlog.
  destruct (close_locked_spec _ _ Hk) as (Hs & Hc & _).
  destruct (close_locked st o) as [st1 o1]. cbn [fst snd] in *.
  pose proof (next_answer_fds DuplicateString o1) as Hn.
  destruct (next_answer DuplicateString o1) as [answer o2].
  cbn [snd] in Hn. cbn [log_option].
  set (st2 := mkSyslog (log_socket st1) _ option facility).
  assert (well_kept st2 o2 /\ fds o2 ∖ owned st2 = fds o ∖ owned st)
    as [Hk2 Hf2].
  { unfold well_kept, owned, st2. cbn [log_socket]. rewrite Hs.
    cbn [Z.ltb Z.compare]. rewrite Hn, Hc.
    split; [split; [auto|set_solver]|set_solver]. }
  destruct (Z.land option LOG_NDELAY =? 0); cbn [negb fst snd].
  - auto.
  - destruct (open_socket_locked_spec _ _ Hk2) as (Hk3 & Hf3 & _).
    split; [exact Hk3|]. rewrite Hf3. exact Hf2.
Qed.

Lemma log_it_spec (header_fits : bool) (stderr_msg buffer : list byte)
    (st : syslog) (o : os) :
  well_kept st o ->
  well_kept (log_it header_fits stderr_msg buffer st o).1.1
            (log_it header_fits stderr_msg buffer st o).1.2
  /\ fds (log_it header_fits stderr_msg buffer st o).1.2
       ∖ owned (log_it header_fits stderr_msg buffer st o).1.1
     = fds o ∖ owned st
  /\ log_ident (log_it header_fits stderr_msg buffer st o).1.1
     = log_ident st
  /\ log_option (log_it header_fits stderr_msg buffer st o).1.1
     = log_option st
  /\ default_facility (log_it header_fits stderr_msg buffer st o).1.1
     = default_facility st.
Proof.
  intros Hk. unfold log_it. cbv zeta.
  destruct header_fits; cbn [negb]; [|cbn [fst snd]; auto].
  assert (exists failure o1,
             (if negb (Z.land (log_option st) LOG_PERROR =? 0)
              then
                let (failed, o0) := write_msg STDERR_FILENO stderr_msg o in
                (false || failed, o0)
              else (false, o)) = (failure, o1)
             /\ fds o1 = fds o) as (failure & o1 & -> & Hf1).
  { destruct (negb _).
    - pose proof (write_msg_fds STDERR_FILENO stderr_msg o) as H.
      destruct (write_msg STDERR_FILENO stderr_msg o) as [failed o0].
      eauto.
    - eauto. }
  assert (well_kept st o1) as Hk1
    by (destruct Hk as [? ?]; split; [auto|rewrite Hf1; auto]).
  destruct (open_socket_locked_spec _ _ Hk1) as (Hk2 & Hf2 & Hi & Hop & Hd).
  destruct (open_socket_locked st o1) as [st2 o2]. cbn [fst snd] in *.
  rewrite Hf1 in Hf2.
  assert (exists failure' o3,
             (if negb (log_socket st2 =? -1)
              then
                let (bytes_written, o0) := send (log_socket st2) buffer o2 in
                (failure || (log_socket st2 =? -1)
                 || negb (bytes_written =? Z.of_nat (length buffer)), o0)
              else (failure || (log_socket st2 =? -1), o2))
             = (failure', o3)
             /\ fds o3 = fds o2) as (failure' & o3 & -> & Hf3).
  { destruct (negb _).
    - unfold send.
      pose proof (transfer_fds (Send (log_socket st2) buffer)
                    (Z.of_nat (length buffer)) o2) as H.
      destruct (transfer _ _ o2) as [n o0]. eauto.
    - eauto. }
  assert (well_kept st2 o3) as Hk3
    by (destruct Hk2 as [? ?]; split; [auto|rewrite Hf3; auto]).
  rewrite <- Hf3 in Hf2. rewrite Hop.
  destruct (failure' && negb (Z.land (log_option st) LOG_CONS =? 0));
    [|cbn [fst snd]; auto].
  unfold open_console.
  destruct (open_descriptor OpenConsole o3) as [console o4] eqn:Hopen.
  destruct (open_descriptor_spec _ _ _ _ Hopen)
    as [[-> Hf4] | (Hpos & Hfresh & Hf4)].
  - change (-1 =? -1) with true. cbv iota beta. cbn [negb fst snd].
    rewrite <- Hf4 in Hf2.
    split; [|auto]. destruct Hk3 as [? ?].
    split; [auto|rewrite Hf4; auto].
  - destruct (Z.eqb_spec console (-1)) as [|_]; [lia|]. cbn [negb].
    pose proof (write_msg_fds console stderr_msg o4) as Hf5.
    destruct (write_msg console stderr_msg o4) as [failed o5].
    cbn [snd] in Hf5.
    pose proof (close_fds console o5) as Hf6.
    destruct (close console o5) as [closed o6]. cbn [fst snd] in *.
    destruct (Z.ltb_spec console 0); [lia|].
    assert (fds o6 = fds o3) as Hsame
      by (rewrite Hf6, Hf5, Hf4; set_solver).
    rewrite Hsame. split; [|auto]. destruct Hk3 as [? ?].
    split; [auto|rewrite Hsame; auto].
Qed.

Lemma enter_spec (e : entry) (st : syslog) (o : os) :
  well_kept st o ->
  well_kept (enter e st o).1 (enter e st o).2
  /\ fds (enter e st o).2 ∖ owned (enter e st o).1 = fds o ∖ owned st.
Proof.
  intros Hk. destruct e as [ident option facility | fits msg buffer |];
    cbn [enter].
  - apply mini_openlog_spec. exact Hk.
  - destruct (log_it_spec fits msg buffer st o Hk) as (H1 & H2 & _).
    split; assumption.
  - destruct (mini_closelog_spec st o Hk) as [Hi Hf].
    rewrite Hi. unfold well_kept, owned, initial. cbn [log_socket].
    cbn [Z.ltb Z.compare]. rewrite Hf. split; [split; [auto|]|];
      set_solver.
Qed.

Lemma enter_all_spec (es : list entry) :
  forall (st : syslog) (o : os),
    well_kept st o ->
    well_kept (enter_all es st o).1 (enter_all es st o).2
    /\ fds (enter_all es st o).2 ∖ owned (enter_all es st o).1
       = fds o ∖ owned st.
Proof.
  induction es as [|e es IH]; intros st o Hk; cbn [enter_all].
  - cbn [fst snd]. auto.
  - destruct (enter_spec e st o Hk) as [Hk1 Hf1].
    destruct (enter e st o) as [st1 o1]. cbn [fst snd] in *.
    destruct (IH st1 o1 Hk1) as [Hk2 Hf2].
    split; [exact Hk2|]. rewrite Hf2. exact Hf1.
Qed.

(** X22: The client never leaks a descriptor and never closes one that is
    not its own: after any sequence of [mini_openlog], logging and
    [mini_closelog] calls on a fresh client, the open descriptors are
    those that were open at the start plus, at most, the one log socket
    the client holds; and that socket is open. *)
Theorem minisyslog_holds_one_descriptor (es : list entry) (o : os) :
  let st' := (enter_all es initial o).1 in
  let o' := (enter_all es initial o).2 in
  fds o' = fds o ∪ owned st'
  /\ owned st' ## fds o
  /\ (log_socket st' = -1
      \/ (0 <= log_socket st' /\ Z.to_nat (log_socket st') ∈ fds o')).
Proof.
  cbv zeta.
  assert (well_kept initial o) as Hk.
  { unfold well_kept, owned, initial. cbn. split; [auto|set_solver]. }
  destruct (enter_all_spec es initial o Hk) as [[Hs Hsub] Hf].
  assert (owned initial = ∅) as Hempty by reflexivity.
  rewrite Hempty in Hf.
  split; [|split].
  - apply set_eq. intros fd.
    destruct (decide (fd ∈ owned (enter_all es initial o).1));
      set_solver.
  - set_solver.
  - destruct Hs as [Hs | Hs]; [left; exact Hs|right].
    split; [exact Hs|]. unfold owned in Hsub.
    destruct (Z.ltb_spec (log_socket (enter_all es initial o).1) 0);
      [lia|set_solver].
Qed.

(** X23: [mini_closelog] gives everything back: it leaves the client as it
    was before its first call, and the descriptors open are those that
    were open before the client ever ran. *)
Theorem mini_closelog_restores (es : list entry) (o : os) :
  let run := enter_all (es ++ [Closelog]) initial o in
  run.1 = initial /\ fds run.2 = fds o.
Proof.
  cbv zeta.
  assert (forall es' st0 o0,
             enter_all (es' ++ [Closelog]) st0 o0
             = mini_closelog (enter_all es' st0 o0).1
                             (enter_all es' st0 o0).2) as Happ.
  { induction es' as [|e es' IH]; intros st0 o0; cbn [enter_all app].
    - cbn [enter fst snd]. destruct (mini_closelog st0 o0). reflexivity.
    - destruct (enter e st0 o0) as [st1 o1]. apply IH. }
  rewrite Happ.
  assert (well_kept initial o) as Hk.
  { unfold well_kept, owned, initial. cbn. split; [auto|set_solver]. }
  destruct (enter_all_spec es initial o Hk) as [Hk1 Hf].
  destruct (mini_closelog_spec _ _ Hk1) as [Hi Hc].
  split; [exact Hi|]. rewrite Hc, Hf.
  assert (owned initial = ∅) as -> by reflexivity. set_solver.
Qed.

Example openlog_connect_refused :
  let run :=
    mini_openlog [] LOG_NDELAY LOG_USER initial
                 (mkOS {[0%nat; 1%nat; 2%nat]} [0; 0; -1] []) in
  log_socket run.1 = -1
  /\ trace run.2 = [DuplicateString; Socket; Connect 3; Close 3].
Proof. vm_compute. split; reflexivity. Qed.

Example log_opens_the_socket_late :
  let run :=
    log_it true [x68; x69] [x3c; x31; x34; x3e; x68; x69]
           (mini_openlog [] 0 LOG_USER initial
                         (mkOS {[0%nat; 1%nat; 2%nat]} [] [])).1
           (mini_openlog [] 0 LOG_USER initial
                         (mkOS {[0%nat; 1%nat; 2%nat]} [] [])).2 in
  log_socket run.1.1 = 3
  /\ trace run.1.2
     = [DuplicateString; Socket; Connect 3;
        Send 3 [x3c; x31; x34; x3e; x68; x69]]
  /\ run.2 = false.
Proof. vm_compute. repeat split; reflexivity. Qed.

End MiniSyslogFacts.

(** * The options and the name column of [vdostats] *)

Module VdoStatsFacts.

Import VdoStats.

Lemma process_args_spec (options : list Z) :
  forall f f' : flags,
    process_args options f = inl f' ->
    Forall (fun c => c = 97 \/ c = 114 \/ c = 115 \/ c = 118) options
    /\ (verbose f' = true
        <-> verbose f = true \/ In 97 options \/ In 118 options)
    /\ (human_readable f' = true
        <-> human_readable f = true \/ In 114 options \/ In 115 options)
    /\ (si f' = true <-> si f = true \/ In 115 options).
Proof.
  induction options as [|c rest IH]; intros f f'; cbn [process_args].
  - intros [= <-]. cbn [In]. split; [constructor|]. tauto.
  - destruct (Z.eqb_spec c 104); [discriminate|].
    destruct (Z.eqb_spec c 97) as [-> | ?].
    { intros H. destruct (IH _ _ H) as (Ha & Hv & Hh & Hs).
      cbn [verbose human_readable si] in *. cbn [In].
      split; [constructor; auto|]. intuition (try lia). }
    destruct (Z.eqb_spec c 114) as [-> | ?].
    { intros H. destruct (IH _ _ H) as (Ha & Hv & Hh & Hs).
      cbn [verbose human_readable si] in *. cbn [In].
      split; [constructor; auto|]. intuition (try lia). }
    destruct (Z.eqb_spec c 115) as [-> | ?].
    { intros H. destruct (IH _ _ H) as (Ha & Hv & Hh & Hs).
      cbn [verbose human_readable si] in *. cbn [In].
      split; [constructor; auto|]. intuition (try lia). }
    destruct (Z.eqb_spec c 118) as [-> | ?].
    { intros H. destruct (IH _ _ H) as (Ha & Hv & Hh & Hs).
      cbn [verbose human_readable si] in *. cbn [In].
      split; [constructor; auto|]. intuition (try lia). }
    destruct (Z.eqb_spec c 86); discriminate.
Qed.

(** X24: When [process_args] comes back, every option was one of a, r, s,
    v, and each flag tells whether one of its options occurred, whatever
    their order or number: -a and -v both mean verbose, -s also turns on
    human-readable sizes. *)
Theorem process_args_flags (options : list Z) (f : flags) :
  process_args options no_flags = inl f ->
  Forall (fun c => c = 97 \/ c = 114 \/ c = 115 \/ c = 118) options
  /\ (verbose f = true <-> In 97 options \/ In 118 options)
  /\ (human_readable f = true <-> In 114 options \/ In 115 options)
  /\ (si f = true <-> In 115 options)
  /\ (si f = true -> human_readable f = true).
Proof.
  intros H. destruct (process_args_spec _ _ _ H) as (Ha & Hv & Hh & Hs).
  cbn [no_flags verbose human_readable si] in *.
  split; [exact Ha|]. intuition congruence.
Qed.

Lemma process_args_flags_witness :
  si (mkFlags true true true) = true <-> In 115 [118; 115; 97].
Proof.
  destruct (process_args_flags [118; 115; 97] (mkFlags true true true)
              eq_refl) as (_ & _ & _ & H & _).
  exact H.
Defined.

Example process_args_help_exits :
  process_args [118; 104; 63] no_flags = inr 0.
Proof. reflexivity. Qed.

Example process_args_unknown_option_exits :
  process_args [115; 63; 104] no_flags = inr 1.
Proof. reflexivity. Qed.

Lemma calculateMaxDeviceName_spec (name : list byte) (width : Z) :
  width <= calculateMaxDeviceName name width
  /\ (Z.of_nat (length name) < 2 ^ 31 ->
      Z.of_nat (length name) <= calculateMaxDeviceName name width)
  /\ (calculateMaxDeviceName name width = width
      \/ (Z.of_nat (length name) < 2 ^ 31 ->
          calculateMaxDeviceName name width = Z.of_nat (length name))).
Proof.
  unfold calculateMaxDeviceName, int_of_size. cbv zeta.
  destruct (Z.gtb_spec ((Z.of_nat (length name) + 2 ^ 31) mod 2 ^ 32
                        - 2 ^ 31) width) as [Hgt | Hle].
  - split; [lia|]. split.
    + intros Hsmall. rewrite Z.mod_small by lia. lia.
    + right. intros Hsmall. rewrite Z.mod_small by lia. lia.
  - split; [lia|]. split; [|left; reflexivity].
    intros Hsmall. rewrite Z.mod_small in Hle by lia. lia.
Qed.

Lemma name_column_spec (names : list (list byte)) :
  forall width : Z,
    Forall (fun name => Z.of_nat (length name) < 2 ^ 31) names ->
    let final :=
      fold_left (fun width name => calculateMaxDeviceName name width)
                names width in
    width <= final
    /\ Forall (fun name => Z.of_nat (length name) <= final) names
    /\ (final = width
        \/ Exists (fun name => final = Z.of_nat (length name)) names).
Proof.
  induction names as [|name rest IH]; intros width Hall; cbn [fold_left].
  - split; [lia|]. split; [constructor|left; reflexivity].
  - inversion Hall as [|? ? Hname Hrest]; subst.
    destruct (calculateMaxDeviceName_spec name width) as (Hw & Hfit & Hwhich).
    specialize (IH (calculateMaxDeviceName name width) Hrest).
    cbv zeta in IH. destruct IH as (Hmono & Hfits & Heq).
    split; [lia|]. split.
    + constructor; [specialize (Hfit Hname); lia|exact Hfits].
    + destruct Heq as [Heq | Hex].
      * destruct Hwhich as [Hsame | Hlen].
        -- left. lia.
        -- right. apply Exists_cons_hd. rewrite Heq. auto.
      * right. apply Exists_cons_tl. exact Hex.
Qed.

(** X25: The name column is wide enough for every name it was computed
    from and never narrower than the six characters of its heading; when
    wider, it is exactly as wide as the longest name. So a buffer of
    [maxDeviceNameLength + 1] bytes holds any of these names and its
    terminator. *)
Theorem name_column_fits (names : list (list byte)) :
  Forall (fun name => Z.of_nat (length name) < 2 ^ 31) names ->
  6 <= name_column names
  /\ Forall (fun name => Z.of_nat (length name) + 1 <= name_column names + 1)
            names
  /\ (name_column names = 6
      \/ Exists (fun name => name_column names = Z.of_nat (length name))
                names).
Proof.
  intros Hall. destruct (name_column_spec names 6 Hall) as (H6 & Hfit & Hw).
  fold (name_column names) in *. split; [exact H6|]. split; [|exact Hw].
  eapply Forall_impl; [exact Hfit|]. cbn. intros; lia.
Qed.

Lemma name_column_fits_witness :
  6 <= name_column [[x76; x64; x6f; x30]; replicate 9 x61].
Proof.
  apply (name_column_fits [[x76; x64; x6f; x30]; replicate 9 x61]).
  repeat constructor.
Defined.

End VdoStatsFacts.
